(** * Vectorized environment coordinator (envs/vectorized.py)

    A shallow embedding of [worker] and of the class [VectorizedEnv]:
    construction of the process-mode pool, [_make_config_picklable],
    [_step_env], [step] (thread and multiprocess branches),
    [force_env_reset] and [close].

    Conventions of the embedding.
    - Python statements that can raise are computations in the monad
      [Eff S], a state monad whose result is [Ret], [Raise] or [Block]
      (a call that never returns).  A raised exception keeps the state
      reached so far, as mutation of [self] does in Python.
    - Agent-keyed dicts are insertion-ordered association lists; the
      curriculum configuration is a [gmap] with string keys.
    - Rewards are Python floats; they are modelled by exact rationals.
    - The simulation object, the environment factory, the Action Stacker
      and the Curriculum Manager are collaborators: they are parameters
      of the development (class [Simulation], class [Collaborators]).
    - Debug output ([debug = True]) is not modelled. *)

From Stdlib Require Import ZArith QArith String List Bool Lia.
From stdpp Require Import base option list gmap strings.
Import ListNotations.

Local Open Scope Z_scope.
Local Open Scope nat_scope.
Local Open Scope string_scope.
Local Open Scope list_scope.

(** ** Python exceptions and outcomes *)

Inductive exn : Type :=
| UnboundLocalError (name : string)
| IndexError
| KeyError (key : string)
| AttributeError (attr : string)
| TypeError
| ValueError
| EOFError
| BrokenPipeError
| OSError (msg : string)
| RuntimeError (msg : string)
| SimulationError (msg : string).

(** [except (BrokenPipeError, EOFError)] *)
Definition is_pipe_or_eof (e : exn) : bool :=
  match e with
  | BrokenPipeError | EOFError => true
  | _ => false
  end.

(** [except EOFError] *)
Definition is_eof (e : exn) : bool :=
  match e with EOFError => true | _ => false end.

Inductive outcome (A : Type) : Type :=
| Ret (a : A)
| Raise (e : exn)
| Block.
Arguments Ret {A} a.
Arguments Raise {A} e.
Arguments Block {A}.

Definition Eff (S A : Type) : Type := S -> outcome A * S.

Definition ret {S A} (a : A) : Eff S A := fun s => (Ret a, s).
Definition raise {S A} (e : exn) : Eff S A := fun s => (Raise e, s).
Definition bind {S A B} (c : Eff S A) (k : A -> Eff S B) : Eff S B :=
  fun s =>
    match c s with
    | (Ret a, s') => k a s'
    | (Raise e, s') => (Raise e, s')
    | (Block, s') => (Block, s')
    end.
Definition get {S} : Eff S S := fun s => (Ret s, s).
Definition gets {S A} (f : S -> A) : Eff S A := fun s => (Ret (f s), s).
Definition modify {S} (f : S -> S) : Eff S unit := fun s => (Ret tt, f s).
Definition lift {S A} (o : outcome A) : Eff S A := fun s => (o, s).

Notation "'let*' x ':=' c 'in' k" := (bind c (fun x => k))
  (at level 10, x name, c at level 100, k at level 200, only parsing).
Notation "'let*' ' p ':=' c 'in' k" := (bind c (fun x => let 'p := x in k))
  (at level 10, p pattern, c at level 100, k at level 200, only parsing).
Notation "c ;> k" := (bind c (fun _ => k))
  (at level 100, k at level 200, right associativity, only parsing).

(** [try: c  except <classes>: h] where [catches] decides the classes. *)
Definition try_except {S A} (c : Eff S A) (catches : exn -> bool)
    (h : exn -> Eff S A) : Eff S A :=
  fun s =>
    match c s with
    | (Raise e, s') => if catches e then h e s' else (Raise e, s')
    | r => r
    end.

(** [x is not None], and the truth value of an object reference. *)
Definition is_not_None {A} (o : option A) : bool :=
  match o with Some _ => true | None => false end.

(** [for x in xs: body x] *)
Fixpoint for_each {S A} (xs : list A) (body : A -> Eff S unit) : Eff S unit :=
  match xs with
  | [] => ret tt
  | x :: xs' => body x ;> for_each xs' body
  end.

(** [l[i]] and [l[i] = v] on a Python list: out of range raises. *)
Definition py_getitem {A} (l : list A) (i : nat) : outcome A :=
  match l !! i with
  | Some a => Ret a
  | None => Raise IndexError
  end.

Definition py_setitem {A} (l : list A) (i : nat) (v : A) : outcome (list A) :=
  if decide (i < length l) then Ret (<[i := v]> l) else Raise IndexError.

(** ** Agent-keyed dicts *)

Definition AgentId := string.
Definition PyDict (V : Type) : Type := list (AgentId * V).

Definition dict_len {V} (d : PyDict V) : nat := length d.
Definition dict_keys {V} (d : PyDict V) : list AgentId := map fst d.
Definition dict_values {V} (d : PyDict V) : list V := map snd d.

Fixpoint dict_get {V} (d : PyDict V) (k : AgentId) : option V :=
  match d with
  | [] => None
  | (k', v) :: d' => if String.eqb k k' then Some v else dict_get d' k
  end.

(** [d[k] = v]: overwrite in place, or append a new key. *)
Fixpoint dict_set {V} (d : PyDict V) (k : AgentId) (v : V) : PyDict V :=
  match d with
  | [] => [(k, v)]
  | (k', v') :: d' =>
      if String.eqb k k' then (k', v) :: d' else (k', v') :: dict_set d' k v
  end.

(** [any(xs)] *)
Definition py_any (xs : list bool) : bool := existsb id xs.

(** [sum(xs)]: starts from 0 and adds from the left. *)
Definition py_sum (xs : list Q) : Q := fold_left Qplus xs 0%Q.

(** ** Curriculum configuration *)

Inductive Mutator : Type :=
| FixedTeamSizeMutator (blue_size orange_size : Z)
| OtherMutator (class_name : string).

(** A [state_mutator] value either is a sequence exposing [.mutators]
    or a single mutator without that attribute. *)
Inductive StateMutator : Type :=
| MutatorSequence (mutators : list Mutator)
| SingleMutator (m : Mutator).

Inductive Value : Type :=
| VInt (n : Z)
| VStr (s : string)
| VStateMutator (sm : StateMutator)
| VOpaque (tag : string).

Abbreviation Config := (gmap string Value).

(** [isinstance(m, FixedTeamSizeMutator)] *)
Definition is_team_size (m : Mutator) : bool :=
  match m with FixedTeamSizeMutator _ _ => true | OtherMutator _ => false end.

(** [processed["state_mutator"].mutators] *)
Definition state_mutator_mutators (processed : Config) : outcome (list Mutator) :=
  match processed !! "state_mutator" with
  | None => Raise (KeyError "state_mutator")
  | Some (VStateMutator (MutatorSequence ms)) => Ret ms
  | Some _ => Raise (AttributeError "mutators")
  end.

(** [VectorizedEnv._make_config_picklable] (lines 289-305). *)
Definition _make_config_picklable (config : Config) : outcome Config :=
  let processed := config in                       (* dict(config) *)
  match processed !! "required_agents" with
  | None =>
      match state_mutator_mutators processed with
      | Ret ms =>
          let team_mutators := List.filter is_team_size ms in
          match team_mutators with
          | FixedTeamSizeMutator b o :: _ =>
              Ret (<["required_agents" := VInt (b + o)]> processed)
          | _ => Ret (<["required_agents" := VInt 1]> processed)
          end
      | Raise e => Raise e
      | Block => Block
      end
  | Some _ => Ret processed
  end.

(** ** Collaborators *)

Definition Observation := list Z.

Inductive Action : Type :=
| NdArray (data : list Z)
| PyInt (n : Z)
| PyFloat (q : Q).

(** The four mappings returned by the simulation's [step]. *)
Definition StepOut : Type :=
  (PyDict Observation * PyDict Q * PyDict bool * PyDict bool)%type.

Inductive Renderer : Type := RLViserRenderer.

(** A call into the simulation or its factory returns or raises an
    exception of the simulation's own (a subclass of [Exception] that is
    neither [EOFError] nor an [OSError]). *)
Inductive sim_result (A : Type) : Type :=
| SimOk (a : A)
| SimError (msg : string).
Arguments SimOk {A} a.
Arguments SimError {A} msg.

(** Environment Factory and simulation object: [get_env], [reset],
    [step], [close], [render], the mutable attribute [renderer], and the
    tick bookkeeping of the timeout condition done after a reset. *)
Class Simulation (Env : Type) : Type := {
  get_env : option Renderer -> option Config -> sim_result Env;
  env_reset : Env -> sim_result (PyDict Observation) * Env;
  env_step : PyDict Action -> Env -> sim_result StepOut * Env;
  env_close : Env -> sim_result unit * Env;
  env_render : Env -> Env;
  env_renderer : Env -> option Renderer;
  env_set_renderer : option Renderer -> Env -> Env;
  env_set_initial_tick : Env -> Env
}.

Class ActionStacker (Stacker : Type) : Type := {
  add_action : AgentId -> Action -> Stacker -> Stacker;
  reset_agent : AgentId -> Stacker -> Stacker
}.

Record Metrics : Type := {
  success : bool;
  timeout : bool;
  episode_reward : Q
}.

Class CurriculumManager (Manager : Type) : Type := {
  get_environment_config : Manager -> Config * Manager;
  update_progression_stats : Metrics -> Manager -> Manager
}.

(** [action if isinstance(action, np.ndarray)
     else np.array([action if isinstance(action, int) else int(action)])] *)
Definition format_action (action : Action) : Action :=
  match action with
  | NdArray d => NdArray d
  | PyInt n => NdArray [n]
  | PyFloat q => NdArray [Z.quot (Qnum q) (Z.pos (Qden q))]
  end.

(** ** Channel protocol *)

Inductive Command : Type :=
| CmdStep (actions_dict : PyDict Action)
| CmdReset
| CmdSetCurriculum (data : Config)
| CmdClose
| CmdResetActionStacker (agent_id : AgentId).

Inductive Message : Type :=
| MsgStep (out : StepOut)
| MsgObs (obs : PyDict Observation)
| MsgTrue.

Definition exn_str (e : exn) : string :=
  match e with
  | UnboundLocalError n => "local variable referenced before assignment: " ++ n
  | IndexError => "list index out of range"
  | KeyError k => k
  | AttributeError a => a
  | TypeError => "type error"
  | ValueError => "value error"
  | EOFError => ""
  | BrokenPipeError => "Broken pipe"
  | OSError m => m
  | RuntimeError m => m
  | SimulationError m => m
  end.

(** ** Plain Python objects *)

Inductive Mode : Type := thread | multiprocess.

(** A Python list object together with its identity: [copy()] yields the
    same items under a fresh identity. *)
Record PyList (A : Type) : Type := { oid : nat; items : list A }.
Arguments oid {A} _.
Arguments items {A} _.

(** [ThreadPoolExecutor] *)
Record Executor : Type := { shut_down : bool }.

(** A [Process] handle; it controls the worker behind [remotes[p_slot]]. *)
Record Process : Type := { p_slot : nat }.

Section Program.

Context {Env Stacker Manager : Type}.
Context `{Sim : !Simulation Env} `{Stk : !ActionStacker Stacker}
        `{Mgr : !CurriculumManager Manager}.

(** ** Worker Unit: the process-mode [worker] function *)

Record Worker : Type := {
  w_env : Env;
  w_renderer : option Renderer;
  w_stacker : option Stacker;
  w_curr_config : option Config;
  w_running : bool;             (* the [while True] loop has not been left *)
  w_channel_open : bool;        (* the worker's end of the pipe *)
  w_outbox : list Message;      (* written by [remote.send], not yet received *)
  w_stdout : list string;       (* lines printed, oldest first *)
  w_builds : nat                (* ghost: calls of [env_fn] that returned *)
}.

Definition w_set_env (e : Env) (w : Worker) : Worker :=
  let '(Build_Worker _ r s c ru ch o p b) := w in Build_Worker e r s c ru ch o p b.
Definition w_set_stacker (s : option Stacker) (w : Worker) : Worker :=
  let '(Build_Worker e r _ c ru ch o p b) := w in Build_Worker e r s c ru ch o p b.
Definition w_set_curr_config (c : option Config) (w : Worker) : Worker :=
  let '(Build_Worker e r s _ ru ch o p b) := w in Build_Worker e r s c ru ch o p b.
Definition w_set_running (ru : bool) (w : Worker) : Worker :=
  let '(Build_Worker e r s c _ ch o p b) := w in Build_Worker e r s c ru ch o p b.
Definition w_set_channel_open (ch : bool) (w : Worker) : Worker :=
  let '(Build_Worker e r s c ru _ o p b) := w in Build_Worker e r s c ru ch o p b.
Definition w_set_outbox (o : list Message) (w : Worker) : Worker :=
  let '(Build_Worker e r s c ru ch _ p b) := w in Build_Worker e r s c ru ch o p b.
Definition w_set_stdout (p : list string) (w : Worker) : Worker :=
  let '(Build_Worker e r s c ru ch o _ b) := w in Build_Worker e r s c ru ch o p b.
Definition w_set_builds (b : nat) (w : Worker) : Worker :=
  let '(Build_Worker e r s c ru ch o p _) := w in Build_Worker e r s c ru ch o p b.

(** A call of a method of the worker's simulation object. *)
Definition w_sim {A} (op : Env -> sim_result A * Env) : Eff Worker A :=
  fun w =>
    match op (w_env w) with
    | (SimOk a, e') => (Ret a, w_set_env e' w)
    | (SimError msg, e') => (Raise (SimulationError msg), w_set_env e' w)
    end.

(** [env_fn(renderer=..., curriculum_config=...)] inside the worker. *)
Definition w_env_fn (renderer : option Renderer) (cfg : option Config)
    : Eff Worker Env :=
  fun w =>
    match get_env renderer cfg with
    | SimOk e => (Ret e, w_set_builds (S (w_builds w)) w)
    | SimError msg => (Raise (SimulationError msg), w)
    end.

Definition w_print (line : string) : Eff Worker unit :=
  modify (fun w => w_set_stdout (w_stdout w ++ [line]) w).

(** [remote.send(msg)] on the worker's end. *)
Definition w_send (msg : Message) : Eff Worker unit :=
  fun w =>
    if w_channel_open w
    then (Ret tt, w_set_outbox (w_outbox w ++ [msg]) w)
    else (Raise (OSError "handle is closed"), w).

(** Lines 78-86: format every action and add it to the stacker history. *)
Definition format_actions (actions_dict : PyDict Action)
    (stacker : option Stacker) : PyDict Action * option Stacker :=
  fold_left
    (fun acc item =>
       let formatted := format_action (snd item) in
       (dict_set (fst acc) (fst item) formatted,
        option_map (add_action (fst item) formatted) (snd acc)))
    actions_dict ([], stacker).

(** Lines 96-107: the retry loop of the [reset] command.  The result is
    [Some obs] when [reset_success] is set, [None] when the loop runs out. *)
Fixpoint worker_reset_loop (attempts : list nat)
    : Eff Worker (option (PyDict Observation)) :=
  match attempts with
  | [] => ret None
  | reset_attempt :: rest =>
      try_except
        (let* obs := w_sim env_reset in ret (Some obs))
        (fun _ => true)                                  (* except Exception *)
        (fun e =>
           if Nat.eqb reset_attempt 2 then raise e       (* last attempt *)
           else worker_reset_loop rest)
  end.

(** Lines 75-159: the body of the [try] for one received command.  The
    result is [true] when the body ends in [break]. *)
Definition worker_command (cmd : Command) : Eff Worker bool :=
  match cmd with
  | CmdStep actions_dict =>
      let* w := get in
      let fs := format_actions actions_dict (w_stacker w) in
      modify (w_set_stacker (snd fs)) ;>
      let* out := w_sim (env_step (fst fs)) in
      w_send (MsgStep out) ;>
      ret false
  | CmdReset =>
      let* r := worker_reset_loop (seq 0 3) in
      match r with
      | Some obs =>
          modify (fun w => w_set_env (env_set_initial_tick (w_env w)) w) ;>
          w_send (MsgObs obs) ;>
          ret false
      | None => ret false
      end
  | CmdSetCurriculum data =>
      modify (w_set_curr_config (Some data)) ;>
      let* w := get in
      let temp_renderer := env_renderer (w_env w) in
      (if is_not_None (w_renderer w)
       then modify (fun w => w_set_env (env_set_renderer None (w_env w)) w)
       else ret tt) ;>
      w_sim env_close ;>
      let* env := w_env_fn (w_renderer w) (Some data) in
      modify (w_set_env env) ;>
      (if is_not_None (w_renderer w)
       then modify (fun w => w_set_env (env_set_renderer temp_renderer (w_env w)) w)
       else ret tt) ;>
      w_send MsgTrue ;>
      ret false
  | CmdClose =>
      w_sim env_close ;>
      modify (w_set_channel_open false) ;>
      ret true
  | CmdResetActionStacker agent_id =>
      modify (fun w => w_set_stacker (option_map (reset_agent agent_id) (w_stacker w)) w) ;>
      w_send MsgTrue ;>
      ret false
  end.

(** One turn of the [while True] loop (lines 64-167) for a command that
    has arrived: [except EOFError: break], and any other exception is
    printed before the loop is left. *)
Definition worker_handle (cmd : Command) (w : Worker) : Worker :=
  match worker_command cmd w with
  | (Ret true, w') => w_set_running false w'
  | (Ret false, w') => w'
  | (Raise e, w') =>
      if is_eof e then w_set_running false w'
      else w_set_running false
             (w_set_stdout (w_stdout w' ++ [("Error in worker: " ++ exn_str e)%string]) w')
  | (Block, w') => w'
  end.

(** Lines 20-35: the factory is tried [max_retries] times. *)
Fixpoint worker_create_env (attempts : list nat) (cfg : option Config)
    : outcome Env :=
  match attempts with
  | [] => Raise (RuntimeError "Failed to create environment after max retries")
  | attempt :: rest =>
      match get_env None cfg with
      | SimOk e => Ret e
      | SimError msg =>
          if decide (attempt < 3 - 1) then worker_create_env rest cfg
          else Raise (SimulationError msg)
      end
  end.

(** Lines 15-62: start-up of the worker process.  [None] is a process
    that died before it entered its loop. *)
Definition worker_start (render : bool) (action_stacker : option Stacker)
    (curriculum_config : option Config) : option Worker :=
  match worker_create_env (seq 0 3) curriculum_config with
  | Ret env =>
      let renderer := if render then Some RLViserRenderer else None in
      let env := if render then env_set_renderer renderer env else env in
      Some {| w_env := env_set_initial_tick env;
              w_renderer := renderer;
              w_stacker := action_stacker;
              w_curr_config := curriculum_config;
              w_running := true;
              w_channel_open := true;
              w_outbox := [];
              w_stdout := [];
              w_builds := 1 |}
  | _ => None
  end.

(** ** The Coordinator: class [VectorizedEnv] *)

(** The Coordinator's end of a pipe, with the worker process at the far
    end ([None]: the process died before entering its loop). *)
Record Remote : Type := {
  handle_open : bool;
  peer : option Worker;
  reply_delay : Z;        (* time units until the pending answer is readable *)
  sent : list Command     (* ghost: commands written, oldest first *)
}.

Definition r_set_handle_open (h : bool) (r : Remote) : Remote :=
  let '(Build_Remote _ p d c) := r in Build_Remote h p d c.
Definition r_set_peer (p : option Worker) (r : Remote) : Remote :=
  let '(Build_Remote h _ d c) := r in Build_Remote h p d c.
Definition r_set_reply_delay (d : Z) (r : Remote) : Remote :=
  let '(Build_Remote h p _ c) := r in Build_Remote h p d c.
Definition r_set_sent (c : list Command) (r : Remote) : Remote :=
  let '(Build_Remote h p d _) := r in Build_Remote h p d c.

Record VectorizedEnv : Type := {
  num_envs : nat;
  render : bool;
  action_stacker : option Stacker;   (* the object shared by every slot in thread mode *)
  curriculum_manager : option Manager;
  episode_rewards : list (PyDict Q);
  episode_successes : list bool;
  episode_timeouts : list bool;
  curriculum_configs : list (option Config);
  mode : option Mode;   (* [None]: attribute not set yet *)
  envs : option (list Env);
  executor : option Executor;
  remotes : option (list Remote);
  processes : option (list Process);
  obs_dicts : list (PyDict Observation);
  dones : PyList bool;
  episode_counts : PyList Z;
  next_oid : nat;   (* ghost: next fresh list identity *)
  reported : list Metrics;   (* ghost: arguments of update_progression_stats, oldest first *)
  stdout : list string   (* lines printed, oldest first *)
}.

Definition set_num_envs (v : nat) (s : VectorizedEnv) : VectorizedEnv :=
  let '(Build_VectorizedEnv _ x1 x2 x3 x4 x5 x6 x7 x8 x9 x10 x11 x12 x13 x14 x15 x16 x17 x18) := s in
  Build_VectorizedEnv v x1 x2 x3 x4 x5 x6 x7 x8 x9 x10 x11 x12 x13 x14 x15 x16 x17 x18.
Definition set_render (v : bool) (s : VectorizedEnv) : VectorizedEnv :=
  let '(Build_VectorizedEnv x0 _ x2 x3 x4 x5 x6 x7 x8 x9 x10 x11 x12 x13 x14 x15 x16 x17 x18) := s in
  Build_VectorizedEnv x0 v x2 x3 x4 x5 x6 x7 x8 x9 x10 x11 x12 x13 x14 x15 x16 x17 x18.
Definition set_action_stacker (v : option Stacker) (s : VectorizedEnv) : VectorizedEnv :=
  let '(Build_VectorizedEnv x0 x1 _ x3 x4 x5 x6 x7 x8 x9 x10 x11 x12 x13 x14 x15 x16 x17 x18) := s in
  Build_VectorizedEnv x0 x1 v x3 x4 x5 x6 x7 x8 x9 x10 x11 x12 x13 x14 x15 x16 x17 x18.
Definition set_curriculum_manager (v : option Manager) (s : VectorizedEnv) : VectorizedEnv :=
  let '(Build_VectorizedEnv x0 x1 x2 _ x4 x5 x6 x7 x8 x9 x10 x11 x12 x13 x14 x15 x16 x17 x18) := s in
  Build_VectorizedEnv x0 x1 x2 v x4 x5 x6 x7 x8 x9 x10 x11 x12 x13 x14 x15 x16 x17 x18.
Definition set_episode_rewards (v : list (PyDict Q)) (s : VectorizedEnv) : VectorizedEnv :=
  let '(Build_VectorizedEnv x0 x1 x2 x3 _ x5 x6 x7 x8 x9 x10 x11 x12 x13 x14 x15 x16 x17 x18) := s in
  Build_VectorizedEnv x0 x1 x2 x3 v x5 x6 x7 x8 x9 x10 x11 x12 x13 x14 x15 x16 x17 x18.
Definition set_episode_successes (v : list bool) (s : VectorizedEnv) : VectorizedEnv :=
  let '(Build_VectorizedEnv x0 x1 x2 x3 x4 _ x6 x7 x8 x9 x10 x11 x12 x13 x14 x15 x16 x17 x18) := s in
  Build_VectorizedEnv x0 x1 x2 x3 x4 v x6 x7 x8 x9 x10 x11 x12 x13 x14 x15 x16 x17 x18.
Definition set_episode_timeouts (v : list bool) (s : VectorizedEnv) : VectorizedEnv :=
  let '(Build_VectorizedEnv x0 x1 x2 x3 x4 x5 _ x7 x8 x9 x10 x11 x12 x13 x14 x15 x16 x17 x18) := s in
  Build_VectorizedEnv x0 x1 x2 x3 x4 x5 v x7 x8 x9 x10 x11 x12 x13 x14 x15 x16 x17 x18.
Definition set_curriculum_configs (v : list (option Config)) (s : VectorizedEnv) : VectorizedEnv :=
  let '(Build_VectorizedEnv x0 x1 x2 x3 x4 x5 x6 _ x8 x9 x10 x11 x12 x13 x14 x15 x16 x17 x18) := s in
  Build_VectorizedEnv x0 x1 x2 x3 x4 x5 x6 v x8 x9 x10 x11 x12 x13 x14 x15 x16 x17 x18.
Definition set_mode (v : option Mode) (s : VectorizedEnv) : VectorizedEnv :=
  let '(Build_VectorizedEnv x0 x1 x2 x3 x4 x5 x6 x7 _ x9 x10 x11 x12 x13 x14 x15 x16 x17 x18) := s in
  Build_VectorizedEnv x0 x1 x2 x3 x4 x5 x6 x7 v x9 x10 x11 x12 x13 x14 x15 x16 x17 x18.
Definition set_envs (v : option (list Env)) (s : VectorizedEnv) : VectorizedEnv :=
  let '(Build_VectorizedEnv x0 x1 x2 x3 x4 x5 x6 x7 x8 _ x10 x11 x12 x13 x14 x15 x16 x17 x18) := s in
  Build_VectorizedEnv x0 x1 x2 x3 x4 x5 x6 x7 x8 v x10 x11 x12 x13 x14 x15 x16 x17 x18.
Definition set_executor (v : option Executor) (s : VectorizedEnv) : VectorizedEnv :=
  let '(Build_VectorizedEnv x0 x1 x2 x3 x4 x5 x6 x7 x8 x9 _ x11 x12 x13 x14 x15 x16 x17 x18) := s in
  Build_VectorizedEnv x0 x1 x2 x3 x4 x5 x6 x7 x8 x9 v x11 x12 x13 x14 x15 x16 x17 x18.
Definition set_remotes (v : option (list Remote)) (s : VectorizedEnv) : VectorizedEnv :=
  let '(Build_VectorizedEnv x0 x1 x2 x3 x4 x5 x6 x7 x8 x9 x10 _ x12 x13 x14 x15 x16 x17 x18) := s in
  Build_VectorizedEnv x0 x1 x2 x3 x4 x5 x6 x7 x8 x9 x10 v x12 x13 x14 x15 x16 x17 x18.
Definition set_processes (v : option (list Process)) (s : VectorizedEnv) : VectorizedEnv :=
  let '(Build_VectorizedEnv x0 x1 x2 x3 x4 x5 x6 x7 x8 x9 x10 x11 _ x13 x14 x15 x16 x17 x18) := s in
  Build_VectorizedEnv x0 x1 x2 x3 x4 x5 x6 x7 x8 x9 x10 x11 v x13 x14 x15 x16 x17 x18.
Definition set_obs_dicts (v : list (PyDict Observation)) (s : VectorizedEnv) : VectorizedEnv :=
  let '(Build_VectorizedEnv x0 x1 x2 x3 x4 x5 x6 x7 x8 x9 x10 x11 x12 _ x14 x15 x16 x17 x18) := s in
  Build_VectorizedEnv x0 x1 x2 x3 x4 x5 x6 x7 x8 x9 x10 x11 x12 v x14 x15 x16 x17 x18.
Definition set_dones (v : PyList bool) (s : VectorizedEnv) : VectorizedEnv :=
  let '(Build_VectorizedEnv x0 x1 x2 x3 x4 x5 x6 x7 x8 x9 x10 x11 x12 x13 _ x15 x16 x17 x18) := s in
  Build_VectorizedEnv x0 x1 x2 x3 x4 x5 x6 x7 x8 x9 x10 x11 x12 x13 v x15 x16 x17 x18.
Definition set_episode_counts (v : PyList Z) (s : VectorizedEnv) : VectorizedEnv :=
  let '(Build_VectorizedEnv x0 x1 x2 x3 x4 x5 x6 x7 x8 x9 x10 x11 x12 x13 x14 _ x16 x17 x18) := s in
  Build_VectorizedEnv x0 x1 x2 x3 x4 x5 x6 x7 x8 x9 x10 x11 x12 x13 x14 v x16 x17 x18.
Definition set_next_oid (v : nat) (s : VectorizedEnv) : VectorizedEnv :=
  let '(Build_VectorizedEnv x0 x1 x2 x3 x4 x5 x6 x7 x8 x9 x10 x11 x12 x13 x14 x15 _ x17 x18) := s in
  Build_VectorizedEnv x0 x1 x2 x3 x4 x5 x6 x7 x8 x9 x10 x11 x12 x13 x14 x15 v x17 x18.
Definition set_reported (v : list Metrics) (s : VectorizedEnv) : VectorizedEnv :=
  let '(Build_VectorizedEnv x0 x1 x2 x3 x4 x5 x6 x7 x8 x9 x10 x11 x12 x13 x14 x15 x16 _ x18) := s in
  Build_VectorizedEnv x0 x1 x2 x3 x4 x5 x6 x7 x8 x9 x10 x11 x12 x13 x14 x15 x16 v x18.
Definition set_stdout (v : list string) (s : VectorizedEnv) : VectorizedEnv :=
  let '(Build_VectorizedEnv x0 x1 x2 x3 x4 x5 x6 x7 x8 x9 x10 x11 x12 x13 x14 x15 x16 x17 _) := s in
  Build_VectorizedEnv x0 x1 x2 x3 x4 x5 x6 x7 x8 x9 x10 x11 x12 x13 x14 x15 x16 x17 v.

(** *** Attribute and item access on [self] *)

Definition print (line : string) : Eff VectorizedEnv unit :=
  modify (fun s => set_stdout (stdout s ++ [line]) s).

(** [self.<name>] for an attribute that exists only once assigned. *)
Definition getattr {A} (name : string) (f : VectorizedEnv -> option A)
    : Eff VectorizedEnv A :=
  fun s =>
    match f s with
    | Some a => (Ret a, s)
    | None => (Raise (AttributeError name), s)
    end.

(** [self.<list>[i]] and [self.<list>[i] = v] *)
Definition load {A} (f : VectorizedEnv -> list A) (i : nat) : Eff VectorizedEnv A :=
  fun s => (py_getitem (f s) i, s).

Definition store {A} (f : VectorizedEnv -> list A)
    (set : list A -> VectorizedEnv -> VectorizedEnv) (i : nat) (v : A)
    : Eff VectorizedEnv unit :=
  fun s =>
    match py_setitem (f s) i v with
    | Ret l => (Ret tt, set l s)
    | Raise e => (Raise e, s)
    | Block => (Block, s)
    end.

Definition set_dones_items (l : list bool) (s : VectorizedEnv) : VectorizedEnv :=
  set_dones {| oid := oid (dones s); items := l |} s.
Definition set_episode_counts_items (l : list Z) (s : VectorizedEnv) : VectorizedEnv :=
  set_episode_counts {| oid := oid (episode_counts s); items := l |} s.

Definition load_done (i : nat) : Eff VectorizedEnv bool :=
  load (fun s => items (dones s)) i.
Definition store_done (i : nat) (v : bool) : Eff VectorizedEnv unit :=
  store (fun s => items (dones s)) set_dones_items i v.

(** [self.episode_counts[i] += 1] *)
Definition incr_episode_count (i : nat) : Eff VectorizedEnv unit :=
  let* n := load (fun s => items (episode_counts s)) i in
  store (fun s => items (episode_counts s)) set_episode_counts_items i (n + 1)%Z.

(** [self.<list>.copy()]: a new list object with the same items. *)
Definition copy_list {A} (f : VectorizedEnv -> PyList A) : Eff VectorizedEnv (PyList A) :=
  fun s => (Ret {| oid := next_oid s; items := items (f s) |},
            set_next_oid (S (next_oid s)) s).

(** *** The simulation objects of thread mode *)

Definition load_env (i : nat) : Eff VectorizedEnv Env :=
  let* es := getattr "envs" envs in lift (py_getitem es i).

Definition store_env (i : nat) (e : Env) : Eff VectorizedEnv unit :=
  let* es := getattr "envs" envs in
  let* es' := lift (py_setitem es i e) in
  modify (set_envs (Some es')).

(** [self.envs[i].<method>()]: the object at [i] is mutated in place. *)
Definition env_call {A} (i : nat) (op : Env -> sim_result A * Env)
    : Eff VectorizedEnv A :=
  let* e := load_env i in
  match op e with
  | (SimOk a, e') => store_env i e' ;> ret a
  | (SimError msg, e') => store_env i e' ;> raise (SimulationError msg)
  end.

Definition env_update (i : nat) (f : Env -> Env) : Eff VectorizedEnv unit :=
  let* e := load_env i in store_env i (f e).

Definition coord_get_env (renderer : option Renderer) (cfg : option Config)
    : Eff VectorizedEnv Env :=
  lift (match get_env renderer cfg with
        | SimOk e => Ret e
        | SimError msg => Raise (SimulationError msg)
        end).

(** *** The channels of process mode *)

(** [remote.send(cmd)]: a closed handle raises [OSError]; a pipe whose far
    end is gone raises [BrokenPipeError]; otherwise the worker takes the
    command in its next loop turn. *)
Definition conn_send (cmd : Command) (r : Remote) : outcome unit * Remote :=
  if negb (handle_open r) then (Raise (OSError "handle is closed"), r)
  else
    match peer r with
    | Some w =>
        if w_running w
        then (Ret tt, r_set_sent (sent r ++ [cmd])
                        (r_set_peer (Some (worker_handle cmd w)) r))
        else (Raise BrokenPipeError, r)
    | None => (Raise BrokenPipeError, r)
    end.

(** [remote.recv()]: the oldest unread message; [EOFError] when the far
    end is gone and nothing is left; otherwise the call never returns. *)
Definition conn_recv (r : Remote) : outcome Message * Remote :=
  if negb (handle_open r) then (Raise (OSError "handle is closed"), r)
  else
    match peer r with
    | Some w =>
        match w_outbox w with
        | m :: rest =>
            (Ret m, r_set_reply_delay 0 (r_set_peer (Some (w_set_outbox rest w)) r))
        | [] => if w_running w then (Block, r) else (Raise EOFError, r)
        end
    | None => (Raise EOFError, r)
    end.

(** [remote.close()] *)
Definition conn_close (r : Remote) : outcome unit * Remote :=
  (Ret tt, r_set_handle_open false r).

(** [select.select([remote], [], [], timeout)]: the triple of ready
    lists.  The channel is readable once an answer (or end-of-file) is
    pending and its delay has passed. *)
Definition conn_readable (r : Remote) (timeout : Z) : bool :=
  match peer r with
  | Some w =>
      (negb (Nat.eqb (length (w_outbox w)) 0) || negb (w_running w))
      && (reply_delay r <=? timeout)%Z
  | None => true
  end.

Definition select_select (i : nat) (r : Remote) (timeout : Z) : list (list nat) :=
  [ (if conn_readable r timeout then [i] else []); []; [] ].

(** Truth value of a tuple or list: false only when it is empty. *)
Definition py_truthy {A} (t : list A) : bool := negb (Nat.eqb (length t) 0).

(** An operation on [self.remotes[i]]. *)
Definition remote_op {A} (i : nat) (op : Remote -> outcome A * Remote)
    : Eff VectorizedEnv A :=
  let* rs := getattr "remotes" remotes in
  let* r := lift (py_getitem rs i) in
  modify (set_remotes (Some (<[i := snd (op r)]> rs))) ;>
  lift (fst (op r)).

Definition remote_send (i : nat) (cmd : Command) : Eff VectorizedEnv unit :=
  remote_op i (conn_send cmd).
Definition remote_recv (i : nat) : Eff VectorizedEnv Message :=
  remote_op i conn_recv.

(** *** The Curriculum Manager *)

Definition mgr_update_progression_stats (metrics : Metrics) : Eff VectorizedEnv unit :=
  modify (fun s =>
    set_reported (reported s ++ [metrics])
      (set_curriculum_manager
         (option_map (update_progression_stats metrics) (curriculum_manager s)) s)).

Definition mgr_get_environment_config : Eff VectorizedEnv Config :=
  fun s =>
    match curriculum_manager s with
    | Some m =>
        (Ret (fst (get_environment_config m)),
         set_curriculum_manager (Some (snd (get_environment_config m))) s)
    | None => (Raise (AttributeError "get_environment_config"), s)
    end.

(** *** Shared pieces of [_step_env] and [step] *)

(** Lines 332-335 and 479-482:
    [if agent_id not in acc: acc[agent_id] = 0; acc[agent_id] += reward]. *)
Definition add_reward (acc : PyDict Q) (agent_id : AgentId) (reward : Q) : PyDict Q :=
  let acc0 :=
    match dict_get acc agent_id with
    | Some _ => acc
    | None => dict_set acc agent_id 0%Q
    end in
  dict_set acc0 agent_id (default 0%Q (dict_get acc0 agent_id) + reward)%Q.

Definition track_rewards (acc : PyDict Q) (reward_dict : PyDict Q) : PyDict Q :=
  fold_left (fun a item => add_reward a (fst item) (snd item)) reward_dict acc.

(** Lines 364-368 and 488-492. *)
Definition required_of (config : option Config) (next_obs_dict : PyDict Observation)
    : Value :=
  match config with
  | None => VInt (Z.of_nat (dict_len next_obs_dict))
  | Some c =>
      default (VInt (Z.of_nat (dict_len next_obs_dict))) (c !! "required_agents")
  end.

(** [len(obs) == required] *)
Definition len_equals (obs : PyDict Observation) (required : Value) : bool :=
  match required with
  | VInt n => (Z.of_nat (dict_len obs) =? n)%Z
  | _ => false
  end.

(** Reading a local variable of [step]'s frame. *)
Definition read_local (name : string) (v : option nat) : Eff VectorizedEnv nat :=
  match v with
  | Some n => ret n
  | None => raise (UnboundLocalError name)
  end.

(** *** [_step_env] (lines 307-337) *)

Definition _step_env (env_idx : nat) (actions_dict : PyDict Action)
    : Eff VectorizedEnv (nat * StepOut) :=
  let* s := get in
  let fs := format_actions actions_dict (action_stacker s) in
  modify (set_action_stacker (snd fs)) ;>
  let* out := env_call env_idx (env_step (fst fs)) in
  let '(next_obs_dict, reward_dict, terminated_dict, truncated_dict) := out in
  (if render s && Nat.eqb env_idx 0 then env_update env_idx env_render else ret tt) ;>
  (if is_not_None (curriculum_manager s)
   then
     let* acc := load episode_rewards env_idx in
     store episode_rewards set_episode_rewards env_idx (track_rewards acc reward_dict)
   else ret tt) ;>
  ret (env_idx, out).

(** *** [step], thread branch (lines 342-462) *)

(** [self.executor.submit(self._step_env, (i, env, actions))]: the task
    runs on the pool and its outcome is kept in the future.  Tasks are
    run here in submission order, one after the other. *)
Definition submit (i : nat) (actions : PyDict Action)
    : Eff VectorizedEnv (outcome (nat * StepOut)) :=
  let* ex := getattr "executor" executor in
  if shut_down ex
  then raise (RuntimeError "cannot schedule new futures after shutdown")
  else fun s => (Ret (fst (_step_env i actions s)), snd (_step_env i actions s)).

(** Lines 344-348; a slot whose [actions] mapping is empty is skipped. *)
Fixpoint submit_all (jobs : list (nat * PyDict Action))
    : Eff VectorizedEnv (list (outcome (nat * StepOut))) :=
  match jobs with
  | [] => ret []
  | (i, actions) :: rest =>
      if py_truthy actions
      then
        let* future := submit i actions in
        let* futures := submit_all rest in
        ret (future :: futures)
      else submit_all rest
  end.

(** Lines 351-356: [future.result()] re-raises what the task raised.
    The futures are already in slot order, which is what the sort on the
    slot index establishes. *)
Fixpoint collect_results (futures : list (outcome (nat * StepOut)))
    : Eff VectorizedEnv (list (nat * StepOut)) :=
  match futures with
  | [] => ret []
  | f :: rest =>
      let* r := lift f in
      let* rs := collect_results rest in
      ret (r :: rs)
  end.

(** Lines 424-442: the reset attempts of thread mode.  The [try] block
    yields [true] when it ends in [break]. *)
Fixpoint thread_reset_loop (env_idx : nat) (required : Value) (attempts : list nat)
    : Eff VectorizedEnv unit :=
  match attempts with
  | [] => ret tt
  | attempt :: rest =>
      let* broke :=
        try_except
          (let* obs := env_call env_idx env_reset in
           if len_equals obs required
           then store obs_dicts set_obs_dicts env_idx obs ;> ret true
           else ret false)
          (fun _ => true)                                (* except Exception *)
          (fun e =>
             print ("Reset attempt failed: " ++ exn_str e)%string ;>
             (if Nat.eqb attempt (3 - 1)
              then
                print "Max reset attempts reached, recreating environment" ;>
                env_call env_idx env_close ;>
                let* s := get in
                let* cfg := load curriculum_configs env_idx in
                let* e' := coord_get_env
                             (if Nat.eqb env_idx 0 && render s
                              then Some RLViserRenderer else None) cfg in
                store_env env_idx e' ;>
                let* obs := env_call env_idx env_reset in
                store obs_dicts set_obs_dicts env_idx obs
              else ret tt) ;>
             ret false) in
      if broke then ret tt else thread_reset_loop env_idx required rest
  end.

(** Lines 359-462: the loop body for one result.  [i] is the binding of
    the name [i] in [step]'s frame.  The value is the list of entries the
    body appends to [processed_results]. *)
Definition thread_result (i : option nat) (result : nat * StepOut)
    : Eff VectorizedEnv (list StepOut) :=
  let '(env_idx, out) := result in
  let '(next_obs_dict, reward_dict, terminated_dict, truncated_dict) := out in
  store_done env_idx
    (py_any (dict_values terminated_dict) || py_any (dict_values truncated_dict)) ;>
  let* i := read_local "i" i in
  let* config := load curriculum_configs i in
  let required := required_of config next_obs_dict in
  let* done := load_done env_idx in
  if done then
    store episode_successes set_episode_successes env_idx
      (py_any (dict_values terminated_dict)) ;>
    let* succ := load episode_successes env_idx in
    store episode_timeouts set_episode_timeouts env_idx
      (py_any (dict_values truncated_dict) && negb succ) ;>
    let* s := get in
    (if is_not_None (curriculum_manager s) then
       let* acc := load episode_rewards env_idx in
       let avg_reward :=
         (py_sum (dict_values acc)
          / inject_Z (Z.of_nat (Nat.max (dict_len acc) 1)))%Q in
       let* su := load episode_successes env_idx in
       let* ti := load episode_timeouts env_idx in
       mgr_update_progression_stats
         {| success := su; timeout := ti; episode_reward := avg_reward |} ;>
       let* new_config := mgr_get_environment_config in
       store curriculum_configs set_curriculum_configs env_idx (Some new_config) ;>
       let* done := load_done env_idx in
       if done then
         let slot0 := Nat.eqb env_idx 0 && render s in
         let* existing_renderer :=
           (if slot0
            then
              let* e := load_env env_idx in
              env_update env_idx (env_set_renderer None) ;>
              ret (env_renderer e)
            else ret None) in
         env_call env_idx env_close ;>
         let env_renderer' :=
           if slot0 then Some (default RLViserRenderer existing_renderer) else None in
         let* cfg := load curriculum_configs env_idx in
         let* e' := coord_get_env env_renderer' cfg in
         store_env env_idx e' ;>
         let* obs := env_call env_idx env_reset in
         store obs_dicts set_obs_dicts env_idx obs
       else ret tt
     else ret tt) ;>
    let* done := load_done env_idx in
    (if done then
       incr_episode_count env_idx ;>
       thread_reset_loop env_idx required (seq 0 3) ;>
       modify (fun s =>
         set_action_stacker
           (option_map
              (fun st => fold_left (fun st a => reset_agent a st)
                           (dict_keys next_obs_dict) st)
              (action_stacker s)) s) ;>
       store episode_rewards set_episode_rewards env_idx [] ;>
       store episode_successes set_episode_successes env_idx false ;>
       store episode_timeouts set_episode_timeouts env_idx false ;>
       (if render s && Nat.eqb env_idx 0
        then env_update env_idx env_render else ret tt)
     else store obs_dicts set_obs_dicts env_idx next_obs_dict) ;>
    ret [out]
  else ret [].

Fixpoint thread_results (i : option nat) (results : list (nat * StepOut))
    : Eff VectorizedEnv (list StepOut) :=
  match results with
  | [] => ret []
  | r :: rest =>
      let* entries := thread_result i r in
      let* more := thread_results i rest in
      ret (entries ++ more)
  end.

(** The thread branch.  The comprehension of lines 344-348 binds its own
    [i]: a comprehension has a scope of its own, so the name [i] of
    [step]'s frame, which only the [for] of line 471 assigns, is unbound
    when line 364 reads it. *)
Definition step_thread (actions_dict_list : list (PyDict Action))
    : Eff VectorizedEnv (list StepOut) :=
  let* es := getattr "envs" envs in
  let* futures := submit_all (combine (seq 0 (length es)) actions_dict_list) in
  let* results := collect_results futures in
  thread_results None results.

(** *** [step], multiprocess branch (lines 464-553) *)

(** The answer to a [step] command is unpacked into four mappings, the
    answer to a [reset] command is an observation mapping. *)
Definition expect_step (m : Message) : Eff VectorizedEnv StepOut :=
  match m with
  | MsgStep out => ret out
  | _ => raise TypeError
  end.

Definition expect_obs (m : Message) : Eff VectorizedEnv (PyDict Observation) :=
  match m with
  | MsgObs obs => ret obs
  | _ => raise TypeError
  end.

(** Lines 526-535: the reset attempts of process mode. *)
Fixpoint process_reset_loop (i : nat) (required : Value) (attempts : list nat)
    : Eff VectorizedEnv unit :=
  match attempts with
  | [] => ret tt
  | attempt :: rest =>
      remote_send i CmdReset ;>
      let* m := remote_recv i in
      let* obs := expect_obs m in
      if len_equals obs required
      then store obs_dicts set_obs_dicts i obs               (* break *)
      else
        print "Reset attempt failed" ;>
        (if Nat.eqb attempt (3 - 1) then print "Max reset attempts reached"
         else ret tt) ;>
        process_reset_loop i required rest
  end.

(** Lines 471-551: the loop body for slot [i]. *)
Definition process_result (i : nat) : Eff VectorizedEnv StepOut :=
  let* m := remote_recv i in
  let* out := expect_step m in
  let '(next_obs_dict, reward_dict, terminated_dict, truncated_dict) := out in
  let* s := get in
  (if is_not_None (curriculum_manager s)
   then
     let* acc := load episode_rewards i in
     store episode_rewards set_episode_rewards i (track_rewards acc reward_dict)
   else ret tt) ;>
  store_done i
    (py_any (dict_values terminated_dict) || py_any (dict_values truncated_dict)) ;>
  let* config := load curriculum_configs i in
  let required := required_of config next_obs_dict in
  let* done := load_done i in
  (if done then
     store episode_successes set_episode_successes i
       (py_any (dict_values terminated_dict)) ;>
     let* succ := load episode_successes i in
     store episode_timeouts set_episode_timeouts i
       (py_any (dict_values truncated_dict) && negb succ) ;>
     (if is_not_None (curriculum_manager s) then
        let* acc := load episode_rewards i in
        let avg_reward :=
          if Nat.ltb 0 (dict_len acc)
          then (py_sum (dict_values acc) / inject_Z (Z.of_nat (dict_len acc)))%Q
          else 0%Q in
        let* su := load episode_successes i in
        let* ti := load episode_timeouts i in
        mgr_update_progression_stats
          {| success := su; timeout := ti; episode_reward := avg_reward |} ;>
        let* new_config := mgr_get_environment_config in
        let* new_config := lift (_make_config_picklable new_config) in
        store curriculum_configs set_curriculum_configs i (Some new_config) ;>
        remote_send i (CmdSetCurriculum new_config) ;>
        let* _ := remote_recv i in
        ret tt
      else ret tt) ;>
     incr_episode_count i ;>
     process_reset_loop i required (seq 0 3) ;>
     (if is_not_None (action_stacker s)
      then for_each (dict_keys next_obs_dict)
             (fun agent_id =>
                remote_send i (CmdResetActionStacker agent_id) ;>
                let* _ := remote_recv i in
                ret tt)
      else ret tt) ;>
     store episode_rewards set_episode_rewards i [] ;>
     store episode_successes set_episode_successes i false ;>
     store episode_timeouts set_episode_timeouts i false
   else store obs_dicts set_obs_dicts i next_obs_dict) ;>
  ret out.

Fixpoint process_results (slots : list nat) : Eff VectorizedEnv (list StepOut) :=
  match slots with
  | [] => ret []
  | i :: rest =>
      let* r := process_result i in
      let* rs := process_results rest in
      ret (r :: rs)
  end.

Definition step_multiprocess (actions_dict_list : list (PyDict Action))
    : Eff VectorizedEnv (list StepOut) :=
  let* rs := getattr "remotes" remotes in
  for_each (combine (seq 0 (length rs)) actions_dict_list)
    (fun job => remote_send (fst job) (CmdStep (snd job))) ;>
  process_results (seq 0 (length rs)).

(** *** [step] (lines 339-555) *)

Definition step (actions_dict_list : list (PyDict Action))
    : Eff VectorizedEnv (list StepOut * PyList bool * PyList Z) :=
  let* m := getattr "mode" mode in
  let* processed_results :=
    match m with
    | thread => step_thread actions_dict_list
    | multiprocess => step_multiprocess actions_dict_list
    end in
  let* d := copy_list dones in
  let* c := copy_list episode_counts in
  ret (processed_results, d, c).

(** *** [force_env_reset] (lines 557-573) *)

Definition force_env_reset (env_idx : nat) : Eff VectorizedEnv unit :=
  let* m := getattr "mode" mode in
  match m with
  | thread =>
      let* s := get in
      let* existing_renderer :=
        (if Nat.eqb env_idx 0 && render s
         then let* e := load_env env_idx in ret (env_renderer e)
         else ret None) in
      (if is_not_None existing_renderer
       then env_update env_idx (env_set_renderer None) else ret tt) ;>
      env_call env_idx env_close ;>
      let* cfg := load curriculum_configs env_idx in
      let* e' := coord_get_env existing_renderer cfg in
      store_env env_idx e' ;>
      let* obs := env_call env_idx env_reset in
      store obs_dicts set_obs_dicts env_idx obs
  | multiprocess => ret tt
  end.

(** *** [close] (lines 575-607) *)

(** [process.join(timeout=1.0)], then [terminate()] when still alive:
    either way the worker runs no longer. *)
Definition join_or_terminate (p : Process) : Eff VectorizedEnv unit :=
  modify (fun s =>
    match remotes s with
    | Some rs =>
        match rs !! p_slot p with
        | Some r =>
            set_remotes
              (Some (<[p_slot p :=
                        r_set_peer
                          (option_map
                             (fun w => w_set_channel_open false (w_set_running false w))
                             (peer r)) r]> rs)) s
        | None => s
        end
    | None => s
    end).

Definition close : Eff VectorizedEnv unit :=
  let* m := getattr "mode" mode in
  let* s := get in
  match m with
  | thread =>
      (if is_not_None (executor s)                      (* hasattr(self, 'executor') *)
       then modify (set_executor (Some {| shut_down := true |}))
       else ret tt) ;>
      (match envs s with                                (* hasattr(self, 'envs') *)
       | Some es =>
           for_each (seq 0 (length es)) (fun i => env_call i env_close)
       | None => ret tt
       end)
  | multiprocess =>
      (match remotes s with                             (* hasattr(self, 'remotes') *)
       | Some rs =>
           for_each (seq 0 (length rs))
             (fun i =>
                try_except (remote_send i CmdClose) is_pipe_or_eof
                  (fun _ => ret tt))                    (* already closed *)
       | None => ret tt
       end) ;>
      (match processes s with                           (* hasattr(self, 'processes') *)
       | Some ps => for_each ps join_or_terminate
       | None => ret tt
       end) ;>
      (match remotes s with
       | Some rs =>
           for_each (seq 0 (length rs))
             (fun i =>
                try_except (remote_op i conn_close) (fun _ => true)
                  (fun _ => ret tt))
       | None => ret tt
       end)
  end.

(** *** [__init__] (lines 182-287) *)

(** The object before any attribute is assigned. *)
Definition blank : VectorizedEnv := {|
  num_envs := 0; render := false; action_stacker := None;
  curriculum_manager := None; episode_rewards := []; episode_successes := [];
  episode_timeouts := []; curriculum_configs := []; mode := None; envs := None;
  executor := None; remotes := None; processes := None; obs_dicts := [];
  dones := {| oid := 0; items := [] |};
  episode_counts := {| oid := 0; items := [] |};
  next_oid := 1; reported := []; stdout := []
|}.

(** [[x] * n] and friends: a new list object. *)
Definition new_list {A} (l : list A) : Eff VectorizedEnv (PyList A) :=
  fun s => (Ret {| oid := next_oid s; items := l |}, set_next_oid (S (next_oid s)) s).

(** Lines 196-221. *)
Definition init_config (render_flag : bool) (env_idx : nat) : Eff VectorizedEnv unit :=
  let* s := get in
  if is_not_None (curriculum_manager s) then
    let* config := mgr_get_environment_config in
    let* config :=
      (if negb render_flag then lift (_make_config_picklable config) else ret config) in
    modify (fun s => set_curriculum_configs (curriculum_configs s ++ [Some config]) s)
  else
    modify (fun s => set_curriculum_configs (curriculum_configs s ++ [None]) s).

(** Lines 229-234. *)
Definition init_env (i : nat) : Eff VectorizedEnv unit :=
  let env_renderer' := if Nat.eqb i 0 then Some RLViserRenderer else None in
  let* cfg := load curriculum_configs i in
  let* e := coord_get_env env_renderer' cfg in
  modify (fun s => set_envs (Some (default [] (envs s) ++ [e])) s).

(** Line 236: [[env.reset() for env in self.envs]]. *)
Fixpoint init_resets (slots : list nat) : Eff VectorizedEnv (list (PyDict Observation)) :=
  match slots with
  | [] => ret []
  | i :: rest =>
      let* obs := env_call i env_reset in
      let* more := init_resets rest in
      ret (obs :: more)
  end.

(** [hasattr(remote, 'poll') and hasattr(select, 'select')]: a
    [Connection] has [poll] and the [select] module has [select]. *)
Definition has_poll_and_select : bool := true.

(** Lines 267-283: the initial observation of slot [i]. *)
Definition init_collect (i : nat) : Eff VectorizedEnv unit :=
  if has_poll_and_select then
    let* rs := getattr "remotes" remotes in
    let* r := lift (py_getitem rs i) in
    if py_truthy (select_select i r 30)
    then
      let* m := remote_recv i in
      let* obs := expect_obs m in
      modify (fun s => set_obs_dicts (obs_dicts s ++ [obs]) s)
    else
      print "WARNING: Worker process timeout during initialization" ;>
      modify (fun s => set_obs_dicts (obs_dicts s ++ [[]]) s) ;>
      try_except (remote_send i CmdClose) (fun _ => true) (fun _ => ret tt)
  else
    let* m := remote_recv i in
    let* obs := expect_obs m in
    modify (fun s => set_obs_dicts (obs_dicts s ++ [obs]) s).

(** [delays] gives, per slot, the time the worker takes before its first
    answer is readable. *)
Definition __init__ (num_envs' : nat) (render' : bool)
    (action_stacker' : option Stacker) (curriculum_manager' : option Manager)
    (delays : list Z) : Eff VectorizedEnv unit :=
  let slots := seq 0 num_envs' in
  modify (fun s =>
    set_episode_timeouts (repeat false num_envs')
      (set_episode_successes (repeat false num_envs')
         (set_episode_rewards (repeat [] num_envs')
            (set_curriculum_manager curriculum_manager'
               (set_action_stacker action_stacker'
                  (set_render render' (set_num_envs num_envs' s))))))) ;>
  modify (set_curriculum_configs []) ;>
  for_each slots (init_config render') ;>
  (if render' then
     modify (set_mode (Some thread)) ;>
     modify (set_envs (Some [])) ;>
     for_each slots init_env ;>
     let* obs := init_resets slots in
     modify (set_obs_dicts obs) ;>
     (if Nat.ltb 0 num_envs' then env_update 0 env_render else ret tt) ;>
     modify (set_executor (Some {| shut_down := false |}))
   else
     modify (set_mode (Some multiprocess)) ;>
     (if Nat.eqb num_envs' 0 then raise ValueError else ret tt) ;>   (* unpacking the zip of no pipes *)
     let* s := get in
     modify (set_remotes (Some (map
       (fun idx =>
          {| handle_open := true;
             peer := worker_start false action_stacker'
                       (mjoin (curriculum_configs s !! idx));
             reply_delay := default 0%Z (delays !! idx);
             sent := [] |}) slots))) ;>
     modify (set_processes (Some (map (fun idx => {| p_slot := idx |}) slots))) ;>
     for_each slots (fun i => remote_send i CmdReset) ;>
     modify (set_obs_dicts []) ;>
     for_each slots init_collect) ;>
  let* d := new_list (repeat false num_envs') in
  modify (set_dones d) ;>
  let* c := new_list (repeat 0%Z num_envs') in
  modify (set_episode_counts c).

End Program.

(** ** A scripted simulation, used to run the program on concrete inputs *)

(** The stub answers [reset] from a script of agent counts or errors
    (after the script: [default_agents]); [step] yields [step_agents]
    observations, the same reward for every agent, and terminates or
    truncates the first agent as the flags say. *)
Record StubEnv : Type := {
  reset_script : list (sim_result nat);
  default_agents : nat;
  step_agents : nat;
  step_reward : Q;
  step_terminates : bool;
  step_truncates : bool;
  close_fails : bool;
  times_closed : nat
}.

Definition agent_names : list AgentId := ["blue-0"; "orange-0"; "blue-1"; "orange-1"].

Definition stub_dict {V} (n : nat) (v : V) : PyDict V :=
  map (fun a => (a, v)) (take n agent_names).

Definition stub_flags (n : nat) (first : bool) : PyDict bool :=
  match stub_dict n false with
  | [] => []
  | (a, _) :: rest => (a, first) :: rest
  end.

Definition stub_reset (e : StubEnv) : sim_result (PyDict Observation) * StubEnv :=
  match reset_script e with
  | [] => (SimOk (stub_dict (default_agents e) []), e)
  | r :: rest =>
      let e' := {| reset_script := rest; default_agents := default_agents e;
                   step_agents := step_agents e; step_reward := step_reward e;
                   step_terminates := step_terminates e;
                   step_truncates := step_truncates e;
                   close_fails := close_fails e; times_closed := times_closed e |} in
      match r with
      | SimOk n => (SimOk (stub_dict n []), e')
      | SimError msg => (SimError msg, e')
      end
  end.

Definition stub_step (_ : PyDict Action) (e : StubEnv) : sim_result StepOut * StubEnv :=
  (SimOk (stub_dict (step_agents e) [], stub_dict (step_agents e) (step_reward e),
          stub_flags (step_agents e) (step_terminates e),
          stub_flags (step_agents e) (step_truncates e)), e).

Definition stub_close (e : StubEnv) : sim_result unit * StubEnv :=
  let e' := {| reset_script := reset_script e; default_agents := default_agents e;
               step_agents := step_agents e; step_reward := step_reward e;
               step_terminates := step_terminates e;
               step_truncates := step_truncates e;
               close_fails := close_fails e; times_closed := S (times_closed e) |} in
  if close_fails e && Nat.ltb 0 (times_closed e)
  then (SimError "already closed", e') else (SimOk tt, e').

(** The factory builds a copy of [template] whatever the configuration. *)
Definition stub_sim (template : StubEnv) : Simulation StubEnv := {|
  get_env := fun _ _ => SimOk template;
  env_reset := stub_reset;
  env_step := stub_step;
  env_close := stub_close;
  env_render := fun e => e;
  env_renderer := fun _ => None;
  env_set_renderer := fun _ e => e;
  env_set_initial_tick := fun e => e
|}.

(** A stacker that counts the actions it holds. *)
Definition stub_stacker : ActionStacker nat := {|
  add_action := fun _ _ n => S n;
  reset_agent := fun _ _ => 0
|}.

(** A manager that hands out the configurations of a list, one per call
    (the last one repeats), and keeps the metrics it is given. *)
Record StubManager : Type := {
  configs_left : list Config;
  stats_seen : list Metrics
}.

Definition stub_manager : CurriculumManager StubManager := {|
  get_environment_config := fun m =>
    match configs_left m with
    | [] => (∅, m)
    | [c] => (c, m)
    | c :: rest => (c, {| configs_left := rest; stats_seen := stats_seen m |})
    end;
  update_progression_stats := fun metrics m =>
    {| configs_left := configs_left m; stats_seen := stats_seen m ++ [metrics] |}
|}.

Definition quiet_env : StubEnv := {|
  reset_script := []; default_agents := 2; step_agents := 2; step_reward := 1%Q;
  step_terminates := false; step_truncates := false; close_fails := false;
  times_closed := 0
|}.



(** The program on the scripted collaborators. *)
Definition run_init (tpl : StubEnv) (n : nat) (render_flag : bool)
    (st : option nat) (mg : option StubManager) (delays : list Z) :=
  __init__ (Sim := stub_sim tpl) (Stk := stub_stacker) (Mgr := stub_manager)
    n render_flag st mg delays blank.

Definition run_step (tpl : StubEnv) (acts : list (PyDict Action))
    (s : @VectorizedEnv StubEnv nat StubManager) :=
  step (Sim := stub_sim tpl) (Stk := stub_stacker) (Mgr := stub_manager) acts s.

Definition run_close (tpl : StubEnv) (s : @VectorizedEnv StubEnv nat StubManager) :=
  close (Sim := stub_sim tpl) (Stk := stub_stacker) s.

(** A simulation whose episodes end at the first step. *)
Definition one_step_env : StubEnv := {|
  reset_script := []; default_agents := 2; step_agents := 2; step_reward := 1%Q;
  step_terminates := true; step_truncates := false; close_fails := false;
  times_closed := 0
|}.


Definition config_1v1 : Config :=
  {[ "stage_name" := VStr "1v1"; "required_agents" := VInt 2 ]}.
Definition config_2v2 : Config :=
  {[ "stage_name" := VStr "2v2"; "required_agents" := VInt 4 ]}.

(** A manager that moves from the 1v1 stage to the 2v2 stage. *)
Definition growing_manager : StubManager :=
  {| configs_left := [config_1v1; config_2v2]; stats_seen := [] |}.

Definition one_action : PyDict Action := [("blue-0", PyInt 0)].

Definition run_process_result (tpl : StubEnv) (i : nat)
    (s : @VectorizedEnv StubEnv nat StubManager) :=
  process_result (Sim := stub_sim tpl) (Stk := stub_stacker)
    (Mgr := stub_manager) i s.

Definition run_force_env_reset (tpl : StubEnv) (i : nat)
    (s : @VectorizedEnv StubEnv nat StubManager) :=
  force_env_reset (Sim := stub_sim tpl) i s.


(** A simulation, a stacker and a manager that never fail: one agent,
    every episode ends at its first step, every stage is 1v1. *)
Definition steady_out : StepOut :=
  ([("blue-0", [])], [("blue-0", 1%Q)], [("blue-0", true)], [("blue-0", false)]).

Definition steady_sim : Simulation unit := {|
  get_env := fun _ _ => SimOk tt;
  env_reset := fun e => (SimOk [("blue-0", [])], e);
  env_step := fun _ e => (SimOk steady_out, e);
  env_close := fun e => (SimOk tt, e);
  env_render := fun e => e;
  env_renderer := fun _ => None;
  env_set_renderer := fun _ e => e;
  env_set_initial_tick := fun e => e
|}.

Definition steady_stacker : ActionStacker unit := {|
  add_action := fun _ _ st => st;
  reset_agent := fun _ st => st
|}.

Definition steady_manager : CurriculumManager unit := {|
  get_environment_config := fun m => ({[ "required_agents" := VInt 1 ]}, m);
  update_progression_stats := fun _ m => m
|}.

Definition steady_init (n : nat) :=
  __init__ (Sim := steady_sim) (Stk := steady_stacker) (Mgr := steady_manager)
    n false (Some tt) (Some tt) (repeat 0%Z n) blank.

Definition steady_step (acts : list (PyDict Action))
    (s : @VectorizedEnv unit unit unit) :=
  step (Sim := steady_sim) (Stk := steady_stacker) (Mgr := steady_manager) acts s.



Definition two_actions : PyDict Action :=
  [("blue-0", PyInt 1); ("orange-0", PyFloat (5 # 2))].

(** A configuration as the manager hands it out: no [required_agents],
    a 2v2 team-size mutator among its state mutators. *)
Definition config_raw_2v2 : Config :=
  {[ "state_mutator" :=
       VStateMutator
         (MutatorSequence [OtherMutator "KickoffMutator"; FixedTeamSizeMutator 2 2]) ]}.

Definition run_remote_send (tpl : StubEnv) (i : nat) (cmd : Command)
    (s : @VectorizedEnv StubEnv nat StubManager) :=
  remote_send (Sim := stub_sim tpl) (Stk := stub_stacker) i cmd s.

(** ** Reasoning about effectful code *)

Section Frames.

Context {S : Type} (R : relation S) `{!PreOrder R}.

(** [c] only moves the state along [R], whatever its outcome. *)
Definition preserves {A} (c : Eff S A) : Prop := forall s, R s (snd (c s)).

Lemma preserves_ret {A} (a : A) : preserves (ret a).
Proof. intros s. reflexivity. Qed.

Lemma preserves_raise {A} (e : exn) : preserves (@raise S A e).
Proof. intros s. reflexivity. Qed.

Lemma preserves_lift {A} (o : outcome A) : preserves (lift o).
Proof. intros s. reflexivity. Qed.

Lemma preserves_get : preserves get.
Proof. intros s. reflexivity. Qed.

Lemma preserves_modify (f : S -> S) : (forall s, R s (f s)) -> preserves (modify f).
Proof. intros H s. apply H. Qed.

Lemma preserves_bind {A B} (c : Eff S A) (k : A -> Eff S B) :
  preserves c -> (forall a, preserves (k a)) -> preserves (bind c k).
Proof.
  intros Hc Hk s. unfold bind. specialize (Hc s).
  destruct (c s) as [[a | e |] s1]; simpl in *; try assumption.
  etransitivity; [exact Hc | apply Hk].
Qed.

Lemma preserves_try {A} (c : Eff S A) (f : exn -> bool) (h : exn -> Eff S A) :
  preserves c -> (forall e, preserves (h e)) -> preserves (try_except c f h).
Proof.
  intros Hc Hh s. unfold try_except. specialize (Hc s).
  destruct (c s) as [[a | e |] s1]; simpl in *; try assumption.
  destruct (f e); simpl; [ | assumption].
  etransitivity; [exact Hc | apply Hh].
Qed.

Lemma preserves_for_each {A} (xs : list A) (body : A -> Eff S unit) :
  (forall x, preserves (body x)) -> preserves (for_each xs body).
Proof.
  intros Hb. induction xs as [ | x xs IH]; simpl.
  - apply preserves_ret.
  - apply preserves_bind; [apply Hb | intros _; exact IH].
Qed.

End Frames.

Lemma bind_Ret {S A B} (c : Eff S A) (k : A -> Eff S B) s b s' :
  bind c k s = (Ret b, s') ->
  exists a s1, c s = (Ret a, s1) /\ k a s1 = (Ret b, s').
Proof.
  unfold bind. destruct (c s) as [[a | e |] s1]; intros H; try discriminate.
  eauto.
Qed.

Lemma for_each_Ret {S A} (xs : list A) (body : A -> Eff S unit) x s s' :
  for_each (x :: xs) body s = (Ret tt, s') ->
  exists s1, body x s = (Ret tt, s1) /\ for_each xs body s1 = (Ret tt, s').
Proof.
  simpl. intros H. apply bind_Ret in H as ([] & s1 & H1 & H2). eauto.
Qed.

Section Properties.

Context {Env Stacker Manager : Type}.
Context `{Sim : !Simulation Env} `{Stk : !ActionStacker Stacker}
        `{Mgr : !CurriculumManager Manager}.

Abbreviation Coordinator := (@VectorizedEnv Env Stacker Manager).
Abbreviation WorkerOf := (@Worker Env Stacker).
Abbreviation RemoteOf := (@Remote Env Stacker).

(** ** Vocabulary of the statements *)

(** What the Coordinator holds for slot [j]. *)
Definition slot_view (j : nat) (s : Coordinator) :=
  (obs_dicts s !! j, episode_rewards s !! j, items (dones s) !! j,
   items (episode_counts s) !! j, curriculum_configs s !! j,
   episode_successes s !! j, episode_timeouts s !! j,
   (r ← remotes s; r !! j), (e ← envs s; e !! j)).

Definition same_slot (j : nat) : relation Coordinator :=
  fun s s' => slot_view j s' = slot_view j s.

Definition has_required (c : option Config) : Prop :=
  match c with
  | Some c => is_Some (c !! "required_agents")
  | None => True
  end.

(** Every configuration the Coordinator stores has the key. *)
Definition configs_ok (s : Coordinator) : Prop :=
  Forall has_required (curriculum_configs s).

(** The invariant of a Coordinator that did not choose thread mode. *)
Definition process_ok (s : Coordinator) : Prop :=
  mode s <> Some thread /\ configs_ok s.

Definition keeps_ok : relation Coordinator :=
  fun s s' => process_ok s -> process_ok s'.

(** The Coordinator after construction and a sequence of [step] calls,
    whatever their outcomes. *)
Fixpoint run_steps (calls : list (list (PyDict Action))) (s : Coordinator)
    : Coordinator :=
  match calls with
  | [] => s
  | acts :: rest => run_steps rest (snd (step acts s))
  end.




Definition same_view {T} (V : Coordinator -> T) : relation Coordinator :=
  fun s s' => V s' = V s.


Definition remote_at (j : nat) (s : Coordinator) : option RemoteOf :=
  rs ← remotes s; rs !! j.




(** The simulation and its factory never raise. *)
Definition sim_never_raises : Prop :=
  (forall e, exists obs e', env_reset e = (SimOk obs, e'))
  /\ (forall a e, exists out e', env_step a e = (SimOk out, e'))
  /\ (forall e, exists e', env_close e = (SimOk tt, e'))
  /\ (forall r c, exists e, get_env r c = SimOk e).

(** Every configuration the manager hands out can be made picklable. *)
Definition manager_configs_picklable : Prop :=
  forall m : Manager,
    exists p, _make_config_picklable (fst (get_environment_config m)) = Ret p.

(** The kind of answer each command gets. *)
Definition answers (cmd : Command) (m : Message) : Prop :=
  match cmd, m with
  | CmdStep _, MsgStep _ => True
  | CmdReset, MsgObs _ => True
  | CmdSetCurriculum _, MsgTrue => True
  | CmdResetActionStacker _, MsgTrue => True
  | _, _ => False
  end.

(** A worker in its loop with nothing unread, and one with [ms] unread. *)
Definition worker_with (ms : list Message) (w : WorkerOf) : Prop :=
  w_running w = true /\ w_channel_open w = true /\ w_outbox w = ms.

Definition remote_with (ms : list Message) (r : RemoteOf) : Prop :=
  handle_open r = true /\ exists w, peer r = Some w /\ worker_with ms w.

(** [c] returns from every state in [P], and [Q] holds of what it returns. *)
Definition total {A} (P : Coordinator -> Prop) (c : Eff Coordinator A)
    (Q : A -> Coordinator -> Prop) : Prop :=
  forall s, P s -> exists a s', c s = (Ret a, s') /\ Q a s'.

(** The invariant while slot [i] of [n] is handled: every per-slot list
    has [n] items, the manager is present or not as [b] says, and what
    channel [i] has unread is [ms]. *)
Definition slot_inv (n i : nat) (b : bool) (ms : list Message)
    (s : Coordinator) : Prop :=
  i < n
  /\ length (episode_rewards s) = n /\ length (episode_successes s) = n
  /\ length (episode_timeouts s) = n /\ length (curriculum_configs s) = n
  /\ length (obs_dicts s) = n /\ length (items (dones s)) = n
  /\ length (items (episode_counts s)) = n
  /\ is_not_None (curriculum_manager s) = b
  /\ exists r, remote_at i s = Some r /\ remote_with ms r.

(** The per-slot lists all have [n] items and the manager is present or
    not as [b] says. *)
Definition pool_ok (n : nat) (b : bool) (s : Coordinator) : Prop :=
  length (episode_rewards s) = n /\ length (episode_successes s) = n
  /\ length (episode_timeouts s) = n /\ length (curriculum_configs s) = n
  /\ length (obs_dicts s) = n /\ length (items (dones s)) = n
  /\ length (items (episode_counts s)) = n
  /\ is_not_None (curriculum_manager s) = b.

(** [sum(acc.values()) / len(acc)] when [acc] is not empty, else [0.0]. *)
Definition mean_reward (acc : PyDict Q) : Q :=
  if Nat.ltb 0 (dict_len acc)
  then (py_sum (dict_values acc) / inject_Z (Z.of_nat (dict_len acc)))%Q
  else 0%Q.

(** The bookkeeping the report is made from. *)
Definition books (s : Coordinator) :=
  (reported s, episode_rewards s, episode_successes s, episode_timeouts s).

Definition has_manager (s : Coordinator) : bool :=
  is_not_None (curriculum_manager s).



(** The accumulator after the steps of one episode, which starts empty
    (at construction, and after every episode end). *)
Definition episode_accumulator (steps : list (PyDict Q)) : PyDict Q :=
  fold_left track_rewards steps [].


(** Without a Curriculum Manager none appears, nothing is reported and the
    stored configurations stay as they are. *)
Definition unmanaged : relation Coordinator :=
  fun s s' =>
    curriculum_manager s = None ->
    curriculum_manager s' = None /\ reported s' = reported s
    /\ curriculum_configs s' = curriculum_configs s.

(** What [join] or [terminate] leaves of a channel's far end. *)
Definition halt (r : RemoteOf) : RemoteOf :=
  r_set_peer
    (option_map (fun w => w_set_channel_open false (w_set_running false w))
       (peer r)) r.

Definition halted (r r' : RemoteOf) : Prop := r' = r \/ r' = halt r.

(** No worker is in its loop behind the channel. *)
Definition idle (r : RemoteOf) : Prop :=
  forall w, peer r = Some w -> w_running w = false.

(** The operation returns, or raises what the handler catches. *)
Definition caught {A} (catches : exn -> bool) (o : outcome A) : Prop :=
  match o with
  | Ret _ => True
  | Raise e => catches e = true
  | Block => False
  end.

(** The number of entries of every per-slot list. *)
Definition shape (s : Coordinator) :=
  (length (episode_rewards s), length (episode_successes s),
   length (episode_timeouts s), length (curriculum_configs s),
   length (obs_dicts s), length (items (dones s)),
   length (items (episode_counts s)), length <$> envs s, length <$> remotes s).

(** Closing the simulations in slot order, up to and including the first
    one whose [close] raises: the message of that error, if any, and the
    simulations afterwards. *)
Fixpoint close_in_order (es : list Env) : option string * list Env :=
  match es with
  | [] => (None, [])
  | e :: rest =>
      match env_close e with
      | (SimOk _, e') => (fst (close_in_order rest), e' :: snd (close_in_order rest))
      | (SimError msg, e') => (Some msg, e' :: rest)
      end
  end.

(** The done flags and the episode counts. *)
Definition tallies (s : Coordinator) : list bool * list Z :=
  (items (dones s), items (episode_counts s)).

(** What the Coordinator keeps for slot [j], channels and simulation
    objects apart. *)
Definition slot_books (j : nat) (s : Coordinator) :=
  (obs_dicts s !! j, episode_rewards s !! j, items (dones s) !! j,
   items (episode_counts s) !! j, curriculum_configs s !! j,
   episode_successes s !! j, episode_timeouts s !! j).

(** [any(terminated.values()) or any(truncated.values())] of a step result. *)
Definition episode_over (out : StepOut) : bool :=
  py_any (dict_values (snd (fst out))) || py_any (dict_values (snd out)).

(** The bookkeeping of slot [i] after a step that produced [out]: [t] is
    the Coordinator before the call, [t'] the one after it. *)
Definition slot_settled (i : nat) (t : Coordinator) (out : StepOut)
    (t' : Coordinator) : Prop :=
  items (dones t') !! i = Some (episode_over out)
  /\ items (episode_counts t') !! i
     = (fun n => if episode_over out then (n + 1)%Z else n)
         <$> items (episode_counts t) !! i
  /\ (if episode_over out
      then episode_rewards t' !! i = Some []
           /\ episode_successes t' !! i = Some false
           /\ episode_timeouts t' !! i = Some false
      else obs_dicts t' !! i = Some (fst (fst (fst out)))).

(** Everything [force_env_reset] leaves alone. *)
Definition untouched_by_reset (s : Coordinator) :=
  (items (dones s), items (episode_counts s), episode_rewards s,
   episode_successes s, episode_timeouts s, curriculum_configs s,
   reported s, curriculum_manager s, action_stacker s, executor s, mode s,
   remotes s, stdout s).

(** The fields that the configuration loop of [__init__] leaves alone. *)
Definition beside_configs (s : Coordinator) :=
  (num_envs s, render s, action_stacker s, episode_rewards s,
   episode_successes s, episode_timeouts s, mode s, envs s, executor s,
   remotes s, processes s, obs_dicts s, dones s, episode_counts s,
   next_oid s, reported s, stdout s).

(** The channel to a worker started for slot [idx] of a new pool. *)
Definition fresh_remote (st : option Stacker) (configs : list (option Config))
    (delays : list Z) (idx : nat) : RemoteOf :=
  {| handle_open := true;
     peer := worker_start false st (mjoin (configs !! idx));
     reply_delay := default 0%Z (delays !! idx);
     sent := [] |}.

(** A process-mode pool of [n] slots between two calls: every per-slot
    list has [n] entries, and behind every channel a worker is in its
    loop with nothing unread. *)
Definition ready (n : nat) (b : bool) (s : Coordinator) : Prop :=
  mode s = Some multiprocess /\ pool_ok n b s
  /\ exists rs, remotes s = Some rs /\ length rs = n
                /\ forall j r, rs !! j = Some r -> remote_with [] r.

(** The fields that the simulation objects of thread mode are not part of. *)
Definition beside_envs (s : Coordinator) :=
  (num_envs s, render s, action_stacker s, curriculum_manager s,
   episode_rewards s, episode_successes s, episode_timeouts s,
   curriculum_configs s, mode s, executor s, remotes s, processes s,
   obs_dicts s, dones s, episode_counts s, next_oid s, reported s, stdout s).


#[local] Instance same_slot_preorder j : PreOrder (same_slot j).
Proof.
  split.
  - intros s. reflexivity.
  - intros s1 s2 s3 H12 H23. unfold same_slot in *. congruence.
Qed.

(** ** Slot isolation *)

Section Isolation.

Variable j : nat.

Lemma same_slot_store {A} (f : Coordinator -> list A) set i v :
  (forall l s, l !! j = f s !! j -> same_slot j s (set l s)) ->
  i <> j -> preserves (same_slot j) (store f set i v).
Proof.
  intros Hset Hij s. unfold store, py_setitem.
  case_decide; simpl; [ | reflexivity].
  apply Hset. apply list_lookup_insert_ne. exact Hij.
Qed.

Lemma same_slot_load {A} (f : Coordinator -> list A) i :
  preserves (same_slot j) (load f i).
Proof. intros s. reflexivity. Qed.

Lemma same_slot_getattr {A} name (f : Coordinator -> option A) :
  preserves (same_slot j) (getattr name f).
Proof. intros s. unfold getattr. destruct (f s); reflexivity. Qed.

Ltac by_fields :=
  intros; unfold same_slot, slot_view;
  repeat match goal with s : VectorizedEnv |- _ => destruct s end;
  simpl in *; subst; simpl; congruence.

Lemma same_slot_obs_dicts l s :
  l !! j = obs_dicts s !! j -> same_slot j s (set_obs_dicts l s).
Proof. by_fields. Qed.
Lemma same_slot_episode_rewards l s :
  l !! j = episode_rewards s !! j -> same_slot j s (set_episode_rewards l s).
Proof. by_fields. Qed.
Lemma same_slot_episode_successes l s :
  l !! j = episode_successes s !! j -> same_slot j s (set_episode_successes l s).
Proof. by_fields. Qed.
Lemma same_slot_episode_timeouts l s :
  l !! j = episode_timeouts s !! j -> same_slot j s (set_episode_timeouts l s).
Proof. by_fields. Qed.
Lemma same_slot_curriculum_configs l s :
  l !! j = curriculum_configs s !! j -> same_slot j s (set_curriculum_configs l s).
Proof. by_fields. Qed.
Lemma same_slot_dones l s :
  l !! j = items (dones s) !! j -> same_slot j s (set_dones_items l s).
Proof. by_fields. Qed.
Lemma same_slot_episode_counts l s :
  l !! j = items (episode_counts s) !! j -> same_slot j s (set_episode_counts_items l s).
Proof. by_fields. Qed.
Lemma same_slot_stdout v s : same_slot j s (set_stdout v s).
Proof. by_fields. Qed.
Lemma same_slot_action_stacker v s : same_slot j s (set_action_stacker v s).
Proof. by_fields. Qed.
Lemma same_slot_manager v w s :
  same_slot j s (set_reported w (set_curriculum_manager v s)).
Proof. by_fields. Qed.
Lemma same_slot_manager' v s : same_slot j s (set_curriculum_manager v s).
Proof. by_fields. Qed.
Lemma same_slot_next_oid v s : same_slot j s (set_next_oid v s).
Proof. by_fields. Qed.
Lemma same_slot_remotes rs s :
  remotes s = Some rs ->
  forall rs', rs' !! j = rs !! j -> same_slot j s (set_remotes (Some rs') s).
Proof. by_fields. Qed.
Lemma same_slot_envs es s :
  envs s = Some es ->
  forall es', es' !! j = es !! j -> same_slot j s (set_envs (Some es') s).
Proof. by_fields. Qed.


Ltac frame :=
  repeat match goal with
    | |- preserves _ (bind _ _) => apply preserves_bind; [ apply _ | | intros ]
    | |- preserves _ (try_except _ _ _) => apply preserves_try; [ apply _ | | intros ]
    | |- preserves _ (for_each _ _) => apply preserves_for_each; [ apply _ | intros ]
    | |- preserves _ (ret _) => apply preserves_ret; apply _
    | |- preserves _ (raise _) => apply preserves_raise; apply _
    | |- preserves _ (lift _) => apply preserves_lift; apply _
    | |- preserves _ get => apply preserves_get; apply _
    | |- preserves _ (load _ _) => apply same_slot_load
    | |- preserves _ (getattr _ _) => apply same_slot_getattr
    | |- preserves _ (if ?b then _ else _) => destruct b
    | |- preserves _ (match ?x with _ => _ end) => destruct x
    | |- preserves _ (store _ _ _ _) =>
        apply same_slot_store;
        [ let H := fresh in
          intros ? ? H;
          first [ apply same_slot_obs_dicts | apply same_slot_episode_rewards
                | apply same_slot_episode_successes
                | apply same_slot_episode_timeouts
                | apply same_slot_curriculum_configs | apply same_slot_dones
                | apply same_slot_episode_counts ];
          exact H
        | assumption ]
    end.

Lemma same_slot_print line : preserves (same_slot j) (print line).
Proof. apply preserves_modify. intros s. apply same_slot_stdout. Qed.

Lemma same_slot_load_done i : preserves (same_slot j) (load_done i).
Proof. apply same_slot_load. Qed.

Lemma same_slot_store_done i v : i <> j -> preserves (same_slot j) (store_done i v).
Proof. intros. apply same_slot_store; auto using same_slot_dones. Qed.

Lemma same_slot_incr i : i <> j -> preserves (same_slot j) (incr_episode_count i).
Proof. intros. unfold incr_episode_count. frame. Qed.

Lemma same_slot_store_env i e : i <> j -> preserves (same_slot j) (store_env i e).
Proof.
  intros Hij s. unfold store_env, getattr, bind, lift, py_setitem, modify.
  destruct (envs s) as [es | ] eqn:E; simpl; [ | reflexivity].
  case_decide; simpl; [ | reflexivity].
  eapply same_slot_envs; [exact E | ].
  apply list_lookup_insert_ne. exact Hij.
Qed.

Lemma same_slot_load_env i : preserves (same_slot j) (load_env i).
Proof. unfold load_env. frame. Qed.

Lemma same_slot_env_call {A} i (op : Env -> sim_result A * Env) :
  i <> j -> preserves (same_slot j) (env_call i op).
Proof.
  intros. unfold env_call. frame; auto using same_slot_load_env, same_slot_store_env.
Qed.

Lemma same_slot_env_update i f : i <> j -> preserves (same_slot j) (env_update i f).
Proof.
  intros. unfold env_update. frame; auto using same_slot_load_env, same_slot_store_env.
Qed.

Lemma same_slot_remote_op {A} i (op : Remote -> outcome A * Remote) :
  i <> j -> preserves (same_slot j) (remote_op i op).
Proof.
  intros Hij s. unfold remote_op, getattr, bind, lift, modify.
  destruct (remotes s) as [rs | ] eqn:E; simpl; [ | reflexivity].
  destruct (py_getitem rs i) as [r | e | ]; simpl; try reflexivity.
  assert (same_slot j s (set_remotes (Some (<[i:=(op r).2]> rs)) s)) as H.
  { eapply same_slot_remotes; [exact E | ].
    apply list_lookup_insert_ne. exact Hij. }
  destruct (op r).1; simpl; exact H.
Qed.

Lemma same_slot_update_stats m :
  preserves (same_slot j) (mgr_update_progression_stats m).
Proof. apply preserves_modify. intros s. apply same_slot_manager. Qed.

Lemma same_slot_get_config : preserves (same_slot j) mgr_get_environment_config.
Proof.
  intros s. unfold mgr_get_environment_config.
  destruct (curriculum_manager s); simpl; [ | reflexivity].
  apply same_slot_manager'.
Qed.

Lemma same_slot_set_stacker (f : Coordinator -> option Stacker) :
  preserves (same_slot j) (modify (fun s => set_action_stacker (f s) s)).
Proof. apply preserves_modify. intros s. apply same_slot_action_stacker. Qed.

Lemma same_slot_copy_list {A} (f : Coordinator -> PyList A) :
  preserves (same_slot j) (copy_list f).
Proof. intros s. apply same_slot_next_oid. Qed.

#[local] Hint Resolve same_slot_print same_slot_load_done same_slot_store_done
  same_slot_incr same_slot_store_env same_slot_load_env same_slot_env_call
  same_slot_env_update same_slot_remote_op same_slot_update_stats
  same_slot_get_config same_slot_set_stacker same_slot_copy_list : core.

Ltac frames := frame; eauto.

Lemma same_slot__step_env i actions_dict :
  i <> j -> preserves (same_slot j) (_step_env i actions_dict).
Proof.
  intros. unfold _step_env. frames.
  all: apply preserves_modify; [apply _ | intros s0; apply same_slot_action_stacker].
Qed.

Lemma same_slot_thread_reset_loop i required attempts :
  i <> j -> preserves (same_slot j) (thread_reset_loop i required attempts).
Proof.
  intros Hij. induction attempts as [ | attempt rest IH]; simpl; frames.
  unfold coord_get_env. frames.
Qed.

Lemma same_slot_thread_result i (local_i : option nat) out :
  i <> j -> preserves (same_slot j) (thread_result local_i (i, out)).
Proof.
  intros Hij. unfold thread_result, read_local.
  destruct out as [[[next_obs_dict reward_dict] terminated_dict] truncated_dict].
  frames; try (unfold coord_get_env; frames);
    auto using same_slot_thread_reset_loop.
Qed.

Lemma same_slot_process_reset_loop i required attempts :
  i <> j -> preserves (same_slot j) (process_reset_loop i required attempts).
Proof.
  intros Hij. induction attempts as [ | attempt rest IH]; simpl; frames.
  all: unfold remote_send, remote_recv, expect_obs; frames.
Qed.

Lemma same_slot_process_result i :
  i <> j -> preserves (same_slot j) (process_result i).
Proof.
  intros Hij. unfold process_result, remote_send, remote_recv, expect_step.
  frames; auto using same_slot_process_reset_loop.
Qed.

End Isolation.


(** ** Stored configurations carry [required_agents] *)


#[local] Instance keeps_ok_preorder : PreOrder keeps_ok.
Proof.
  split.
  - intros s H. exact H.
  - intros s1 s2 s3 H12 H23 H. auto.
Qed.

Lemma make_config_picklable_Ret config processed :
  _make_config_picklable config = Ret processed ->
  (forall k v, config !! k = Some v -> processed !! k = Some v)
  /\ is_Some (processed !! "required_agents")
  /\ (forall k, k <> "required_agents" -> processed !! k = config !! k).
Proof.
  unfold _make_config_picklable, state_mutator_mutators.
  destruct (config !! "required_agents") as [v | ] eqn:Hreq.
  - intros [= <-]. repeat split; eauto.
  - assert (forall w : Value,
              (forall k v, config !! k = Some v ->
                 <["required_agents" := w]> config !! k = Some v)
              /\ is_Some (<["required_agents" := w]> config !! "required_agents")
              /\ (forall k, k <> "required_agents" ->
                    <["required_agents" := w]> config !! k = config !! k)) as Hins.
    { intros w. repeat split.
      - intros k v Hk. destruct (decide (k = "required_agents")) as [-> | Hne].
        + congruence.
        + rewrite lookup_insert_ne; auto.
      - rewrite lookup_insert_eq. eauto.
      - intros k Hne. rewrite lookup_insert_ne; auto. }
    destruct (config !! "state_mutator") as [[ | | [ms | ] | ] | ]; try discriminate.
    destruct (List.filter is_team_size ms) as [ | [b o | ] ?]; intros [= <-];
      apply Hins.
Qed.

Section ConfigInvariant.

























End ConfigInvariant.




(** ** [force_env_reset] outside thread mode *)

(** C9.  In process mode [force_env_reset] returns normally and leaves
    the whole Coordinator as it was: no command reaches a worker and no
    attribute changes. *)
Theorem force_env_reset_process_mode (env_idx : nat) (s : Coordinator) :
  mode s = Some multiprocess ->
  force_env_reset env_idx s = (Ret tt, s).
Proof.
  intros Hmode. unfold force_env_reset, bind, getattr. rewrite Hmode.
  reflexivity.
Qed.

(** ** The worker's [reset] command *)



(** C5.  For slots [i <> j], nothing that is done for slot [i] changes
    what the Coordinator holds for slot [j] (its retained observations,
    accumulated episode rewards and done flag, and also its episode
    count, flags, configuration, channel and simulation object): neither
    the stepping of slot [i]'s simulation in thread mode ([_step_env])
    or in process mode (the [step] command), nor the handling of slot
    [i]'s result in either mode, and this whether the call returns or
    raises. *)
Theorem slot_isolation (i j : nat) :
  i <> j ->
  (forall actions_dict (s : Coordinator),
     slot_view j (snd (_step_env i actions_dict s)) = slot_view j s)
  /\ (forall cmd (s : Coordinator),
        slot_view j (snd (remote_send i cmd s)) = slot_view j s)
  /\ (forall local_i out (s : Coordinator),
        slot_view j (snd (thread_result local_i (i, out) s)) = slot_view j s)
  /\ (forall s : Coordinator,
        slot_view j (snd (process_result i s)) = slot_view j s).
Proof.
  intros Hij. repeat split; intros.
  - apply (same_slot__step_env j i actions_dict Hij s).
  - apply (same_slot_remote_op j i (conn_send cmd) Hij s).
  - apply (same_slot_thread_result j i local_i out Hij s).
  - apply (same_slot_process_result j i Hij s).
Qed.


(** ** The reset attempts of process mode *)






Lemma remote_op_run {A} i (op : Remote -> outcome A * Remote) (s : Coordinator) rs r :
  remotes s = Some rs -> rs !! i = Some r ->
  remote_op i op s = (fst (op r), set_remotes (Some (<[i := snd (op r)]> rs)) s).
Proof.
  intros Hrs Hr. unfold remote_op, bind, getattr, lift, py_getitem, modify.
  rewrite Hrs. simpl. rewrite Hr. simpl.
  destruct (op r).1; reflexivity.
Qed.

Lemma remotes_set_remotes x (s : Coordinator) : remotes (set_remotes x s) = x.
Proof. destruct s; reflexivity. Qed.


Lemma bind_run {S A B} (c : Eff S A) (k : A -> Eff S B) s o s1 :
  c s = (o, s1) ->
  bind c k s = match o with
               | Ret a => k a s1
               | Raise e => (Raise e, s1)
               | Block => (Block, s1)
               end.
Proof. intros H. unfold bind. rewrite H. reflexivity. Qed.




(** ** Parts of the Coordinator a computation leaves alone *)


#[local] Instance same_view_preorder {T} (V : Coordinator -> T) :
  PreOrder (same_view V).
Proof.
  split.
  - intros s. reflexivity.
  - intros s1 s2 s3 H12 H23. unfold same_view in *. congruence.
Qed.

Section Views.

Context {T : Type} (V : Coordinator -> T).

Lemma view_store {A} (f : Coordinator -> list A) set i v :
  (forall l s, V (set l s) = V s) -> preserves (same_view V) (store f set i v).
Proof.
  intros Hset s. unfold store. destruct (py_setitem (f s) i v); simpl;
    try reflexivity.
  apply Hset.
Qed.

Lemma view_modify (f : Coordinator -> Coordinator) :
  (forall s, V (f s) = V s) -> preserves (same_view V) (modify f).
Proof. intros H s. apply H. Qed.

Lemma view_getattr {A} name (f : Coordinator -> option A) :
  preserves (same_view V) (getattr name f).
Proof. intros s. unfold getattr. destruct (f s); reflexivity. Qed.

Lemma view_remote_op {A} i (op : RemoteOf -> outcome A * RemoteOf) :
  (forall x s, V (set_remotes x s) = V s) ->
  preserves (same_view V) (remote_op i op).
Proof.
  intros HV s. unfold remote_op, getattr, bind, lift, modify.
  destruct (remotes s) as [rs | ]; simpl; [ | reflexivity].
  destruct (py_getitem rs i) as [r | e | ]; simpl; try reflexivity.
  destruct (op r).1; simpl; apply HV.
Qed.

Lemma view_get_config :
  (forall x s, V (set_curriculum_manager x s) = V s) ->
  preserves (same_view V) mgr_get_environment_config.
Proof.
  intros HV s. unfold mgr_get_environment_config.
  destruct (curriculum_manager s); simpl; [ | reflexivity].
  apply HV.
Qed.

End Views.

Ltac vfields :=
  intros; repeat match goal with s : VectorizedEnv |- _ => destruct s end;
  reflexivity.

Ltac vframe :=
  repeat match goal with
    | |- preserves _ (bind _ _) => apply preserves_bind; [ apply _ | | intros ]
    | |- preserves _ (try_except _ _ _) => apply preserves_try; [ apply _ | | intros ]
    | |- preserves _ (for_each _ _) => apply preserves_for_each; [ apply _ | intros ]
    | |- preserves _ (ret _) => apply preserves_ret; apply _
    | |- preserves _ (raise _) => apply preserves_raise; apply _
    | |- preserves _ (lift _) => apply preserves_lift; apply _
    | |- preserves _ get => apply preserves_get; apply _
    | |- preserves _ (load _ _) => intros ?; reflexivity
    | |- preserves _ (load_done _) => intros ?; reflexivity
    | |- preserves _ (expect_obs ?m) => destruct m; simpl
    | |- preserves _ (expect_step ?m) => destruct m; simpl
    | |- preserves _ (getattr _ _) => apply view_getattr
    | |- preserves _ (remote_send _ _) => apply view_remote_op; vfields
    | |- preserves _ (remote_recv _) => apply view_remote_op; vfields
    | |- preserves _ (remote_op _ _) => apply view_remote_op; vfields
    | |- preserves _ (print _) => apply view_modify; vfields
    | |- preserves _ (mgr_update_progression_stats _) => apply view_modify; vfields
    | |- preserves _ mgr_get_environment_config => apply view_get_config; vfields
    | |- preserves _ (if ?b then _ else _) => destruct b
    | |- preserves _ (match ?x with _ => _ end) => destruct x
    | |- preserves _ (store _ _ _ _) => apply view_store; vfields
    | |- preserves _ (store_done _ _) => apply view_store; vfields
    | |- preserves _ (incr_episode_count _) => unfold incr_episode_count
    | |- preserves _ (modify _) => apply view_modify; vfields
    end.







(** ** What [step] returns in process mode *)


Lemma slot_view_remote_at j (s s' : Coordinator) :
  slot_view j s' = slot_view j s -> remote_at j s' = remote_at j s.
Proof. unfold slot_view, remote_at. intros H. congruence. Qed.











(** ** [step] returns when no simulation call raises *)


Lemma worker_handle_answers cmd (w : WorkerOf) :
  sim_never_raises -> cmd <> CmdClose -> worker_with [] w ->
  exists m, answers cmd m /\ worker_with [m] (worker_handle cmd w).
Proof.
  intros (Hreset & Hstep & Hclose & Hget) Hcmd (Hrun & Hch & Hout).
  destruct w as [e rd st cfg ru ch ob pr b]. simpl in *. subst.
  unfold worker_with, worker_handle.
  destruct cmd as [a | | data | | agent]; try congruence; cbn [worker_command].
  - unfold bind, get, modify, w_sim, w_send, ret. simpl.
    destruct (Hstep (format_actions a st).1 e) as (out & e' & ->). simpl.
    exists (MsgStep out). simpl. auto.
  - unfold worker_reset_loop, seq, bind, try_except, w_sim, modify, w_send, ret.
    simpl. destruct (Hreset e) as (obs & e' & ->). simpl.
    exists (MsgObs obs). simpl. auto.
  - unfold bind, get, modify, w_sim, w_env_fn, w_send, ret. simpl.
    destruct rd as [rd | ]; simpl.
    + destruct (Hclose (env_set_renderer None e)) as (e' & ->). simpl.
      destruct (Hget (Some rd) (Some data)) as (e2 & ->). simpl.
      exists MsgTrue. simpl. auto.
    + destruct (Hclose e) as (e' & ->). simpl.
      destruct (Hget None (Some data)) as (e2 & ->). simpl.
      exists MsgTrue. simpl. auto.
  - unfold bind, modify, w_send, ret. simpl.
    exists MsgTrue. simpl. auto.
Qed.

Lemma conn_send_answers cmd (r : RemoteOf) :
  sim_never_raises -> cmd <> CmdClose -> remote_with [] r ->
  fst (conn_send cmd r) = Ret tt
  /\ exists m, answers cmd m /\ remote_with [m] (snd (conn_send cmd r)).
Proof.
  intros Hsim Hcmd (Ho & w & Hp & Hw).
  destruct (worker_handle_answers cmd w Hsim Hcmd Hw) as (m & Hm & Hw').
  unfold conn_send. rewrite Ho, Hp. simpl.
  destruct Hw as (-> & _). simpl. split; [reflexivity | ].
  exists m. split; [exact Hm | ].
  unfold remote_with. destruct r; simpl in *. eauto.
Qed.

Lemma conn_recv_answer m (r : RemoteOf) :
  remote_with [m] r ->
  fst (conn_recv r) = Ret m /\ remote_with [] (snd (conn_recv r)).
Proof.
  intros (Ho & w & Hp & Hrun & Hch & Hout).
  unfold conn_recv. rewrite Ho, Hp, Hout. simpl. split; [reflexivity | ].
  unfold remote_with, worker_with. destruct r; simpl in *.
  split; [exact Ho | ]. eexists. split; [reflexivity | ].
  destruct w; simpl in *. auto.
Qed.


Lemma total_ret {A} (P : Coordinator -> Prop) (a : A) (Q : A -> Coordinator -> Prop) :
  (forall s, P s -> Q a s) -> total P (ret a) Q.
Proof. intros H s Hs. exists a, s. split; [reflexivity | auto]. Qed.

Lemma total_bind {A B} (P : Coordinator -> Prop) (c : Eff Coordinator A)
    (Q1 : A -> Coordinator -> Prop) (k : A -> Eff Coordinator B) Q :
  total P c Q1 -> (forall a, total (Q1 a) (k a) Q) -> total P (bind c k) Q.
Proof.
  intros Hc Hk s Hs. destruct (Hc s Hs) as (a & s1 & Hrun & H1).
  destruct (Hk a s1 H1) as (b & s2 & Hrun2 & H2).
  exists b, s2. split; [ | exact H2]. unfold bind. rewrite Hrun. exact Hrun2.
Qed.

Lemma total_weaken {A} (P P' : Coordinator -> Prop) (c : Eff Coordinator A)
    (Q Q' : A -> Coordinator -> Prop) :
  total P' c Q' -> (forall s, P s -> P' s) -> (forall a s, Q' a s -> Q a s) ->
  total P c Q.
Proof.
  intros Hc HP HQ s Hs. destruct (Hc s (HP s Hs)) as (a & s1 & Hrun & H1).
  eauto.
Qed.

Lemma total_for_each {A} (I : Coordinator -> Prop) (xs : list A) body :
  (forall x, total I (body x) (fun _ => I)) ->
  total I (for_each xs body) (fun _ => I).
Proof.
  intros Hb. induction xs as [ | x xs IH]; simpl.
  - apply total_ret. auto.
  - eapply total_bind; [apply Hb | intros ?; exact IH].
Qed.


Ltac inv_fields :=
  unfold slot_inv, remote_at in *;
  repeat match goal with s : VectorizedEnv |- _ => destruct s end;
  simpl in *; rewrite ?length_insert; intuition (try lia).

Section SlotInvariant.

Variables (n i : nat) (b : bool).

Lemma total_load {A} (f : Coordinator -> list A) ms :
  (forall s, slot_inv n i b ms s -> i < length (f s)) ->
  total (slot_inv n i b ms) (load f i) (fun _ => slot_inv n i b ms).
Proof.
  intros Hlen s Hs. unfold load, py_getitem.
  specialize (Hlen s Hs).
  destruct (f s !! i) as [x | ] eqn:Hx; [eauto | ].
  apply lookup_ge_None in Hx. lia.
Qed.

Lemma total_store {A} (f : Coordinator -> list A) set v ms :
  (forall s, slot_inv n i b ms s -> i < length (f s)) ->
  (forall s, slot_inv n i b ms s -> slot_inv n i b ms (set (<[i := v]> (f s)) s)) ->
  total (slot_inv n i b ms) (store f set i v) (fun _ => slot_inv n i b ms).
Proof.
  intros Hlen Hset s Hs. unfold store, py_setitem.
  rewrite decide_True by auto. eauto.
Qed.

Lemma total_modify (f : Coordinator -> Coordinator) ms :
  (forall s, slot_inv n i b ms s -> slot_inv n i b ms (f s)) ->
  total (slot_inv n i b ms) (modify f) (fun _ => slot_inv n i b ms).
Proof. intros H s Hs. exists tt, (f s). split; [reflexivity | auto]. Qed.

Lemma total_get ms :
  total (slot_inv n i b ms) get
    (fun a s => a = s /\ slot_inv n i b ms s).
Proof. intros s Hs. exists s, s. auto. Qed.

Lemma slot_inv_set_remote ms ms' (s : Coordinator) rs r r' :
  slot_inv n i b ms s -> remotes s = Some rs -> rs !! i = Some r ->
  remote_with ms' r' ->
  slot_inv n i b ms' (set_remotes (Some (<[i := r']> rs)) s).
Proof.
  intros Hs Hrs Hr Hr'. unfold slot_inv in *.
  destruct Hs as (H1 & H2 & H3 & H4 & H5 & H6 & H7 & H8 & H9 & _).
  assert (remote_at i (set_remotes (Some (<[i := r']> rs)) s) = Some r') as Hat.
  { unfold remote_at. rewrite remotes_set_remotes. simpl.
    apply list_lookup_insert_eq. eapply lookup_lt_Some; eauto. }
  destruct s; simpl in *. repeat split; auto. eauto.
Qed.

Lemma total_send cmd :
  sim_never_raises -> cmd <> CmdClose ->
  total (slot_inv n i b []) (remote_send i cmd)
    (fun _ s => exists m, answers cmd m /\ slot_inv n i b [m] s).
Proof.
  intros Hsim Hcmd s Hs.
  pose proof Hs as (_ & _ & _ & _ & _ & _ & _ & _ & _ & r & Hat & Hr).
  unfold remote_at in Hat. destruct (remotes s) as [rs | ] eqn:Hrs; [ | discriminate].
  simpl in Hat. unfold remote_send.
  rewrite (remote_op_run i _ s rs r Hrs Hat).
  destruct (conn_send_answers cmd r Hsim Hcmd Hr) as (-> & m & Hm & Hr').
  do 2 eexists. split; [reflexivity | ].
  exists m. split; [exact Hm | ].
  eapply slot_inv_set_remote; eauto.
Qed.

Lemma total_recv m :
  total (slot_inv n i b [m]) (remote_recv i)
    (fun a s => a = m /\ slot_inv n i b [] s).
Proof.
  intros s Hs.
  pose proof Hs as (_ & _ & _ & _ & _ & _ & _ & _ & _ & r & Hat & Hr).
  unfold remote_at in Hat. destruct (remotes s) as [rs | ] eqn:Hrs; [ | discriminate].
  simpl in Hat. unfold remote_recv.
  rewrite (remote_op_run i _ s rs r Hrs Hat).
  destruct (conn_recv_answer m r Hr) as (-> & Hr').
  do 2 eexists. split; [reflexivity | ].
  split; [reflexivity | ].
  eapply slot_inv_set_remote; eauto.
Qed.

(** A command and its answer. *)
Lemma total_round_trip {A} cmd (k : Message -> Eff Coordinator A) Q :
  sim_never_raises -> cmd <> CmdClose ->
  (forall m, answers cmd m -> total (slot_inv n i b []) (k m) Q) ->
  total (slot_inv n i b [])
    (remote_send i cmd ;> let* m := remote_recv i in k m) Q.
Proof.
  intros Hsim Hcmd Hk.
  eapply total_bind; [apply total_send; assumption | ].
  intros ? s (m & Hm & Hs).
  destruct (total_recv m s Hs) as (m' & s1 & Hrun & -> & Hs1).
  destruct (Hk m Hm s1 Hs1) as (x & s2 & Hrun2 & HQ).
  exists x, s2. split; [ | exact HQ].
  unfold bind. rewrite Hrun. exact Hrun2.
Qed.

Lemma total_get_bind {A} (k : Coordinator -> Eff Coordinator A) ms Q :
  (forall s0, is_not_None (curriculum_manager s0) = b ->
              total (slot_inv n i b ms) (k s0) Q) ->
  total (slot_inv n i b ms) (bind get k) Q.
Proof.
  intros Hk s Hs. unfold bind, get. apply Hk; [ | exact Hs].
  unfold slot_inv in Hs. tauto.
Qed.

Lemma total_pre_prop {A} (P0 : Prop) (P : Coordinator -> Prop)
    (c : Eff Coordinator A) Q :
  (P0 -> total P c Q) -> total (fun s => P0 /\ P s) c Q.
Proof. intros H s (H0 & Hs). apply H; assumption. Qed.

End SlotInvariant.

Ltac inv_side :=
  intros;
  unfold slot_inv, remote_at, set_dones_items, set_episode_counts_items in *;
  repeat match goal with s : VectorizedEnv |- _ => destruct s end;
  simpl in *;
  repeat match goal with
         | |- context [option_map _ ?m] => destruct m; simpl in *
         end;
  rewrite ?length_insert; intuition (try lia).

Ltac tot_step :=
  match goal with
    | |- total _ (bind get _) _ => apply total_get_bind; intros
    | |- total _ (bind (remote_send _ _) (fun _ => bind (remote_recv _) _)) _ =>
        apply total_round_trip; [ assumption | discriminate | intros ]
    | |- total ?I (bind _ _) _ =>
        apply (total_bind I _ (fun _ => I)); [ | intros ]
    | |- total _ (ret _) _ => apply total_ret; auto
    | |- total _ (load _ _) _ => apply total_load; inv_side
    | |- total _ (load_done _) _ => apply total_load; inv_side
    | |- total _ (store _ _ _ _) _ => apply total_store; inv_side
    | |- total _ (store_done _ _) _ => apply total_store; inv_side
    | |- total _ (incr_episode_count _) _ => unfold incr_episode_count
    | |- total _ (print _) _ => apply total_modify; inv_side
    | |- total _ (mgr_update_progression_stats _) _ => apply total_modify; inv_side
    | |- total _ (for_each _ _) _ => apply total_for_each; intros
    | |- total _ (if ?c then _ else _) _ => destruct c eqn:?
    | H : answers _ ?m |- total _ (expect_obs ?m) _ =>
        destruct m; simpl in H; try contradiction; cbn [expect_obs]
    | H : answers _ ?m |- total _ (bind (expect_obs ?m) _) _ =>
        destruct m; simpl in H; try contradiction; cbn [expect_obs]
    end.

Ltac tot := repeat tot_step.

Section Progress.

Hypothesis Hsim : sim_never_raises.
Hypothesis Hmgr : manager_configs_picklable.

Lemma total_process_reset_loop n i b required attempts :
  total (slot_inv n i b []) (process_reset_loop i required attempts)
    (fun _ => slot_inv n i b []).
Proof.
  induction attempts as [ | attempt rest IH]; simpl; tot.
  exact IH.
Qed.

Lemma total_new_config {A} n i (k : Config -> Eff Coordinator A) Q :
  (forall p, total (slot_inv n i true []) (k p) Q) ->
  total (slot_inv n i true [])
    (let* new_config := mgr_get_environment_config in
     let* new_config := lift (_make_config_picklable new_config) in
     k new_config) Q.
Proof.
  intros Hk s Hs.
  assert (exists m, curriculum_manager s = Some m) as (m & Hm).
  { destruct Hs as (_ & _ & _ & _ & _ & _ & _ & _ & Hb & _).
    destruct (curriculum_manager s); [eauto | discriminate]. }
  destruct (Hmgr m) as (p & Hp).
  unfold bind at 1, mgr_get_environment_config. rewrite Hm.
  unfold bind at 1, lift. rewrite Hp.
  apply Hk. revert Hs. clear. inv_side.
Qed.

Lemma total_process_result n i b out0 :
  total (slot_inv n i b [MsgStep out0]) (process_result i)
    (fun _ => slot_inv n i b []).
Proof.
  unfold process_result.
  eapply total_bind; [apply total_recv | ].
  intros m. apply total_pre_prop. intros ->. cbn [expect_step].
  destruct out0 as [[[next_obs_dict reward_dict] terminated_dict] truncated_dict].
  apply (total_bind _ _ (fun _ => slot_inv n i b [])); [apply total_ret; auto | ].
  intros out. destruct out as [[[o1 o2] o3] o4].
  destruct b;
    repeat first
      [ match goal with
        | |- total _ (bind mgr_get_environment_config _) _ =>
            apply total_new_config; intros
        | |- total _ (process_reset_loop _ _ _) _ =>
            apply total_process_reset_loop
        end
      | tot_step ];
    congruence.
Qed.


Lemma slot_inv_pool n i b ms (s : Coordinator) :
  slot_inv n i b ms s
  <-> i < n /\ pool_ok n b s
      /\ exists r, remote_at i s = Some r /\ remote_with ms r.
Proof. unfold slot_inv, pool_ok. tauto. Qed.

Lemma total_sends n b acts : forall a (s : Coordinator),
  a + length acts <= n -> pool_ok n b s ->
  (forall j, a <= j < a + length acts ->
     exists r, remote_at j s = Some r /\ remote_with [] r) ->
  exists s2,
    for_each (combine (seq a (length acts)) acts)
      (fun job => remote_send (fst job) (CmdStep (snd job))) s = (Ret tt, s2)
    /\ pool_ok n b s2
    /\ (forall j, a <= j < a + length acts ->
          exists r out, remote_at j s2 = Some r /\ remote_with [MsgStep out] r)
    /\ (forall j, j < a \/ a + length acts <= j -> remote_at j s2 = remote_at j s).
Proof.
  induction acts as [ | act acts IH]; intros a s Hn Hpool Hready.
  - exists s. simpl.
    split; [reflexivity | split; [exact Hpool | split; [ | reflexivity]]].
    intros j Hj. lia.
  - cbn [length seq combine for_each].
    assert (slot_inv n a b [] s) as Hinv.
    { apply slot_inv_pool. simpl in Hn. split; [lia | split; [exact Hpool | ]].
      apply Hready. simpl. lia. }
    assert (CmdStep act <> CmdClose) as Hcmd by discriminate.
    destruct (total_send n a b (CmdStep act) Hsim Hcmd s Hinv)
      as ([] & s1 & Hrun & m & Hm & Hinv1).
    destruct m as [out | | ]; simpl in Hm; try contradiction.
    apply slot_inv_pool in Hinv1 as (_ & Hpool1 & r1 & Hat1 & Hr1).
    assert (forall j, j <> a -> remote_at j s1 = remote_at j s) as Hother.
    { intros j Hj. apply slot_view_remote_at.
      assert (a <> j) as Haj by auto.
      pose proof (same_slot_remote_op j a (conn_send (CmdStep act)) Haj s) as Hf.
      unfold remote_send in Hrun. rewrite Hrun in Hf. exact Hf. }
    destruct (IH (S a) s1) as (s2 & Hrun2 & Hpool2 & Hawait & Hsame).
    { simpl in Hn. lia. }
    { exact Hpool1. }
    { intros j Hj. rewrite Hother by lia. apply Hready. simpl. lia. }
    exists s2. cbn [fst snd]. unfold bind. rewrite Hrun.
    split; [exact Hrun2 | split; [exact Hpool2 | split]].
    + intros j Hj. destruct (decide (j = a)) as [-> | Hne].
      * exists r1, out. rewrite Hsame by lia. auto.
      * apply Hawait. simpl in Hj. lia.
    + intros j Hj. rewrite Hsame by (simpl in Hj; lia).
      apply Hother. simpl in Hj. lia.
Qed.



End Progress.


(** ** What process mode reports to the Curriculum Manager *)


Lemma view_process_reset_loop {T} (V : Coordinator -> T) i required attempts :
  (forall x s, V (set_remotes x s) = V s) ->
  (forall x s, V (set_stdout x s) = V s) ->
  (forall x s, V (set_obs_dicts x s) = V s) ->
  preserves (same_view V) (process_reset_loop i required attempts).
Proof.
  intros H1 H2 H3.
  induction attempts as [ | attempt rest IH]; simpl.
  - apply preserves_ret. apply _.
  - unfold print.
    apply preserves_bind; [apply _ | apply view_remote_op; exact H1 | intros ?].
    apply preserves_bind; [apply _ | apply view_remote_op; exact H1 | intros m].
    apply preserves_bind; [apply _ | | intros obs].
    { destruct m; simpl; first [apply preserves_ret | apply preserves_raise];
        apply _. }
    destruct (len_equals obs required).
    + apply view_store. exact H3.
    + apply preserves_bind;
        [apply _ | apply view_modify; intros; apply H2 | intros ?].
      apply preserves_bind; [apply _ | | intros ?; exact IH].
      match goal with |- context [if ?c then _ else _] => destruct c end.
      * apply view_modify; intros; apply H2.
      * apply preserves_ret. apply _.
Qed.

Lemma store_Ret {A} (f : Coordinator -> list A) set i v (s s1 : Coordinator) :
  store f set i v s = (Ret tt, s1) ->
  i < length (f s) /\ s1 = set (<[i := v]> (f s)) s.
Proof.
  unfold store, py_setitem. case_decide; [ | discriminate].
  intros [= <-]. auto.
Qed.

Lemma load_Ret {A} (f : Coordinator -> list A) i x (s s1 : Coordinator) :
  load f i s = (Ret x, s1) -> s1 = s /\ f s !! i = Some x.
Proof.
  unfold load, py_getitem. destruct (f s !! i); [ | discriminate].
  intros [= <- <-]. auto.
Qed.

Ltac frame_fact V H :=
  match type of H with
  | ?c ?s = (_, ?s1) =>
      let F := fresh "F" in
      assert (preserves (same_view V) c) as F
        by (vframe; apply view_process_reset_loop; vfields);
      specialize (F s); rewrite H in F; unfold same_view in F; simpl in F
  end.

(** X13.  With a Curriculum Manager, the process-mode loop body for one
    slot (lines 471-551) reports, for a done slot, [success] = some
    terminated flag, [timeout] = some truncated flag and no success,
    [episode_reward] = the mean of the slot's accumulator after this
    step's rewards were added (0 when empty), once, and empties the
    accumulator; for a slot that is not done it reports nothing and keeps
    the accumulator. *)
Lemma process_result_reports i (s : Coordinator) out s' acc :
  process_result i s = (Ret out, s') ->
  is_not_None (curriculum_manager s) = true ->
  episode_rewards s !! i = Some acc ->
  let acc' := track_rewards acc (snd (fst (fst out))) in
  let terminated := py_any (dict_values (snd (fst out))) in
  let truncated := py_any (dict_values (snd out)) in
  if terminated || truncated
  then reported s'
       = reported s ++ [{| success := terminated;
                           timeout := truncated && negb terminated;
                           episode_reward := mean_reward acc' |}]
       /\ episode_rewards s' !! i = Some []
  else reported s' = reported s /\ episode_rewards s' !! i = Some acc'.
Proof.
  intros H Hmgr Hacc. unfold process_result in H.
  apply bind_Ret in H as (m & s1 & H1 & H).
  frame_fact books H1. frame_fact has_manager H1.
  apply bind_Ret in H as (out' & sx & Hexp & H).
  destruct m; try discriminate. injection Hexp as -> ->.
  destruct out' as [[[next_obs_dict reward_dict] terminated_dict] truncated_dict].
  apply bind_Ret in H as (snap & sy & Hget & H). injection Hget as <- <-.
  unfold has_manager in *. rewrite F0, Hmgr in H. cbn [fst snd].
  apply bind_Ret in H as ([] & s2 & Htrack & H).
  apply bind_Ret in Htrack as (acc0 & sz & Hl & Hst).
  apply load_Ret in Hl as (-> & Hl). apply store_Ret in Hst as (Hlt & ->).
  apply bind_Ret in H as ([] & s3 & Hdone & H).
  apply store_Ret in Hdone as (Hltd & ->).
  apply bind_Ret in H as (config & sw & Hcfg & H).
  apply load_Ret in Hcfg as (-> & Hcfg).
  apply bind_Ret in H as (done & sv & Hld & H).
  apply load_Ret in Hld as (-> & Hld).
  apply bind_Ret in H as ([] & s4 & Hbody & H). injection H as <-.
  clear H1 F0.
  unfold books in F. destruct sx; simpl in *.
  injection F as -> -> -> ->.
  rewrite Hacc in Hl. injection Hl as <-.
  rewrite list_lookup_insert_eq in Hld by exact Hltd. injection Hld as <-.
  destruct (py_any (dict_values terminated_dict)
            || py_any (dict_values truncated_dict)) eqn:Hd.
  - apply bind_Ret in Hbody as ([] & a1 & Hs1 & Hbody).
    apply store_Ret in Hs1 as (Hlt1 & ->).
    apply bind_Ret in Hbody as (succ & a1' & Hls & Hbody).
    apply load_Ret in Hls as (-> & Hls).
    apply bind_Ret in Hbody as ([] & a2 & Hs2 & Hbody).
    apply store_Ret in Hs2 as (Hlt2 & ->).
    apply bind_Ret in Hbody as ([] & a7 & Hm & Hbody).
    apply bind_Ret in Hm as (acc1 & a2' & Hla & Hm).
    apply load_Ret in Hla as (-> & Hla).
    apply bind_Ret in Hm as (su & a2' & Hlsu & Hm).
    apply load_Ret in Hlsu as (-> & Hlsu).
    apply bind_Ret in Hm as (ti & a2' & Hlti & Hm).
    apply load_Ret in Hlti as (-> & Hlti).
    apply bind_Ret in Hm as ([] & a3 & Hupd & Hm).
    injection Hupd as <-.
    frame_fact books Hm.
    apply bind_Ret in Hbody as ([] & a8 & Hincr & Hbody).
    frame_fact books Hincr.
    apply bind_Ret in Hbody as ([] & a9 & Hloop & Hbody).
    frame_fact books Hloop.
    apply bind_Ret in Hbody as ([] & a10 & Hstk & Hbody).
    frame_fact books Hstk.
    apply bind_Ret in Hbody as ([] & a11 & Hr1 & Hbody).
    apply store_Ret in Hr1 as (Hlt3 & ->).
    apply bind_Ret in Hbody as ([] & a12 & Hr2 & Hbody).
    apply store_Ret in Hr2 as (Hlt4 & ->).
    apply store_Ret in Hbody as (Hlt5 & ->).
    simpl in Hls, Hla, Hlsu, Hlti, Hlt1, Hlt2.
    rewrite list_lookup_insert_eq in Hls by exact Hlt1. injection Hls as <-.
    rewrite list_lookup_insert_eq in Hla by exact Hlt. injection Hla as <-.
    rewrite list_lookup_insert_eq in Hlsu by exact Hlt1. injection Hlsu as <-.
    rewrite list_lookup_insert_eq in Hlti by exact Hlt2. injection Hlti as <-.
    subst s'. unfold books in *.
    destruct a7, a8, a9, a10; simpl in *.
    repeat match goal with
           | F : (_, _, _, _) = (_, _, _, _) |- _ => injection F as -> -> -> ->
           end.
    split; [reflexivity | ].
    apply list_lookup_insert_eq. rewrite length_insert. exact Hlt.
  - apply store_Ret in Hbody as (Hlt1 & ->). subst s'. simpl.
    split; [reflexivity | ].
    apply list_lookup_insert_eq. exact Hlt.
Qed.

(** ** What process mode retains after a reset *)




(** ** Accumulated episode rewards *)

Lemma fold_Qplus_acc (xs : list Q) (a : Q) :
  (fold_left Qplus xs a == a + fold_left Qplus xs 0)%Q.
Proof.
  revert a. induction xs as [ | x xs IH]; intros a; simpl.
  - ring.
  - rewrite (IH (a + x)%Q), (IH (0 + x)%Q). ring.
Qed.

Lemma py_sum_cons (x : Q) (xs : list Q) : (py_sum (x :: xs) == x + py_sum xs)%Q.
Proof. unfold py_sum. simpl. rewrite fold_Qplus_acc. ring. Qed.

Lemma sum_values_nil : (py_sum (dict_values (@nil (AgentId * Q))) == 0)%Q.
Proof. reflexivity. Qed.

Lemma sum_values_cons k (v : Q) (d : PyDict Q) :
  (py_sum (dict_values ((k, v) :: d)) == v + py_sum (dict_values d))%Q.
Proof. unfold dict_values. simpl. apply py_sum_cons. Qed.

Lemma dict_get_set_eq (d : PyDict Q) k v : dict_get (dict_set d k v) k = Some v.
Proof.
  induction d as [ | [k' v'] d IH]; simpl.
  - rewrite String.eqb_refl. reflexivity.
  - destruct (String.eqb k k') eqn:E; simpl; rewrite E; auto.
Qed.

Lemma sum_dict_set_present (d : PyDict Q) k v v' :
  dict_get d k = Some v ->
  (py_sum (dict_values (dict_set d k v')) == py_sum (dict_values d) - v + v')%Q.
Proof.
  induction d as [ | [k' w] d IH]; simpl; [discriminate | ].
  destruct (String.eqb k k') eqn:E.
  - intros [= ->]. unfold dict_values. simpl. rewrite !py_sum_cons. ring.
  - intros H. unfold dict_values in *. simpl. rewrite !py_sum_cons, (IH H). ring.
Qed.

Lemma sum_dict_set_absent (d : PyDict Q) k v' :
  dict_get d k = None ->
  (py_sum (dict_values (dict_set d k v')) == py_sum (dict_values d) + v')%Q.
Proof.
  induction d as [ | [k' w] d IH]; simpl.
  - intros _. unfold dict_values. simpl. rewrite py_sum_cons. ring.
  - destruct (String.eqb k k') eqn:E; [discriminate | ].
    intros H. unfold dict_values in *. simpl. rewrite !py_sum_cons, (IH H). ring.
Qed.

Lemma dict_get_None (d : PyDict Q) k : dict_get d k = None <-> k ∉ dict_keys d.
Proof.
  unfold dict_keys. induction d as [ | [k' w] d IH]; simpl.
  - split; [intros _ H; inversion H | reflexivity].
  - destruct (String.eqb_spec k k') as [-> | Hne].
    + split; [discriminate | ]. intros H. exfalso. apply H. left.
    + rewrite IH. split.
      * intros H Hin. inversion Hin; subst; auto.
      * intros H Hin. apply H. right. exact Hin.
Qed.

Lemma keys_dict_set (d : PyDict Q) k v :
  dict_keys (dict_set d k v)
  = match dict_get d k with
    | Some _ => dict_keys d
    | None => dict_keys d ++ [k]
    end.
Proof.
  unfold dict_keys. induction d as [ | [k' w] d IH]; simpl; [reflexivity | ].
  destruct (String.eqb k k') eqn:E; simpl; [reflexivity | ].
  rewrite IH. destruct (dict_get d k); reflexivity.
Qed.

Lemma sum_add_reward (acc : PyDict Q) k r :
  (py_sum (dict_values (add_reward acc k r)) == py_sum (dict_values acc) + r)%Q.
Proof.
  unfold add_reward. destruct (dict_get acc k) as [v | ] eqn:E.
  - rewrite E. simpl. rewrite (sum_dict_set_present _ _ _ _ E). ring.
  - rewrite dict_get_set_eq. simpl.
    rewrite (sum_dict_set_present _ _ 0%Q) by apply dict_get_set_eq.
    rewrite (sum_dict_set_absent _ _ _ E). ring.
Qed.

Lemma keys_add_reward (acc : PyDict Q) k r :
  dict_keys (add_reward acc k r)
  = match dict_get acc k with
    | Some _ => dict_keys acc
    | None => dict_keys acc ++ [k]
    end.
Proof.
  unfold add_reward. destruct (dict_get acc k) as [v | ] eqn:E.
  - rewrite keys_dict_set, E. reflexivity.
  - rewrite keys_dict_set, dict_get_set_eq, keys_dict_set, E. reflexivity.
Qed.

Lemma track_rewards_spec (rd acc : PyDict Q) :
  (py_sum (dict_values (track_rewards acc rd))
   == py_sum (dict_values acc) + py_sum (dict_values rd))%Q
  /\ (NoDup (dict_keys acc) -> NoDup (dict_keys (track_rewards acc rd)))
  /\ (forall a, a ∈ dict_keys (track_rewards acc rd)
                <-> a ∈ dict_keys acc \/ a ∈ dict_keys rd).
Proof.
  unfold track_rewards. revert acc.
  induction rd as [ | [k r] rd IH]; intros acc; cbn [fold_left fst snd].
  - split; [rewrite sum_values_nil; ring | ].
    split; [auto | ]. intros a. split; [auto | ].
    intros [H | H]; [exact H | inversion H].
  - destruct (IH (add_reward acc k r)) as (Hsum & Hnd & Hmem).
    assert (forall a, a ∈ dict_keys (add_reward acc k r)
                      <-> a ∈ dict_keys acc \/ a = k) as Hk.
    { intros a. rewrite keys_add_reward.
      destruct (dict_get acc k) as [v | ] eqn:E.
      - split; [auto | ]. intros [H | ->]; [exact H | ].
        destruct (decide (k ∈ dict_keys acc)) as [Hin | Hnin]; [exact Hin | ].
        apply dict_get_None in Hnin. congruence.
      - rewrite elem_of_app, list_elem_of_singleton. reflexivity. }
    split; [ | split].
    + rewrite Hsum, sum_add_reward, sum_values_cons. ring.
    + intros Hacc. apply Hnd. rewrite keys_add_reward.
      destruct (dict_get acc k) as [v | ] eqn:E; [exact Hacc | ].
      apply NoDup_app. split; [exact Hacc | split].
      * intros x Hx Hx'. apply list_elem_of_singleton in Hx'. subst x.
        apply dict_get_None in E. auto.
      * apply NoDup_singleton.
    + intros a. rewrite Hmem, Hk.
      change (dict_keys ((k, r) :: rd)) with (k :: dict_keys rd).
      rewrite elem_of_cons. tauto.
Qed.


(** X15.  The reward accumulator after the steps of one episode (lines
    332-335 and 479-482): its values sum to the sum of every agent's
    reward over the steps, its keys are distinct, and they are the agent
    ids seen in some step.  So the reported mean is that sum over the
    number of distinct agent ids seen in the episode. *)
Lemma episode_accumulator_spec (steps : list (PyDict Q)) :
  (py_sum (dict_values (episode_accumulator steps))
   == fold_right (fun rd t => py_sum (dict_values rd) + t) 0 steps)%Q
  /\ NoDup (dict_keys (episode_accumulator steps))
  /\ (forall a, a ∈ dict_keys (episode_accumulator steps)
                <-> exists rd, rd ∈ steps /\ a ∈ dict_keys rd).
Proof.
  unfold episode_accumulator.
  assert (forall acc,
            (py_sum (dict_values (fold_left track_rewards steps acc))
             == py_sum (dict_values acc)
                + fold_right (fun rd t => py_sum (dict_values rd) + t) 0 steps)%Q
            /\ (NoDup (dict_keys acc) ->
                NoDup (dict_keys (fold_left track_rewards steps acc)))
            /\ (forall a, a ∈ dict_keys (fold_left track_rewards steps acc)
                          <-> a ∈ dict_keys acc
                              \/ exists rd, rd ∈ steps /\ a ∈ dict_keys rd)) as H.
  { induction steps as [ | rd steps IH]; intros acc; simpl.
    - split; [ring | split; [auto | ]]. intros a. split; [auto | ].
      intros [H | (rd & Hrd & _)]; [exact H | inversion Hrd].
    - destruct (IH (track_rewards acc rd)) as (Hsum & Hnd & Hmem).
      destruct (track_rewards_spec rd acc) as (Hs1 & Hn1 & Hm1).
      split; [rewrite Hsum, Hs1; ring | split; [auto | ]].
      intros a. rewrite Hmem, Hm1. split.
      + intros [[H | H] | (rd' & Hrd' & H)]; eauto.
        * right. exists rd. split; [left | exact H].
        * right. exists rd'. split; [right; exact Hrd' | exact H].
      + intros [H | (rd' & Hrd' & H)]; [auto | ].
        apply elem_of_cons in Hrd' as [-> | Hrd']; eauto. }
  destruct (H []) as (Hsum & Hnd & Hmem).
  split; [ | split].
  - rewrite Hsum, sum_values_nil. ring.
  - apply Hnd. constructor.
  - intros a. rewrite Hmem. split; [ | auto].
    intros [Ha | Ha]; [inversion Ha | exact Ha].
Qed.

(** ** Skipped slots of thread mode *)




(** ** A second pass of [_make_config_picklable] *)

(** X3.  [_make_config_picklable] is idempotent: a configuration it has
    returned is returned unchanged, without raising, when it is passed
    in again. *)
Theorem make_config_picklable_idempotent (config processed : Config) :
  _make_config_picklable config = Ret processed ->
  _make_config_picklable processed = Ret processed.
Proof.
  intros H. apply make_config_picklable_Ret in H as (_ & [v Hv] & _).
  unfold _make_config_picklable. rewrite Hv. reflexivity.
Qed.

(** ** Formatting of the actions *)

Lemma dict_set_fresh {V} (d : PyDict V) k v :
  k ∉ dict_keys d -> dict_set d k v = d ++ [(k, v)].
Proof.
  induction d as [ | [k' v'] d IH]; simpl; intros Hk; [reflexivity | ].
  apply not_elem_of_cons in Hk as [Hne Hk].
  destruct (String.eqb_spec k k') as [-> | _]; [contradiction | ].
  rewrite IH by exact Hk. reflexivity.
Qed.

Lemma format_actions_acc (actions_dict : PyDict Action) :
  forall (acc : PyDict Action) (stacker : option Stacker),
    NoDup (dict_keys acc ++ dict_keys actions_dict) ->
    fold_left
      (fun acc item =>
         let formatted := format_action (snd item) in
         (dict_set (fst acc) (fst item) formatted,
          option_map (add_action (fst item) formatted) (snd acc)))
      actions_dict (acc, stacker)
    = (acc ++ map (fun item => (fst item, format_action (snd item))) actions_dict,
       option_map
         (fun st =>
            fold_left
              (fun st item => add_action (fst item) (format_action (snd item)) st)
              actions_dict st)
         stacker).
Proof.
  induction actions_dict as [ | [k a] rest IH]; intros acc stacker Hnd; simpl.
  - rewrite app_nil_r. destruct stacker; reflexivity.
  - simpl in Hnd.
    rewrite dict_set_fresh.
    2: { apply NoDup_app in Hnd as (_ & Hd & _). intros Hin.
         apply (Hd k Hin). left. }
    rewrite IH.
    + rewrite <- app_assoc. simpl. destruct stacker; reflexivity.
    + unfold dict_keys in *. rewrite map_app. simpl. rewrite <- app_assoc.
      exact Hnd.
Qed.

(** X2.  Formatting the actions (lines 78-86 and 311-320) keeps the agent
    ids and their order and replaces every action by [format_action] of
    it; the Action Stacker, when there is one, is given the formatted
    actions in that order; formatting a formatted action changes nothing.
    The keys of a dict are distinct. *)
Theorem format_actions_keeps_agents (actions_dict : PyDict Action)
    (stacker : option Stacker) :
  NoDup (dict_keys actions_dict) ->
  fst (format_actions actions_dict stacker)
  = map (fun item => (fst item, format_action (snd item))) actions_dict
  /\ snd (format_actions actions_dict stacker)
     = option_map
         (fun st =>
            fold_left
              (fun st item => add_action (fst item) (format_action (snd item)) st)
              actions_dict st)
         stacker
  /\ (forall a, format_action (format_action a) = format_action a).
Proof.
  intros Hnd. unfold format_actions.
  rewrite format_actions_acc by exact Hnd.
  split; [reflexivity | split; [reflexivity | ]].
  intros [d | n | q]; reflexivity.
Qed.

(** ** One answer per command *)

Lemma worker_handle_cases (cmd : Command) (w : WorkerOf) :
  w_running w = true ->
  (w_running (worker_handle cmd w) = true
   /\ w_channel_open w = true
   /\ w_channel_open (worker_handle cmd w) = true
   /\ exists m, answers cmd m
                /\ w_outbox (worker_handle cmd w) = w_outbox w ++ [m])
  \/ (w_running (worker_handle cmd w) = false
      /\ w_outbox (worker_handle cmd w) = w_outbox w).
Proof.
  intros Hrun.
  destruct w as [e rd st cfg ru ch ob pr b]. simpl in Hrun. subst ru.
  unfold worker_handle.
  destruct cmd as [a | | data | | agent]; cbn [worker_command].
  - unfold bind, get, modify, w_sim, w_send, ret. simpl.
    destruct (env_step _ e) as [[out | msg] e']; simpl.
    + destruct ch; simpl; [left | right; auto].
      repeat split; exists (MsgStep out); auto.
    + right; auto.
  - unfold worker_reset_loop, seq, bind, try_except, w_sim, modify, w_send, ret.
    simpl.
    destruct (env_reset e) as [[obs1 | msg1] e1]; simpl.
    + destruct ch; simpl; [left | right; auto].
      repeat split; exists (MsgObs obs1); auto.
    + destruct (env_reset e1) as [[obs2 | msg2] e2]; simpl.
      * destruct ch; simpl; [left | right; auto].
        repeat split; exists (MsgObs obs2); auto.
      * destruct (env_reset e2) as [[obs3 | msg3] e3]; simpl.
        -- destruct ch; simpl; [left | right; auto].
           repeat split; exists (MsgObs obs3); auto.
        -- right; auto.
  - unfold bind, get, modify, w_sim, w_env_fn, w_send, ret. simpl.
    destruct rd as [rdr | ]; simpl.
    + destruct (env_close _) as [[[] | msg] e']; simpl; [ | right; auto].
      destruct (get_env _ _) as [e2 | msg]; simpl; [ | right; auto].
      destruct ch; simpl; [left | right; auto].
      repeat split; exists MsgTrue; auto.
    + destruct (env_close _) as [[[] | msg] e']; simpl; [ | right; auto].
      destruct (get_env _ _) as [e2 | msg]; simpl; [ | right; auto].
      destruct ch; simpl; [left | right; auto].
      repeat split; exists MsgTrue; auto.
  - unfold bind, modify, w_sim, ret. simpl.
    destruct (env_close e) as [[[] | msg] e']; right; auto.
  - unfold bind, modify, w_send, ret. simpl.
    destruct ch; simpl; [left | right; auto].
    repeat split; exists MsgTrue; auto.
Qed.


(** ** Construction without slots *)


(** ** Surplus action mappings *)

Lemma combine_surplus {A B} (l1 : list A) : forall (l2 l3 : list B),
  length l1 <= length l2 -> combine l1 (l2 ++ l3) = combine l1 l2.
Proof.
  induction l1 as [ | x l1 IH]; intros [ | y l2] l3 Hlen; simpl in *;
    try reflexivity; try lia.
  rewrite IH by lia. reflexivity.
Qed.

(** X9.  Action mappings beyond the number of slots are ignored, in both
    modes: the [zip] of lines 346 and 466 stops at the last slot. *)
Theorem step_ignores_surplus_actions (acts extra : list (PyDict Action))
    (s : Coordinator) :
  (forall es, mode s = Some thread -> envs s = Some es ->
              length es <= length acts -> step (acts ++ extra) s = step acts s)
  /\ (forall rs, mode s = Some multiprocess -> remotes s = Some rs ->
                 length rs <= length acts -> step (acts ++ extra) s = step acts s).
Proof.
  split.
  - intros es Hm He Hlen.
    unfold step, step_thread, bind, getattr. rewrite Hm, He.
      rewrite combine_surplus by (rewrite length_seq; exact Hlen). reflexivity.
  - intros rs Hm Hr Hlen.
    unfold step, step_multiprocess, bind, getattr. rewrite Hm, Hr.
    rewrite combine_surplus by (rewrite length_seq; exact Hlen). reflexivity.
Qed.

(** ** What thread mode returns *)

Lemma thread_result_never_returns result (s : Coordinator) x s' :
  thread_result None result s <> (Ret x, s').
Proof.
  destruct result as [env_idx [[[next_obs_dict reward_dict] terminated_dict]
                                 truncated_dict]].
  unfold thread_result, bind, store_done, store, read_local, raise.
  destruct (py_setitem _ _ _); discriminate.
Qed.

Lemma thread_results_Ret results (s : Coordinator) res s' :
  thread_results None results s = (Ret res, s') ->
  results = [] /\ res = [] /\ s' = s.
Proof.
  destruct results as [ | r rest]; simpl; intros H.
  - injection H as <- <-. auto.
  - apply bind_Ret in H as (entries & s1 & H1 & _).
    exfalso. exact (thread_result_never_returns _ _ _ _ H1).
Qed.

Lemma collect_results_Ret futures : forall (s : Coordinator) results s',
  collect_results futures s = (Ret results, s') ->
  length results = length futures /\ s' = s.
Proof.
  induction futures as [ | f rest IH]; simpl; intros s results s' H.
  - injection H as <- <-. auto.
  - apply bind_Ret in H as (r & s1 & H1 & H).
    apply bind_Ret in H as (rs & s2 & H2 & H).
    injection H as <- <-.
    apply IH in H2 as (Hl & ->).
    unfold lift in H1. injection H1 as _ <-. simpl. auto.
Qed.

Lemma submit_all_Ret_nil jobs : forall (s s' : Coordinator),
  submit_all jobs s = (Ret [], s') ->
  s' = s /\ Forall (fun job => snd job = []) jobs.
Proof.
  induction jobs as [ | [i actions] rest IH]; simpl; intros s s' H.
  - injection H as <-. auto.
  - destruct actions as [ | a actions]; simpl in H.
    + apply IH in H as (-> & HF). auto.
    + apply bind_Ret in H as (future & s1 & _ & H).
      apply bind_Ret in H as (futures & s2 & _ & H).
      discriminate H.
Qed.

Lemma Forall_combine_seq {B} (P : B -> Prop) (l : list B) : forall a n,
  Forall (fun job : nat * B => P (snd job)) (combine (seq a n) l) ->
  forall i x, i < n -> l !! i = Some x -> P x.
Proof.
  induction l as [ | y l IH]; intros a n HF i x Hi Hx; [discriminate | ].
  destruct n as [ | n]; [lia | ]. simpl in HF.
  apply Forall_cons in HF as [Hy HF].
  destruct i as [ | i]; simpl in Hx.
  - injection Hx as <-. exact Hy.
  - apply (IH (S a) n HF i x); [lia | exact Hx].
Qed.

(** X10.  In thread mode [step] returns only when no slot was stepped:
    every slot's action mapping is then empty, the result list is empty,
    and the Coordinator is as before the call (the two copies apart).  As
    soon as one result is processed, line 364 reads the unbound [i]. *)
Theorem step_thread_mode_returns_nothing (acts : list (PyDict Action))
    (s : Coordinator) res d c s' :
  mode s = Some thread ->
  step acts s = (Ret (res, d, c), s') ->
  res = []
  /\ (forall es i a, envs s = Some es -> i < length es ->
                     acts !! i = Some a -> a = [])
  /\ s' = set_next_oid (S (S (next_oid s))) s.
Proof.
  intros Hm H. unfold step in H.
  apply bind_Ret in H as (m & s0 & H0 & H).
  unfold getattr in H0. rewrite Hm in H0. injection H0 as <- <-.
  apply bind_Ret in H as (res0 & s1 & H1 & H).
  apply bind_Ret in H as (d0 & s2 & Hd & H).
  apply bind_Ret in H as (c0 & s3 & Hc & H).
  injection H as -> <- <- <-.
  unfold step_thread in H1.
  apply bind_Ret in H1 as (es & s4 & He & H1).
  unfold getattr in He. destruct (envs s) as [es0 | ] eqn:Hes; [ | discriminate].
  injection He as <- <-.
  apply bind_Ret in H1 as (futures & s5 & Hs & H1).
  apply bind_Ret in H1 as (results & s6 & Hr & H1).
  apply thread_results_Ret in H1 as (-> & -> & ->).
  apply collect_results_Ret in Hr as (Hl & ->).
  destruct futures; [ | discriminate Hl].
  apply submit_all_Ret_nil in Hs as (-> & HF).
  split; [reflexivity | ]. split.
  - intros es i a Hes' Hi Ha. injection Hes' as <-.
    exact (Forall_combine_seq (fun a => a = []) acts 0 _ HF i a Hi Ha).
  - unfold copy_list in Hd, Hc. injection Hd as _ <-. injection Hc as _ <-.
    destruct s; reflexivity.
Qed.

(** ** A Coordinator without a Curriculum Manager *)

#[local] Instance unmanaged_preorder : PreOrder unmanaged.
Proof.
  split.
  - intros s H. auto.
  - intros s1 s2 s3 H12 H23 H. destruct (H12 H) as (H1 & H2 & H3).
    destruct (H23 H1) as (H4 & H5 & H6). repeat split; congruence.
Qed.

Lemma unmanaged_same (s s' : Coordinator) :
  curriculum_manager s' = curriculum_manager s -> reported s' = reported s ->
  curriculum_configs s' = curriculum_configs s -> unmanaged s s'.
Proof. intros H1 H2 H3 H. repeat split; congruence. Qed.

Ltac ufields :=
  intros; apply unmanaged_same;
  repeat match goal with s : VectorizedEnv |- _ => destruct s end;
  reflexivity.

Lemma unmanaged_store {A} (f : Coordinator -> list A) set i v :
  (forall l s, unmanaged s (set l s)) -> preserves unmanaged (store f set i v).
Proof.
  intros Hset s. unfold store. destruct (py_setitem _ _ _); simpl;
    [apply Hset | reflexivity | reflexivity].
Qed.

Lemma unmanaged_modify (f : Coordinator -> Coordinator) :
  (forall s, unmanaged s (f s)) -> preserves unmanaged (modify f).
Proof. intros H s. apply H. Qed.

Lemma unmanaged_getattr {A} name (f : Coordinator -> option A) :
  preserves unmanaged (getattr name f).
Proof. intros s. unfold getattr. destruct (f s); reflexivity. Qed.

Lemma unmanaged_remote_op {A} i (op : RemoteOf -> outcome A * RemoteOf) :
  preserves unmanaged (remote_op i op).
Proof.
  unfold remote_op.
  apply preserves_bind; [apply _ | apply unmanaged_getattr | intros rs].
  apply preserves_bind; [apply _ | apply preserves_lift; apply _ | intros r].
  apply preserves_bind; [apply _ | | intros ?; apply preserves_lift; apply _].
  apply unmanaged_modify. ufields.
Qed.

Lemma unmanaged_get_bind {A} (k : Coordinator -> Eff Coordinator A) :
  (forall s0, curriculum_manager s0 = None -> preserves unmanaged (k s0)) ->
  preserves unmanaged (bind get k).
Proof. intros H s Hs. exact (H s Hs s Hs). Qed.

Lemma unmanaged_get_config_unreached :
  preserves unmanaged mgr_get_environment_config.
Proof.
  intros s Hs. unfold mgr_get_environment_config. rewrite Hs. simpl. auto.
Qed.

Lemma unmanaged_copy_list {A} (f : Coordinator -> PyList A) :
  preserves unmanaged (copy_list f).
Proof. intros s. unfold copy_list. simpl. ufields. Qed.

Ltac uframe :=
  repeat match goal with
    | |- preserves _ (bind get _) => apply unmanaged_get_bind; intros
    | |- preserves _ (copy_list _) => apply unmanaged_copy_list
    | |- preserves _ (bind _ _) => apply preserves_bind; [ apply _ | | intros ]
    | |- preserves _ (try_except _ _ _) => apply preserves_try; [ apply _ | | intros ]
    | |- preserves _ (for_each _ _) => apply preserves_for_each; [ apply _ | intros ]
    | |- preserves _ (ret _) => apply preserves_ret; apply _
    | |- preserves _ (raise _) => apply preserves_raise; apply _
    | |- preserves _ (lift _) => apply preserves_lift; apply _
    | |- preserves _ get => apply preserves_get; apply _
    | |- preserves _ (load _ _) => intros ?; reflexivity
    | |- preserves _ (load_done _) => intros ?; reflexivity
    | |- preserves _ (read_local _ ?v) => destruct v; simpl
    | |- preserves _ (expect_obs ?m) => destruct m; simpl
    | |- preserves _ (expect_step ?m) => destruct m; simpl
    | |- preserves _ (getattr _ _) => apply unmanaged_getattr
    | |- preserves _ (remote_send _ _) => apply unmanaged_remote_op
    | |- preserves _ (remote_recv _) => apply unmanaged_remote_op
    | |- preserves _ (remote_op _ _) => apply unmanaged_remote_op
    | |- preserves _ (print _) => apply unmanaged_modify; ufields
    | |- preserves _ (load_env _) => unfold load_env
    | |- preserves _ (store_env _ _) => unfold store_env
    | |- preserves _ (env_call _ _) => unfold env_call
    | |- preserves _ (env_update _ _) => unfold env_update
    | |- preserves _ (coord_get_env _ _) => unfold coord_get_env
    | |- preserves _ (incr_episode_count _) => unfold incr_episode_count
    | H : curriculum_manager ?s0 = None
      |- preserves _ (if is_not_None (curriculum_manager ?s0) then _ else _) =>
        rewrite H; cbn [is_not_None]
    | |- preserves _ (if ?b then _ else _) => destruct b
    | |- preserves _ (match ?x with _ => _ end) => destruct x
    | |- preserves _ (store _ _ _ _) => apply unmanaged_store; ufields
    | |- preserves _ (store_done _ _) => apply unmanaged_store; ufields
    | |- preserves _ (modify _) => apply unmanaged_modify; ufields
    end.

Lemma unmanaged__step_env i actions_dict :
  preserves unmanaged (_step_env i actions_dict).
Proof. unfold _step_env. uframe. Qed.

Lemma unmanaged_thread_reset_loop i required attempts :
  preserves unmanaged (thread_reset_loop i required attempts).
Proof.
  induction attempts as [ | attempt rest IH]; simpl; uframe; exact IH.
Qed.

Lemma unmanaged_thread_result local_i result :
  preserves unmanaged (thread_result local_i result).
Proof.
  destruct result as [env_idx [[[next_obs_dict reward_dict] terminated_dict]
                                 truncated_dict]].
  unfold thread_result. uframe; apply unmanaged_thread_reset_loop.
Qed.

Lemma unmanaged_process_reset_loop i required attempts :
  preserves unmanaged (process_reset_loop i required attempts).
Proof.
  induction attempts as [ | attempt rest IH]; simpl; uframe; exact IH.
Qed.

Lemma unmanaged_process_result i : preserves unmanaged (process_result i).
Proof. unfold process_result. uframe; apply unmanaged_process_reset_loop. Qed.

Lemma unmanaged_step acts : preserves unmanaged (step acts).
Proof.
  unfold step.
  apply preserves_bind; [apply _ | apply unmanaged_getattr | intros m].
  apply preserves_bind; [apply _ | | intros ?; uframe].
  destruct m.
  - unfold step_thread.
    apply preserves_bind; [apply _ | apply unmanaged_getattr | intros es].
    apply preserves_bind; [apply _ | | intros futures].
    + generalize (combine (seq 0 (length es)) acts). intros jobs.
      induction jobs as [ | [i a] jobs IH]; simpl; [uframe | ].
      destruct (py_truthy a); [ | exact IH].
      apply preserves_bind; [apply _ | | intros ?].
      * unfold submit.
        apply preserves_bind; [apply _ | apply unmanaged_getattr | intros ex].
        destruct (shut_down ex); [uframe | ].
        intros s. apply unmanaged__step_env.
      * apply preserves_bind; [apply _ | exact IH | intros ?; uframe].
    + apply preserves_bind; [apply _ | | intros results].
      * induction futures as [ | f futures IH]; simpl; uframe. exact IH.
      * induction results as [ | r results IH]; simpl; uframe;
          [apply unmanaged_thread_result | exact IH].
  - unfold step_multiprocess.
    apply preserves_bind; [apply _ | apply unmanaged_getattr | intros rs].
    apply preserves_bind; [apply _ | uframe | intros ?].
    induction (seq 0 (length rs)) as [ | i slots IH]; simpl; uframe;
      [apply unmanaged_process_result | exact IH].
Qed.

(** X11.  Without a Curriculum Manager, [step] (both modes, whatever its
    outcome) reports nothing, stores no new configuration and leaves the
    manager absent. *)
Theorem step_without_manager (acts : list (PyDict Action)) (s : Coordinator) :
  curriculum_manager s = None ->
  curriculum_manager (snd (step acts s)) = None
  /\ reported (snd (step acts s)) = reported s
  /\ curriculum_configs (snd (step acts s)) = curriculum_configs s.
Proof. intros H. exact (unmanaged_step acts s H). Qed.

(** ** [close] in process mode *)

Lemma set_remotes_twice x y (s : Coordinator) :
  set_remotes x (set_remotes y s) = set_remotes x s.
Proof. destruct s; reflexivity. Qed.

Lemma set_remotes_same (s : Coordinator) rs :
  remotes s = Some rs -> set_remotes (Some rs) s = s.
Proof. destruct s; simpl; intros ->; reflexivity. Qed.

Lemma for_each_remotes (op : RemoteOf -> outcome unit * RemoteOf)
    (catches : exn -> bool) :
  forall n a (s : Coordinator) rs,
    remotes s = Some rs -> a + n = length rs ->
    Forall (fun r => caught catches (fst (op r))) (drop a rs) ->
    for_each (seq a n)
      (fun i => try_except (remote_op i op) catches (fun _ => ret tt)) s
    = (Ret tt,
       set_remotes
         (Some (take a rs ++ map (fun r => snd (op r)) (drop a rs))) s).
Proof.
  induction n as [ | n IH]; intros a s rs Hrs Hlen HF; simpl.
  - rewrite drop_ge by lia. rewrite take_ge by lia. simpl.
    rewrite app_nil_r. rewrite set_remotes_same by exact Hrs. reflexivity.
  - destruct (lookup_lt_is_Some_2 rs a ltac:(lia)) as [r Hr].
    rewrite (drop_S _ _ _ Hr) in HF |- *.
    apply Forall_cons in HF as [Hop HF].
    unfold bind, try_except. rewrite (remote_op_run a op s rs r Hrs Hr).
    set (s1 := set_remotes (Some (<[a := snd (op r)]> rs)) s).
    assert (for_each (seq (S a) n)
              (fun i => try_except (remote_op i op) catches (fun _ => ret tt)) s1
            = (Ret tt,
               set_remotes
                 (Some (take a rs ++ map (fun r => snd (op r)) (r :: drop (S a) rs)))
                 s)) as Hrest.
    { rewrite (IH (S a) s1 (<[a := snd (op r)]> rs)).
      - unfold s1. rewrite set_remotes_twice.
        rewrite (take_S_r _ _ (snd (op r))).
        2: { apply list_lookup_insert_eq. apply lookup_lt_Some in Hr. exact Hr. }
        rewrite take_insert_ge by lia. rewrite drop_insert_lt by lia.
        rewrite <- app_assoc. reflexivity.
      - unfold s1. apply remotes_set_remotes.
      - rewrite length_insert. lia.
      - rewrite drop_insert_lt by lia. exact HF. }
    unfold caught in Hop.
    destruct (fst (op r)) as [[] | e | ]; [exact Hrest | | contradiction].
    rewrite Hop. unfold ret. exact Hrest.
Qed.

Lemma halt_twice (r : RemoteOf) : halt (halt r) = halt r.
Proof. destruct r as [h [[] | ] dl c]; reflexivity. Qed.

Lemma joins_spec ps : forall (s : Coordinator) rs,
  remotes s = Some rs ->
  exists rs2,
    for_each ps join_or_terminate s = (Ret tt, set_remotes (Some rs2) s)
    /\ Forall2 halted rs rs2.
Proof.
  induction ps as [ | p ps IH]; intros s rs Hrs; simpl.
  - exists rs. rewrite set_remotes_same by exact Hrs.
    split; [reflexivity | ].
    apply Forall2_same_length_lookup. split; [reflexivity | ].
    intros i x y Hx Hy. left. congruence.
  - unfold bind, join_or_terminate at 1, modify. rewrite Hrs.
    destruct (rs !! p_slot p) as [r | ] eqn:Hr.
    + fold (halt r).
      destruct (IH (set_remotes (Some (<[p_slot p := halt r]> rs)) s)
                  (<[p_slot p := halt r]> rs) (remotes_set_remotes _ _))
        as (rs2 & Hrun & HF).
      exists rs2. rewrite Hrun, set_remotes_twice. split; [reflexivity | ].
      apply Forall2_same_length_lookup.
      apply Forall2_same_length_lookup in HF as [Hlen HF].
      rewrite length_insert in Hlen. split; [exact Hlen | ].
      intros i x y Hx Hy.
      destruct (decide (i = p_slot p)) as [-> | Hne].
      * assert (x = r) as -> by congruence.
        assert (<[p_slot p := halt r]> rs !! p_slot p = Some (halt r)) as Hh
          by (apply list_lookup_insert_eq; eapply lookup_lt_Some; exact Hr).
        destruct (HF _ _ _ Hh Hy) as [-> | ->].
        -- right. reflexivity.
        -- right. apply halt_twice.
      * apply (HF i); [ | exact Hy].
        rewrite list_lookup_insert_ne by congruence. exact Hx.
    + destruct (IH s rs Hrs) as (rs2 & Hrun & HF).
      exists rs2. rewrite Hrun. auto.
Qed.

Lemma worker_close_leaves_loop (w : WorkerOf) :
  w_running (worker_handle CmdClose w) = false.
Proof.
  unfold worker_handle, worker_command, bind, w_sim, modify, ret.
  destruct (env_close (w_env w)) as [[[] | msg] e']; destruct w; reflexivity.
Qed.

Lemma conn_send_close_open (r : RemoteOf) :
  handle_open r = true ->
  caught is_pipe_or_eof (fst (conn_send CmdClose r))
  /\ handle_open (snd (conn_send CmdClose r)) = true
  /\ idle (snd (conn_send CmdClose r))
  /\ sent (snd (conn_send CmdClose r))
     = sent r ++ match peer r with
                 | Some w => if w_running w then [CmdClose] else []
                 | None => []
                 end.
Proof.
  intros Ho. unfold conn_send, idle. rewrite Ho. simpl.
  destruct r as [h [w | ] dl c]; simpl in *.
  - destruct (w_running w) eqn:Hw; simpl.
    + split; [exact I | ]. split; [exact Ho | ]. split; [ | reflexivity].
      intros w' Hw'. injection Hw' as <-. apply worker_close_leaves_loop.
    + rewrite app_nil_r.
      split; [reflexivity | ]. split; [exact Ho | ]. split; [ | reflexivity].
      intros w' Hw'. injection Hw' as <-. exact Hw.
  - rewrite app_nil_r.
    split; [reflexivity | ]. split; [exact Ho | ]. split; [ | reflexivity].
    intros w' Hw'. discriminate.
Qed.

Lemma halted_keeps (r r' : RemoteOf) :
  halted r r' ->
  handle_open r' = handle_open r /\ sent r' = sent r /\ (idle r -> idle r').
Proof.
  intros [-> | ->]; [auto | ].
  unfold halt, idle. destruct r as [h [w | ] dl c]; simpl.
  - split; [reflexivity | ]. split; [reflexivity | ].
    intros _ w' Hw'. injection Hw' as <-. destruct w; reflexivity.
  - split; [reflexivity | ]. split; [reflexivity | ].
    intros _ w' Hw'. discriminate.
Qed.

Lemma close_process_run (s : Coordinator) rs :
  mode s = Some multiprocess -> remotes s = Some rs ->
  Forall (fun r => handle_open r = true) rs ->
  exists rs2,
    close s
    = (Ret tt, set_remotes (Some (map (fun r => snd (conn_close r)) rs2)) s)
    /\ Forall2 halted (map (fun r => snd (conn_send CmdClose r)) rs) rs2.
Proof.
  intros Hm Hrs Hopen.
  pose proof (for_each_remotes (conn_send CmdClose) is_pipe_or_eof
                (length rs) 0 s rs Hrs eq_refl) as H1.
  rewrite drop_0, take_0 in H1. simpl in H1.
  set (rs1 := map (fun r => snd (conn_send CmdClose r)) rs) in *.
  set (s1 := set_remotes (Some rs1) s) in *.
  assert (remotes s1 = Some rs1) as Hrs1 by apply remotes_set_remotes.
  assert (exists rs2,
            match processes s with
            | Some ps => for_each ps join_or_terminate
            | None => ret tt
            end s1 = (Ret tt, set_remotes (Some rs2) s)
            /\ Forall2 halted rs1 rs2) as (rs2 & H2 & HF).
  { destruct (processes s) as [ps | ].
    - destruct (joins_spec ps s1 rs1 Hrs1) as (rs2 & Hrun & HF).
      exists rs2. rewrite Hrun. unfold s1. rewrite set_remotes_twice. auto.
    - exists rs1. split; [reflexivity | ].
      apply Forall2_same_length_lookup. split; [reflexivity | ].
      intros i x y Hx Hy. left. congruence. }
  set (s2 := set_remotes (Some rs2) s) in *.
  assert (length rs2 = length rs) as Hlen2.
  { apply Forall2_length in HF. unfold rs1 in HF. rewrite length_map in HF.
    congruence. }
  pose proof (for_each_remotes conn_close (fun _ => true)
                (length rs) 0 s2 rs2 (remotes_set_remotes _ _)
                ltac:(simpl; congruence)) as H3.
  rewrite drop_0, take_0 in H3. simpl in H3.
  exists rs2. split; [ | exact HF].
  unfold close, bind, getattr, get. rewrite Hm. cbn [fst snd]. rewrite Hrs.
  unfold remote_send. rewrite H1.
  - rewrite H2. rewrite H3.
    + unfold s2. rewrite set_remotes_twice. reflexivity.
    + apply Forall_forall. intros r _. exact I.
  - apply Forall_forall. intros r Hin.
    apply conn_send_close_open.
    rewrite Forall_forall in Hopen. apply Hopen. exact Hin.
Qed.

(** X18.  The first [close] in process mode returns whatever the state of
    the workers (a broken pipe is caught, line 593): afterwards every
    handle is closed and no worker is in its loop, a worker that was in
    its loop has been sent exactly one more command, [close], and nothing
    else of the Coordinator has changed. *)
Theorem close_process_mode (s : Coordinator) rs :
  mode s = Some multiprocess -> remotes s = Some rs ->
  Forall (fun r => handle_open r = true) rs ->
  exists rs',
    close s = (Ret tt, set_remotes (Some rs') s)
    /\ Forall2
         (fun r r' =>
            handle_open r' = false /\ idle r'
            /\ sent r' = sent r ++ match peer r with
                                   | Some w => if w_running w then [CmdClose] else []
                                   | None => []
                                   end)
         rs rs'.
Proof.
  intros Hm Hrs Hopen.
  destruct (close_process_run s rs Hm Hrs Hopen) as (rs2 & Hrun & HF).
  eexists. split; [exact Hrun | ].
  apply Forall2_same_length_lookup in HF as [Hlen HF].
  rewrite length_map in Hlen.
  apply Forall2_same_length_lookup. split; [rewrite length_map; exact Hlen | ].
  intros i r r' Hr Hr'.
  rewrite list_lookup_fmap in Hr'.
  destruct (rs2 !! i) as [r2 | ] eqn:Hr2; [ | discriminate].
  injection Hr' as <-.
  assert (map (fun r => snd (conn_send CmdClose r)) rs !! i
          = Some (snd (conn_send CmdClose r))) as Hr1
    by (rewrite list_lookup_fmap, Hr; reflexivity).
  destruct (halted_keeps _ _ (HF i _ _ Hr1 Hr2)) as (Ho & Hs & Hi).
  assert (handle_open r = true) as Hopen_r.
  { rewrite Forall_forall in Hopen. apply Hopen.
    eapply list_elem_of_lookup_2. exact Hr. }
  destruct (conn_send_close_open r Hopen_r) as (_ & _ & Hidle & Hsent).
  unfold conn_close, idle in *. destruct r2; simpl in *.
  split; [reflexivity | ]. split; [auto | congruence].
Qed.

(** ** The per-slot lists keep their lengths *)

Lemma shape_store {A} (f : Coordinator -> list A) set i v :
  (forall l s, length l = length (f s) -> shape (set l s) = shape s) ->
  preserves (same_view shape) (store f set i v).
Proof.
  intros Hset s. unfold store, py_setitem, same_view.
  case_decide; simpl; [ | reflexivity].
  apply Hset. apply length_insert.
Qed.

Ltac shfields :=
  let Hl := fresh in
  intros ? s Hl; destruct s; unfold shape, set_dones_items,
    set_episode_counts_items; simpl in *; rewrite ?Hl; reflexivity.

Lemma shape_remote_op {A} i (op : RemoteOf -> outcome A * RemoteOf) :
  preserves (same_view shape) (remote_op i op).
Proof.
  intros s. unfold remote_op, bind, getattr, lift, py_getitem, modify, same_view.
  destruct (remotes s) as [rs | ] eqn:Hrs; simpl; [ | reflexivity].
  destruct (rs !! i) as [r | ]; simpl; [ | reflexivity].
  assert (shape (set_remotes (Some (<[i := snd (op r)]> rs)) s) = shape s) as H.
  { destruct s; unfold shape; simpl in *. subst. simpl.
    rewrite length_insert. reflexivity. }
  destruct (fst (op r)); simpl; exact H.
Qed.

Lemma shape_store_env i e : preserves (same_view shape) (store_env i e).
Proof.
  intros s. unfold store_env, bind, getattr, lift, py_setitem, modify, same_view.
  destruct (envs s) as [es | ] eqn:Hes; simpl; [ | reflexivity].
  case_decide; simpl; [ | reflexivity].
  destruct s; unfold shape; simpl in *. subst. simpl.
  rewrite length_insert. reflexivity.
Qed.

Lemma shape_join p : preserves (same_view shape) (join_or_terminate p).
Proof.
  intros s. unfold join_or_terminate, modify, same_view. simpl.
  destruct (remotes s) as [rs | ] eqn:Hrs; [ | reflexivity].
  destruct (rs !! p_slot p); [ | reflexivity].
  destruct s; unfold shape; simpl in *. subst. simpl.
  rewrite length_insert. reflexivity.
Qed.

Lemma view_copy_list {T A} (V : Coordinator -> T) (f : Coordinator -> PyList A) :
  (forall x s, V (set_next_oid x s) = V s) ->
  preserves (same_view V) (copy_list f).
Proof. intros H s. unfold copy_list, same_view. simpl. apply H. Qed.

Ltac shframe :=
  repeat match goal with
    | |- preserves _ (bind _ _) => apply preserves_bind; [ apply _ | | intros ]
    | |- preserves _ (try_except _ _ _) => apply preserves_try; [ apply _ | | intros ]
    | |- preserves _ (for_each _ _) => apply preserves_for_each; [ apply _ | intros ]
    | |- preserves _ (ret _) => apply preserves_ret; apply _
    | |- preserves _ (raise _) => apply preserves_raise; apply _
    | |- preserves _ (lift _) => apply preserves_lift; apply _
    | |- preserves _ get => apply preserves_get; apply _
    | |- preserves _ (load _ _) => intros ?; reflexivity
    | |- preserves _ (load_done _) => intros ?; reflexivity
    | |- preserves _ (read_local _ ?v) => destruct v; simpl
    | |- preserves _ (expect_obs ?m) => destruct m; simpl
    | |- preserves _ (expect_step ?m) => destruct m; simpl
    | |- preserves _ (getattr _ _) => apply view_getattr
    | |- preserves _ (remote_send _ _) => apply shape_remote_op
    | |- preserves _ (remote_recv _) => apply shape_remote_op
    | |- preserves _ (remote_op _ _) => apply shape_remote_op
    | |- preserves _ (join_or_terminate _) => apply shape_join
    | |- preserves _ (print _) => apply view_modify; vfields
    | |- preserves _ (mgr_update_progression_stats _) => apply view_modify; vfields
    | |- preserves _ mgr_get_environment_config => apply view_get_config; vfields
    | |- preserves _ (copy_list _) => apply view_copy_list; vfields
    | |- preserves _ (load_env _) => unfold load_env
    | |- preserves _ (store_env _ _) => apply shape_store_env
    | |- preserves _ (env_call _ _) => unfold env_call
    | |- preserves _ (env_update _ _) => unfold env_update
    | |- preserves _ (coord_get_env _ _) => unfold coord_get_env
    | |- preserves _ (incr_episode_count _) => unfold incr_episode_count
    | |- preserves _ (if ?b then _ else _) => destruct b
    | |- preserves _ (match ?x with _ => _ end) => destruct x
    | |- preserves _ (store _ _ _ _) => apply shape_store; shfields
    | |- preserves _ (store_done _ _) => apply shape_store; shfields
    | |- preserves _ (modify _) => apply view_modify; vfields
    end.

Lemma shape__step_env i actions_dict :
  preserves (same_view shape) (_step_env i actions_dict).
Proof. unfold _step_env. shframe. Qed.

Lemma shape_thread_reset_loop i required attempts :
  preserves (same_view shape) (thread_reset_loop i required attempts).
Proof.
  induction attempts as [ | attempt rest IH]; simpl; shframe; exact IH.
Qed.

Lemma shape_thread_result local_i result :
  preserves (same_view shape) (thread_result local_i result).
Proof.
  destruct result as [env_idx [[[next_obs_dict reward_dict] terminated_dict]
                                 truncated_dict]].
  unfold thread_result. shframe; apply shape_thread_reset_loop.
Qed.

Lemma shape_process_reset_loop i required attempts :
  preserves (same_view shape) (process_reset_loop i required attempts).
Proof.
  induction attempts as [ | attempt rest IH]; simpl; shframe; exact IH.
Qed.

Lemma shape_process_result i : preserves (same_view shape) (process_result i).
Proof. unfold process_result. shframe; apply shape_process_reset_loop. Qed.

Lemma shape_step acts : preserves (same_view shape) (step acts).
Proof.
  unfold step.
  apply preserves_bind; [apply _ | apply view_getattr | intros m].
  apply preserves_bind; [apply _ | | intros ?; shframe].
  destruct m.
  - unfold step_thread.
    apply preserves_bind; [apply _ | apply view_getattr | intros es].
    apply preserves_bind; [apply _ | | intros futures].
    + generalize (combine (seq 0 (length es)) acts). intros jobs.
      induction jobs as [ | [i a] jobs IH]; simpl; [shframe | ].
      destruct (py_truthy a); [ | exact IH].
      apply preserves_bind; [apply _ | | intros ?].
      * unfold submit.
        apply preserves_bind; [apply _ | apply view_getattr | intros ex].
        destruct (shut_down ex); [shframe | ].
        intros s. apply shape__step_env.
      * apply preserves_bind; [apply _ | exact IH | intros ?; shframe].
    + apply preserves_bind; [apply _ | | intros results].
      * induction futures as [ | f futures IH]; simpl; shframe. exact IH.
      * induction results as [ | r results IH]; simpl; shframe;
          [apply shape_thread_result | exact IH].
  - unfold step_multiprocess.
    apply preserves_bind; [apply _ | apply view_getattr | intros rs].
    apply preserves_bind; [apply _ | shframe | intros ?].
    induction (seq 0 (length rs)) as [ | i slots IH]; simpl; shframe;
      [apply shape_process_result | exact IH].
Qed.

Lemma shape_force_env_reset i :
  preserves (same_view shape) (force_env_reset i : Eff Coordinator unit).
Proof. unfold force_env_reset. shframe. Qed.

Lemma shape_close : preserves (same_view shape) close.
Proof. unfold close. shframe. Qed.

(** X16.  [step], [force_env_reset] and [close] never change the number
    of entries of a per-slot list, of the simulation objects or of the
    channels, whatever their outcome. *)
Theorem operations_keep_shape (s : Coordinator) :
  (forall acts, shape (snd (step acts s)) = shape s)
  /\ (forall env_idx, shape (snd (force_env_reset env_idx s)) = shape s)
  /\ shape (snd (close s)) = shape s.
Proof.
  split; [intros acts; apply shape_step | ].
  split; [intros i; apply shape_force_env_reset | apply shape_close].
Qed.

(** ** A closed Coordinator *)

Lemma remote_op_closed {A} (op : RemoteOf -> outcome A * RemoteOf) e
    (s : Coordinator) r rs :
  remotes s = Some (r :: rs) -> op r = (Raise e, r) ->
  remote_op 0 op s = (Raise e, s).
Proof.
  intros Hrs Hop. rewrite (remote_op_run 0 op s (r :: rs) r Hrs eq_refl).
  rewrite Hop. simpl. rewrite set_remotes_same by exact Hrs. reflexivity.
Qed.

Lemma conn_send_closed cmd (r : RemoteOf) :
  handle_open r = false -> conn_send cmd r = (Raise (OSError "handle is closed"), r).
Proof. intros H. unfold conn_send. rewrite H. reflexivity. Qed.

Lemma step_closed_handle a acts (s : Coordinator) r rs :
  mode s = Some multiprocess -> remotes s = Some (r :: rs) ->
  handle_open r = false ->
  step (a :: acts) s = (Raise (OSError "handle is closed"), s).
Proof.
  intros Hm Hrs Hc.
  unfold step, bind, getattr. rewrite Hm.
  unfold step_multiprocess, bind, getattr. rewrite Hrs. simpl.
  unfold bind, remote_send.
  rewrite (remote_op_closed _ _ s r rs Hrs (conn_send_closed _ r Hc)).
  reflexivity.
Qed.

Lemma close_closed_handle (s : Coordinator) r rs :
  mode s = Some multiprocess -> remotes s = Some (r :: rs) ->
  handle_open r = false ->
  close s = (Raise (OSError "handle is closed"), s).
Proof.
  intros Hm Hrs Hc.
  unfold close, bind, getattr, get. rewrite Hm. cbn [fst snd]. rewrite Hrs.
  simpl. unfold bind, try_except, remote_send.
  rewrite (remote_op_closed _ _ s r rs Hrs (conn_send_closed _ r Hc)).
  reflexivity.
Qed.

(** X19.  After [close], a process-mode Coordinator with at least one
    slot raises [OSError] on [step] (given an action mapping) and on a
    second [close], changing nothing: [send] on a closed handle raises
    it, and neither call catches it. *)
Theorem closed_pool_raises (acts : list (PyDict Action)) (s : Coordinator) rs :
  mode s = Some multiprocess -> remotes s = Some rs ->
  Forall (fun r => handle_open r = true) rs -> rs <> [] ->
  fst (close s) = Ret tt
  /\ (acts <> [] ->
      step acts (snd (close s))
      = (Raise (OSError "handle is closed"), snd (close s)))
  /\ close (snd (close s)) = (Raise (OSError "handle is closed"), snd (close s)).
Proof.
  intros Hm Hrs Hopen Hne.
  destruct (close_process_run s rs Hm Hrs Hopen) as (rs2 & Hrun & HF).
  rewrite Hrun. cbn [fst snd].
  apply Forall2_length in HF. rewrite length_map in HF.
  destruct rs2 as [ | r2 rs2]; [destruct rs; [congruence | discriminate HF] | ].
  set (s1 := set_remotes _ s).
  assert (mode s1 = Some multiprocess) as Hm1 by (destruct s; exact Hm).
  assert (remotes s1 = Some (snd (conn_close r2)
                               :: map (fun r => snd (conn_close r)) rs2)) as Hrs1
    by apply remotes_set_remotes.
  assert (handle_open (snd (conn_close r2)) = false) as Hc
    by (destruct r2; reflexivity).
  split; [reflexivity | ]. split.
  - intros Hacts. destruct acts as [ | a acts]; [congruence | ].
    exact (step_closed_handle a acts s1 _ _ Hm1 Hrs1 Hc).
  - exact (close_closed_handle s1 _ _ Hm1 Hrs1 Hc).
Qed.

(** ** [close] in thread mode *)

Lemma set_envs_twice x y (s : Coordinator) :
  set_envs x (set_envs y s) = set_envs x s.
Proof. destruct s; reflexivity. Qed.

Lemma set_envs_same (s : Coordinator) es :
  envs s = Some es -> set_envs (Some es) s = s.
Proof. destruct s; simpl; intros ->; reflexivity. Qed.

Lemma envs_set_envs x (s : Coordinator) : envs (set_envs x s) = x.
Proof. destruct s; reflexivity. Qed.

Lemma env_call_run {A} i (op : Env -> sim_result A * Env) (s : Coordinator) es e :
  envs s = Some es -> es !! i = Some e ->
  env_call i op s
  = (match fst (op e) with
     | SimOk a => Ret a
     | SimError msg => Raise (SimulationError msg)
     end,
     set_envs (Some (<[i := snd (op e)]> es)) s).
Proof.
  intros Hes He.
  unfold env_call, load_env, store_env, bind, getattr, lift, py_getitem,
    py_setitem, modify, ret, raise.
  rewrite Hes, He.
  destruct (op e) as [[a | msg] e']; simpl; rewrite Hes;
    (case_decide; [reflexivity | apply lookup_lt_Some in He; lia]).
Qed.

Lemma for_each_env_close : forall n a (s : Coordinator) es,
  envs s = Some es -> a + n = length es ->
  for_each (seq a n) (fun i => env_call i env_close) s
  = (match fst (close_in_order (drop a es)) with
     | None => Ret tt
     | Some msg => Raise (SimulationError msg)
     end,
     set_envs (Some (take a es ++ snd (close_in_order (drop a es)))) s).
Proof.
  induction n as [ | n IH]; intros a s es Hes Hlen; simpl.
  - rewrite drop_ge by lia. rewrite take_ge by lia. simpl.
    rewrite app_nil_r. rewrite set_envs_same by exact Hes. reflexivity.
  - destruct (lookup_lt_is_Some_2 es a ltac:(lia)) as [e He].
    rewrite (drop_S _ _ _ He). simpl.
    unfold bind. rewrite (env_call_run a env_close s es e Hes He).
    destruct (env_close e) as [[[] | msg] e'] eqn:Hc; simpl.
    + rewrite (IH (S a) _ (<[a := e']> es)).
      * rewrite set_envs_twice.
        rewrite (take_S_r _ _ e').
        2: { apply list_lookup_insert_eq. apply lookup_lt_Some in He. exact He. }
        rewrite take_insert_ge by lia. rewrite drop_insert_lt by lia.
        rewrite <- app_assoc. reflexivity.
      * apply envs_set_envs.
      * rewrite length_insert. lia.
    + rewrite insert_take_drop by (apply lookup_lt_Some in He; exact He).
      reflexivity.
Qed.

Lemma close_thread_run (s : Coordinator) ex es :
  mode s = Some thread -> executor s = Some ex -> envs s = Some es ->
  close s
  = (match fst (close_in_order es) with
     | None => Ret tt
     | Some msg => Raise (SimulationError msg)
     end,
     set_envs (Some (snd (close_in_order es)))
       (set_executor (Some {| shut_down := true |}) s)).
Proof.
  intros Hm Hex Hes.
  unfold close, bind, getattr, get. rewrite Hm. cbn [fst snd].
  rewrite Hex, Hes. unfold modify. cbn [is_not_None].
  rewrite (for_each_env_close (length es) 0 _ es);
    [ | destruct s; exact Hes | reflexivity].
  rewrite drop_0, take_0. simpl.
  destruct (fst (close_in_order es)); reflexivity.
Qed.

Lemma close_in_order_length (es : list Env) :
  length (snd (close_in_order es)) = length es.
Proof.
  induction es as [ | e es IH]; simpl; [reflexivity | ].
  destruct (env_close e) as [[[] | msg] e']; simpl; congruence.
Qed.

(** X20.  [close] in thread mode shuts the executor down, then closes the
    simulations in slot order; it raises the error of the first [close]
    that raises and leaves the simulations after that one unclosed. *)
Theorem close_thread_mode (s : Coordinator) ex es :
  mode s = Some thread -> executor s = Some ex -> envs s = Some es ->
  close s
  = (match fst (close_in_order es) with
     | None => Ret tt
     | Some msg => Raise (SimulationError msg)
     end,
     set_envs (Some (snd (close_in_order es)))
       (set_executor (Some {| shut_down := true |}) s))
  /\ length (snd (close_in_order es)) = length es.
Proof.
  intros Hm Hex Hes. split.
  - exact (close_thread_run s ex es Hm Hex Hes).
  - apply close_in_order_length.
Qed.

Lemma combine_seq_lookup {B} (l : list B) : forall k n i x,
  i < n -> l !! i = Some x -> combine (seq k n) l !! i = Some (k + i, x).
Proof.
  induction l as [ | y l IH]; intros k n i x Hi Hx; [discriminate | ].
  destruct n as [ | n]; [lia | ]. simpl.
  destruct i as [ | i]; simpl in *.
  - injection Hx as <-. rewrite Nat.add_0_r. reflexivity.
  - rewrite (IH (S k) n i x) by (lia || exact Hx). f_equal. f_equal. lia.
Qed.

Lemma submit_all_shut jobs (s : Coordinator) :
  executor s = Some {| shut_down := true |} ->
  Exists (fun job : nat * PyDict Action => snd job <> []) jobs ->
  submit_all jobs s
  = (Raise (RuntimeError "cannot schedule new futures after shutdown"), s).
Proof.
  intros Hex HE.
  induction jobs as [ | [i a] jobs IH]; [inversion HE | ]. simpl.
  destruct a as [ | x a]; simpl.
  - apply IH. inversion HE as [? ? H | ? ? H]; subst; [ | exact H].
    simpl in H. congruence.
  - unfold submit, bind, getattr. rewrite Hex. reflexivity.
Qed.

(** X21.  After [close] in thread mode (whatever its outcome), [step]
    with a non-empty action mapping for some slot raises [RuntimeError]
    (the executor accepts no task after shutdown) and changes nothing. *)
Theorem shut_pool_raises (acts : list (PyDict Action)) (s : Coordinator)
    ex es i a :
  mode s = Some thread -> executor s = Some ex -> envs s = Some es ->
  i < length es -> acts !! i = Some a -> a <> [] ->
  step acts (snd (close s))
  = (Raise (RuntimeError "cannot schedule new futures after shutdown"),
     snd (close s)).
Proof.
  intros Hm Hex Hes Hi Ha Hne.
  rewrite (close_thread_run s ex es Hm Hex Hes). cbn [snd].
  set (s1 := set_envs _ _).
  assert (mode s1 = Some thread) as Hm1 by (destruct s; exact Hm).
  assert (envs s1 = Some (snd (close_in_order es))) as Hes1
    by (destruct s; reflexivity).
  assert (executor s1 = Some {| shut_down := true |}) as Hex1
    by (destruct s; reflexivity).
  unfold step, bind, getattr. rewrite Hm1.
  unfold step_thread, bind, getattr. rewrite Hes1.
  rewrite close_in_order_length.
  rewrite submit_all_shut; [reflexivity | exact Hex1 | ].
  apply Exists_exists. exists (0 + i, a). split; [ | exact Hne].
  eapply list_elem_of_lookup_2. apply combine_seq_lookup; [exact Hi | exact Ha].
Qed.

(** ** Done flags and episode counts in process mode *)

Lemma process_result_settles i (s : Coordinator) out s' :
  process_result i s = (Ret out, s') -> slot_settled i s out s'.
Proof.
  intros H. unfold process_result in H.
  apply bind_Ret in H as (m & s1 & H1 & H). frame_fact tallies H1.
  apply bind_Ret in H as (out' & sx & Hexp & H).
  destruct m; try discriminate. injection Hexp as -> ->.
  destruct out' as [[[next_obs_dict reward_dict] terminated_dict] truncated_dict].
  apply bind_Ret in H as (snap & sy & Hget & H). injection Hget as <- <-.
  apply bind_Ret in H as ([] & s2 & Htrack & H). frame_fact tallies Htrack.
  apply bind_Ret in H as ([] & s3 & Hdone & H).
  apply store_Ret in Hdone as (Hltd & ->).
  apply bind_Ret in H as (config & sw & Hc & H).
  apply load_Ret in Hc as (-> & _).
  apply bind_Ret in H as (done & sv & Hld & H).
  apply load_Ret in Hld as (-> & Hld).
  apply bind_Ret in H as ([] & s4 & Hbody & H). injection H as <- <-.
  unfold slot_settled, episode_over. cbn [fst snd].
  set (over := py_any (dict_values terminated_dict)
               || py_any (dict_values truncated_dict)) in *.
  assert (done = over) as ->.
  { revert Hld Hltd. destruct s2; simpl. intros Hld Hltd.
    rewrite list_lookup_insert_eq in Hld by exact Hltd. congruence. }
  set (s3 := set_dones_items _ s2) in *.
  assert (items (dones s3) !! i = Some over) as Hflag.
  { unfold s3. destruct s2; simpl in *. apply list_lookup_insert_eq. exact Hltd. }
  assert (items (episode_counts s3) = items (episode_counts s)) as Hcount.
  { unfold s3, tallies in *. destruct s2; simpl in *. congruence. }
  clearbody s3. clear Hld Hltd F F0 H1 Htrack.
  destruct over.
  - pose proof Hbody as Hflags. frame_fact (fun t : Coordinator => items (dones t)) Hflags.
    apply bind_Ret in Hbody as ([] & a1 & Hs1 & Hbody).
    frame_fact (fun t : Coordinator => items (episode_counts t)) Hs1.
    apply bind_Ret in Hbody as (succ & a1' & Hls & Hbody).
    apply load_Ret in Hls as (-> & _).
    apply bind_Ret in Hbody as ([] & a2 & Hs2 & Hbody).
    frame_fact (fun t : Coordinator => items (episode_counts t)) Hs2.
    apply bind_Ret in Hbody as ([] & a7 & Hm & Hbody).
    frame_fact (fun t : Coordinator => items (episode_counts t)) Hm.
    apply bind_Ret in Hbody as ([] & a8 & Hincr & Hbody).
    apply bind_Ret in Hincr as (n & a7' & Hn & Hincr).
    apply load_Ret in Hn as (-> & Hn).
    apply store_Ret in Hincr as (Hltn & ->).
    apply bind_Ret in Hbody as ([] & a9 & Hloop & Hbody).
    frame_fact (fun t : Coordinator => items (episode_counts t)) Hloop.
    apply bind_Ret in Hbody as ([] & a10 & Hstk & Hbody).
    frame_fact (fun t : Coordinator => items (episode_counts t)) Hstk.
    pose proof Hbody as Hcounts.
    frame_fact (fun t : Coordinator => items (episode_counts t)) Hcounts.
    apply bind_Ret in Hbody as ([] & a11 & Hr1 & Hbody).
    apply store_Ret in Hr1 as (Hlt3 & ->).
    apply bind_Ret in Hbody as ([] & a12 & Hr2 & Hbody).
    apply store_Ret in Hr2 as (Hlt4 & ->).
    apply store_Ret in Hbody as (Hlt5 & ->).
    split; [ | split].
    + rewrite F. exact Hflag.
    + replace (items (episode_counts s) !! i) with (Some n) by congruence.
      simpl. rewrite F5, F4, F3.
      replace (items (episode_counts
                        (set_episode_counts_items
                           (<[i:=(n + 1)%Z]> (items (episode_counts a7))) a7)))
        with (<[i:=(n + 1)%Z]> (items (episode_counts a7)))
        by (destruct a7; reflexivity).
      apply list_lookup_insert_eq. exact Hltn.
    + destruct a10; simpl in *.
      split; [apply list_lookup_insert_eq; exact Hlt3 | ].
      split; [apply list_lookup_insert_eq; exact Hlt4 | ].
      apply list_lookup_insert_eq; exact Hlt5.
  - apply store_Ret in Hbody as (Hlt & ->).
    split; [ | split].
    + destruct s3; exact Hflag.
    + rewrite <- Hcount. destruct s3; simpl.
      match goal with |- ?x = _ => destruct x; reflexivity end.
    + destruct s3; simpl in *. apply list_lookup_insert_eq. exact Hlt.
Qed.

Lemma slot_view_books j (s s' : Coordinator) :
  slot_view j s' = slot_view j s -> slot_books j s' = slot_books j s.
Proof. unfold slot_view, slot_books. intros H. congruence. Qed.

Lemma slot_settled_books i (s s' t t' : Coordinator) out :
  slot_settled i s out s' ->
  slot_books i t = slot_books i s -> slot_books i t' = slot_books i s' ->
  slot_settled i t out t'.
Proof.
  unfold slot_settled, slot_books. intros (H1 & H2 & H3) Ht Ht'.
  injection Ht as Ht1 Ht2 Ht3 Ht4 Ht5 Ht6 Ht7.
  injection Ht' as Hu1 Hu2 Hu3 Hu4 Hu5 Hu6 Hu7.
  split; [congruence | ]. split.
  { rewrite Hu4, H2, Ht4. reflexivity. }
  destruct (episode_over out); [ | rewrite Hu1; exact H3].
  destruct H3 as (H3 & H4 & H5).
  split; [exact (eq_trans Hu2 H3) | ].
  split; [exact (eq_trans Hu6 H4) | exact (eq_trans Hu7 H5)].
Qed.

Lemma same_slot_process_results j slots :
  j ∉ slots -> preserves (same_slot j) (process_results slots).
Proof.
  induction slots as [ | i slots IH]; intros Hj; simpl.
  - apply preserves_ret. apply _.
  - apply not_elem_of_cons in Hj as [Hne Hj].
    apply preserves_bind; [apply _ | | intros r].
    + apply same_slot_process_result. congruence.
    + apply preserves_bind; [apply _ | apply IH; exact Hj | intros rs].
      apply preserves_ret. apply _.
Qed.

Lemma process_results_settle m : forall a (s : Coordinator) res s',
  process_results (seq a m) s = (Ret res, s') ->
  forall k out, res !! k = Some out -> slot_settled (a + k) s out s'.
Proof.
  induction m as [ | m IH]; intros a s res s' H k out Hk; simpl in H.
  - injection H as <- <-. discriminate Hk.
  - apply bind_Ret in H as (r & s1 & H1 & H).
    apply bind_Ret in H as (rs & s2 & H2 & H). injection H as <- <-.
    destruct k as [ | k]; simpl in Hk.
    + injection Hk as <-. rewrite Nat.add_0_r.
      apply (slot_settled_books a s s1); [ | reflexivity | ].
      * apply process_result_settles. exact H1.
      * apply slot_view_books.
        pose proof (same_slot_process_results a (seq (S a) m)) as Hf.
        specialize (Hf ltac:(rewrite elem_of_seq; lia) s1).
        rewrite H2 in Hf. exact Hf.
    + replace (a + S k) with (S a + k) by lia.
      apply (slot_settled_books (S a + k) s1 s2); [ | | reflexivity].
      * apply (IH (S a) s1 rs s2 H2 k out Hk).
      * symmetry. apply slot_view_books.
        pose proof (same_slot_process_result (S a + k) a ltac:(lia) s) as Hf.
        rewrite H1 in Hf. exact Hf.
Qed.

(** X12.  When [step] returns in process mode, for every slot: the done
    flag is set iff the slot's result has a terminated or truncated flag;
    the episode count is one more than before when it is set and as
    before otherwise; a done slot has its reward accumulator emptied and
    its success and timeout marks cleared, a slot that is not done
    retains the step's observations. *)
Theorem step_process_bookkeeping (acts : list (PyDict Action))
    (s : Coordinator) res d c s' :
  mode s = Some multiprocess ->
  step acts s = (Ret (res, d, c), s') ->
  items d = items (dones s') /\ items c = items (episode_counts s')
  /\ forall i out, res !! i = Some out -> slot_settled i s out s'.
Proof.
  intros Hm H. unfold step in H.
  apply bind_Ret in H as (m & s0 & H0 & H).
  unfold getattr in H0. rewrite Hm in H0. injection H0 as <- <-.
  apply bind_Ret in H as (res0 & s1 & H1 & H).
  apply bind_Ret in H as (d0 & s2 & Hd & H).
  apply bind_Ret in H as (c0 & s3 & Hc & H).
  injection H as -> <- <- <-.
  unfold copy_list in Hd, Hc. injection Hd as <- <-. injection Hc as <- <-.
  split; [destruct s1; reflexivity | ]. split; [destruct s1; reflexivity | ].
  intros i out Hi.
  unfold step_multiprocess in H1.
  apply bind_Ret in H1 as (rs & s4 & Hr & H1).
  unfold getattr in Hr. destruct (remotes s) as [rs0 | ]; [ | discriminate].
  injection Hr as <- <-.
  apply bind_Ret in H1 as ([] & s5 & Hsend & H1).
  frame_fact (slot_books i) Hsend.
  pose proof (process_results_settle _ 0 s5 res s1 H1 i out Hi) as Hs.
  simpl in Hs.
  apply (slot_settled_books i s5 s1); [exact Hs | symmetry; exact F | ].
  destruct s1; reflexivity.
Qed.

(** ** [force_env_reset] in thread mode *)

Ltac slot_frame :=
  repeat match goal with
    | |- preserves _ (bind _ _) => apply preserves_bind; [ apply _ | | intros ]
    | |- preserves _ (ret _) => apply preserves_ret; apply _
    | |- preserves _ (raise _) => apply preserves_raise; apply _
    | |- preserves _ (lift _) => apply preserves_lift; apply _
    | |- preserves _ get => apply preserves_get; apply _
    | |- preserves _ (load _ _) => apply same_slot_load
    | |- preserves _ (getattr _ _) => apply same_slot_getattr
    | |- preserves _ (load_env _) => apply same_slot_load_env
    | |- preserves _ (store_env _ _) => apply same_slot_store_env; assumption
    | |- preserves _ (env_call _ _) => apply same_slot_env_call; assumption
    | |- preserves _ (env_update _ _) => apply same_slot_env_update; assumption
    | |- preserves _ (coord_get_env _ _) => unfold coord_get_env
    | |- preserves _ (if ?b then _ else _) => destruct b
    | |- preserves _ (match ?x with _ => _ end) => destruct x
    | |- preserves _ (store obs_dicts _ _ _) =>
        apply same_slot_store;
        [ let H := fresh in intros ? ? H; apply same_slot_obs_dicts; exact H
        | assumption ]
    end.

Lemma same_slot_force_env_reset j i :
  i <> j -> preserves (same_slot j) (force_env_reset i : Eff Coordinator unit).
Proof. intros Hij. unfold force_env_reset. slot_frame. Qed.

Ltac env_frame :=
  repeat first
    [ progress vframe
    | match goal with
      | |- preserves _ (load_env _) => unfold load_env
      | |- preserves _ (store_env _ _) => unfold store_env
      | |- preserves _ (env_call _ _) => unfold env_call
      | |- preserves _ (env_update _ _) => unfold env_update
      | |- preserves _ (coord_get_env _ _) => unfold coord_get_env
      end ].

Lemma untouched_force_env_reset i :
  preserves (same_view untouched_by_reset)
    (force_env_reset i : Eff Coordinator unit).
Proof. unfold force_env_reset. env_frame. Qed.

Lemma env_call_Ret {A} i (op : Env -> sim_result A * Env) (s : Coordinator) a s' :
  env_call i op s = (Ret a, s') ->
  exists es e,
    envs s = Some es /\ es !! i = Some e /\ fst (op e) = SimOk a
    /\ s' = set_envs (Some (<[i := snd (op e)]> es)) s.
Proof.
  intros H.
  destruct (envs s) as [es | ] eqn:Hes.
  2: { unfold env_call, load_env, bind, getattr in H. rewrite Hes in H.
       discriminate. }
  destruct (es !! i) as [e | ] eqn:He.
  2: { unfold env_call, load_env, bind, getattr, lift, py_getitem in H.
       rewrite Hes, He in H. discriminate. }
  rewrite (env_call_run i op s es e Hes He) in H.
  exists es, e. destruct (fst (op e)); [ | discriminate].
  injection H as -> <-. auto.
Qed.

Lemma load_env_Ret i (s : Coordinator) e s' :
  load_env i s = (Ret e, s') ->
  s' = s /\ exists es, envs s = Some es /\ es !! i = Some e.
Proof.
  unfold load_env, bind, getattr, lift, py_getitem.
  destruct (envs s) as [es | ]; [ | discriminate].
  destruct (es !! i) as [e' | ] eqn:He; [ | discriminate].
  intros [= <- <-]. eauto.
Qed.

Lemma env_update_Ret i f (s s' : Coordinator) :
  env_update i f s = (Ret tt, s') ->
  exists es e,
    envs s = Some es /\ es !! i = Some e
    /\ s' = set_envs (Some (<[i := f e]> es)) s.
Proof.
  unfold env_update. intros H.
  apply bind_Ret in H as (e & s1 & Hl & H).
  apply load_env_Ret in Hl as (-> & es & Hes & He).
  unfold store_env, bind, getattr, lift, py_setitem, modify in H.
  rewrite Hes in H. case_decide; [ | discriminate].
  injection H as <-. eauto.
Qed.

(** X17.  [force_env_reset] in thread mode changes nothing of another
    slot and, of its own slot, only the simulation object and the retained
    observations (done flag, episode count and reward accumulator stay);
    when it returns, the old simulation was closed (slot 0 of a rendered
    pool with its renderer detached), a new one was built from the slot's
    configuration with the kept renderer, and the slot retains the
    observations of its first reset. *)
Theorem force_env_reset_thread_mode (env_idx : nat) (s : Coordinator) :
  mode s = Some thread ->
  (forall j, j <> env_idx ->
     slot_view j (snd (force_env_reset env_idx s)) = slot_view j s)
  /\ untouched_by_reset (snd (force_env_reset env_idx s)) = untouched_by_reset s
  /\ (forall s', force_env_reset env_idx s = (Ret tt, s') ->
      exists es e cfg e0 obs,
        envs s = Some es /\ es !! env_idx = Some e
        /\ curriculum_configs s !! env_idx = Some cfg
        /\ let kept := if Nat.eqb env_idx 0 && render s
                       then env_renderer e else None in
           let detached := if is_not_None kept
                           then env_set_renderer None e else e in
           fst (env_close detached) = SimOk tt
           /\ get_env kept cfg = SimOk e0
           /\ fst (env_reset e0) = SimOk obs
           /\ obs_dicts s' !! env_idx = Some obs
           /\ envs s' = Some (<[env_idx := snd (env_reset e0)]> es)).
Proof.
  intros Hm. split; [ | split].
  - intros j Hj. apply same_slot_force_env_reset. congruence.
  - apply untouched_force_env_reset.
  - intros s' H. unfold force_env_reset in H.
    apply bind_Ret in H as (m & s0 & H0 & H).
    unfold getattr in H0. rewrite Hm in H0. injection H0 as <- <-.
    apply bind_Ret in H as (s0 & s0' & Hg & H). injection Hg as <- <-.
    apply bind_Ret in H as (kept & s1 & Hk & H).
    apply bind_Ret in H as ([] & s2 & Hdet & H).
    apply bind_Ret in H as ([] & s3 & Hclose & H).
    apply bind_Ret in H as (cfg & s4 & Hcfg & H).
    apply load_Ret in Hcfg as (-> & Hcfg).
    apply bind_Ret in H as (e0 & s5 & Hnew & H).
    apply bind_Ret in H as ([] & s6 & Hst & H).
    apply bind_Ret in H as (obs & s7 & Hreset & H).
    apply store_Ret in H as (Hlt & ->).
    apply env_call_Ret in Hclose as (es2 & e2 & Hes2 & He2 & Hc & ->).
    apply env_call_Ret in Hreset as (es6 & e6 & Hes6 & He6 & Hr & ->).
    unfold coord_get_env, lift in Hnew.
    destruct (get_env kept cfg) as [e0' | msg] eqn:Hget; [ | discriminate].
    injection Hnew as -> <-.
    unfold store_env in Hst.
    apply bind_Ret in Hst as (es3 & s3' & Hes3 & Hst).
    apply bind_Ret in Hst as (es3' & s3'' & Hset & Hst).
    unfold getattr in Hes3. rewrite envs_set_envs in Hes3. injection Hes3 as <- <-.
    unfold lift, py_setitem in Hset. case_decide; [ | discriminate].
    injection Hset as <- <-. injection Hst as <-.
    rewrite envs_set_envs in Hes6. injection Hes6 as <-.
    rewrite list_lookup_insert_eq in He6 by assumption. injection He6 as <-.
    rewrite !list_insert_insert_eq.
    assert (exists es e,
              envs s = Some es /\ es !! env_idx = Some e
              /\ kept = (if Nat.eqb env_idx 0 && render s
                         then env_renderer e else None)
              /\ e2 = (if is_not_None kept then env_set_renderer None e else e)
              /\ <[env_idx := snd (env_reset e0)]> es2
                 = <[env_idx := snd (env_reset e0)]> es
              /\ curriculum_configs s2 = curriculum_configs s)
      as (es & e & Hes & He & -> & -> & Hins & Hcfgs).
    { destruct (Nat.eqb env_idx 0 && render s).
      - apply bind_Ret in Hk as (e & s1' & Hl & Hk). injection Hk as <- <-.
        apply load_env_Ret in Hl as (-> & es & Hes & He).
        destruct (is_not_None (env_renderer e)).
        + apply env_update_Ret in Hdet as (es' & e' & Hes' & He' & ->).
          assert (es' = es) as -> by congruence.
          assert (e' = e) as -> by congruence.
          rewrite envs_set_envs in Hes2. injection Hes2 as <-.
          rewrite list_lookup_insert_eq in He2
            by (eapply lookup_lt_Some; exact He).
          injection He2 as <-.
          exists es, e. rewrite list_insert_insert_eq.
          repeat split; try assumption. destruct s; reflexivity.
        + injection Hdet as <-. exists es, e.
          assert (es2 = es) as -> by congruence.
          assert (e2 = e) as -> by congruence.
          repeat split; assumption || reflexivity.
      - injection Hk as <- <-. simpl in Hdet. injection Hdet as <-.
        exists es2, e2. repeat split; assumption || reflexivity. }
    exists es, e, cfg, e0, obs.
    split; [exact Hes | ]. split; [exact He | ].
    split; [destruct s2; simpl in *; congruence | ].
    cbv zeta. split; [exact Hc | ]. split; [exact Hget | ].
    split; [exact Hr | ]. split.
    + destruct s2; simpl in *. apply list_lookup_insert_eq. exact Hlt.
    + destruct s2; simpl in *. congruence.
Qed.

(** ** The pool after construction *)

Lemma init_config_Ret idx (s s' : Coordinator) :
  init_config false idx s = (Ret tt, s') ->
  is_not_None (curriculum_manager s') = is_not_None (curriculum_manager s)
  /\ exists c, curriculum_configs s' = curriculum_configs s ++ [c].
Proof.
  unfold init_config, bind, get, mgr_get_environment_config, modify, lift.
  cbn beta.
  destruct (curriculum_manager s) as [m | ] eqn:Hm; cbn [is_not_None negb].
  - rewrite Hm.
    destruct (_make_config_picklable (fst (get_environment_config m)))
      as [p | e | ]; try discriminate.
    intros [= <-]. destruct s; simpl in *. eauto.
  - intros [= <-]. destruct s; simpl in *. subst. eauto.
Qed.

Lemma init_configs_Ret slots : forall (s s' : Coordinator),
  for_each slots (init_config false) s = (Ret tt, s') ->
  is_not_None (curriculum_manager s') = is_not_None (curriculum_manager s)
  /\ length (curriculum_configs s')
     = length (curriculum_configs s) + length slots.
Proof.
  induction slots as [ | idx slots IH]; intros s s' H.
  - injection H as <-. split; [reflexivity | simpl; lia].
  - apply for_each_Ret in H as (s1 & H1 & H).
    apply init_config_Ret in H1 as (Hm1 & c & Hc1).
    apply IH in H as (Hm & Hc). split; [congruence | ].
    rewrite Hc, Hc1, length_app. simpl. lia.
Qed.

Lemma beside_configs_init_configs r slots :
  preserves (same_view beside_configs)
    (for_each slots (init_config r) : Eff Coordinator unit).
Proof. apply preserves_for_each; [apply _ | intros idx]. unfold init_config. vframe. Qed.

Lemma remote_ops_Ret (op : RemoteOf -> outcome unit * RemoteOf) :
  forall n a (s s' : Coordinator) rs,
    remotes s = Some rs -> a + n = length rs ->
    for_each (seq a n) (fun i => remote_op i op) s = (Ret tt, s') ->
    s' = set_remotes
           (Some (take a rs ++ map (fun r => snd (op r)) (drop a rs))) s
    /\ Forall (fun r => fst (op r) = Ret tt) (drop a rs).
Proof.
  induction n as [ | n IH]; intros a s s' rs Hrs Hlen H.
  - injection H as <-.
    rewrite drop_ge by lia. rewrite take_ge by lia. simpl.
    rewrite app_nil_r. rewrite set_remotes_same by exact Hrs. auto.
  - change (seq a (S n)) with (a :: seq (S a) n) in H.
    apply for_each_Ret in H as (s1 & H1 & H).
    destruct (lookup_lt_is_Some_2 rs a ltac:(lia)) as [r Hr].
    rewrite (remote_op_run a op s rs r Hrs Hr) in H1.
    injection H1 as Hop <-.
    apply (IH (S a) _ _ (<[a := snd (op r)]> rs)) in H;
      [ | apply remotes_set_remotes | rewrite length_insert; lia].
    destruct H as (-> & HF).
    rewrite (drop_S _ _ _ Hr). simpl. split.
    + rewrite set_remotes_twice.
      rewrite (take_S_r _ _ (snd (op r))).
      2: { apply list_lookup_insert_eq. apply lookup_lt_Some in Hr. exact Hr. }
      rewrite take_insert_ge by lia. rewrite drop_insert_lt by lia.
      rewrite <- app_assoc. reflexivity.
    + constructor; [exact Hop | ].
      rewrite drop_insert_lt in HF by lia. exact HF.
Qed.

Lemma init_collect_Ret i (s s' : Coordinator) :
  init_collect i s = (Ret tt, s') ->
  exists rs r obs,
    remotes s = Some rs /\ rs !! i = Some r
    /\ fst (conn_recv r) = Ret (MsgObs obs)
    /\ s' = set_obs_dicts (obs_dicts s ++ [obs])
              (set_remotes (Some (<[i := snd (conn_recv r)]> rs)) s).
Proof.
  unfold init_collect. simpl. intros H.
  apply bind_Ret in H as (rs & s0 & Hrs & H).
  unfold getattr in Hrs. destruct (remotes s) as [rs0 | ] eqn:Hrs0; [ | discriminate].
  injection Hrs as <- <-.
  apply bind_Ret in H as (r & s0 & Hr & H).
  unfold lift, py_getitem in Hr.
  destruct (rs0 !! i) as [r0 | ] eqn:Hr0; [ | discriminate].
  injection Hr as <- <-.
  apply bind_Ret in H as (m & s1 & Hrecv & H).
  unfold remote_recv in Hrecv.
  rewrite (remote_op_run i conn_recv s rs0 r0 Hrs0 Hr0) in Hrecv.
  injection Hrecv as Hm <-.
  apply bind_Ret in H as (obs & s2 & Hobs & H).
  destruct m as [out | obs' | ]; try discriminate. injection Hobs as <- <-.
  injection H as <-.
  exists rs0, r0, obs'. repeat split; try assumption.
  destruct s; reflexivity.
Qed.

Lemma init_collects_Ret : forall n a (s s' : Coordinator) rs,
  remotes s = Some rs -> a + n = length rs ->
  for_each (seq a n) init_collect s = (Ret tt, s') ->
  exists obs,
    length obs = n
    /\ s' = set_obs_dicts (obs_dicts s ++ obs)
              (set_remotes
                 (Some (take a rs ++ map (fun r => snd (conn_recv r)) (drop a rs)))
                 s)
    /\ Forall (fun r => exists o, fst (conn_recv r) = Ret (MsgObs o)) (drop a rs).
Proof.
  induction n as [ | n IH]; intros a s s' rs Hrs Hlen H.
  - injection H as <-. exists [].
    rewrite drop_ge by lia. rewrite take_ge by lia. simpl.
    rewrite !app_nil_r. rewrite set_remotes_same by exact Hrs.
    repeat split; [destruct s; reflexivity | constructor].
  - change (seq a (S n)) with (a :: seq (S a) n) in H.
    apply for_each_Ret in H as (s1 & H1 & H).
    apply init_collect_Ret in H1 as (rs0 & r & o & Hrs0 & Hr & Ho & ->).
    assert (rs0 = rs) as -> by congruence.
    apply (IH (S a) _ _ (<[a := snd (conn_recv r)]> rs)) in H;
      [ | destruct s; reflexivity | rewrite length_insert; lia].
    destruct H as (obs & Hl & -> & HF).
    exists (o :: obs). rewrite (drop_S _ _ _ Hr). simpl.
    split; [lia | ]. split.
    + rewrite (take_S_r _ _ (snd (conn_recv r))).
      2: { apply list_lookup_insert_eq. apply lookup_lt_Some in Hr. exact Hr. }
      rewrite take_insert_ge by lia. rewrite drop_insert_lt by lia.
      destruct s; simpl. rewrite <- !app_assoc. reflexivity.
    + constructor; [eauto | ].
      rewrite drop_insert_lt in HF by lia. exact HF.
Qed.

Lemma worker_start_Some render_flag st cfg (w : WorkerOf) :
  worker_start render_flag st cfg = Some w ->
  w_running w = true /\ w_channel_open w = true /\ w_outbox w = []
  /\ w_stacker w = st /\ w_curr_config w = cfg.
Proof.
  unfold worker_start. destruct (worker_create_env _ _); try discriminate.
  intros [= <-]. simpl. auto.
Qed.

Lemma fresh_remote_answers st configs delays idx o :
  let r1 := snd (conn_send CmdReset (fresh_remote st configs delays idx)) in
  fst (conn_send CmdReset (fresh_remote st configs delays idx)) = Ret tt ->
  fst (conn_recv r1) = Ret (MsgObs o) ->
  remote_with [] (snd (conn_recv r1)) /\ sent (snd (conn_recv r1)) = [CmdReset].
Proof.
  unfold fresh_remote, conn_send. simpl.
  destruct (worker_start false st (mjoin (configs !! idx))) as [w | ] eqn:Hw;
    [ | discriminate].
  apply worker_start_Some in Hw as (Hrun & Hch & Hout & _).
  rewrite Hrun. simpl. intros _.
  unfold conn_recv. simpl.
  destruct (worker_handle_cases CmdReset w Hrun)
    as [(Hrun' & _ & Hch' & m & Hm & Hout') | (Hrun' & Hout')].
  - rewrite Hout', Hout. simpl. intros _.
    unfold remote_with, worker_with. simpl.
    split; [ | reflexivity]. split; [reflexivity | ].
    eexists. split; [reflexivity | ].
    destruct (worker_handle CmdReset w); simpl in *. auto.
  - rewrite Hout', Hout, Hrun'. discriminate.
Qed.

Lemma init_process_pool_Ret n st mg delays (s : Coordinator) :
  __init__ n false st mg delays blank = (Ret tt, s) ->
  0 < n
  /\ mode s = Some multiprocess
  /\ pool_ok n (is_not_None mg) s
  /\ items (dones s) = repeat false n
  /\ items (episode_counts s) = repeat 0%Z n
  /\ oid (dones s) < next_oid s /\ oid (episode_counts s) < next_oid s
  /\ oid (dones s) <> oid (episode_counts s)
  /\ exists rs,
       remotes s = Some rs /\ length rs = n
       /\ forall j r, rs !! j = Some r -> remote_with [] r /\ sent r = [CmdReset].
Proof.
  intros H. unfold __init__ in H.
  apply bind_Ret in H as ([] & sA & HA & H). injection HA as <-.
  apply bind_Ret in H as ([] & sB & HB & H). injection HB as <-.
  apply bind_Ret in H as ([] & sC & HC & H).
  match type of HC with
  | _ ?s0 = _ =>
      pose proof (beside_configs_init_configs false (seq 0 n) s0) as Hside
  end.
  rewrite HC in Hside. unfold same_view in Hside. cbn [snd] in Hside.
  apply init_configs_Ret in HC as (Hmgr & Hcfgs).
  rewrite length_seq in Hcfgs. cbn [length Nat.add] in Hcfgs.
  apply bind_Ret in H as ([] & sI & Hpool & H).
  apply bind_Ret in H as (d & sJ & Hd & H).
  apply bind_Ret in H as ([] & sK & HK & H). injection HK as <-.
  apply bind_Ret in H as (c & sL & Hc & H).
  injection H as <-. injection Hd as <- <-. injection Hc as <- <-.
  cbn [negb] in Hpool.
  apply bind_Ret in Hpool as ([] & sD & HD & Hpool). injection HD as <-.
  apply bind_Ret in Hpool as ([] & sD' & Hn & Hpool).
  destruct (Nat.eqb n 0) eqn:Hn0; [discriminate | ]. injection Hn as <-.
  apply Nat.eqb_neq in Hn0.
  apply bind_Ret in Hpool as (s0 & sD' & Hg & Hpool). injection Hg as <- <-.
  apply bind_Ret in Hpool as ([] & sE & HE & Hpool). injection HE as <-.
  apply bind_Ret in Hpool as ([] & sF & HF & Hpool). injection HF as <-.
  apply bind_Ret in Hpool as ([] & sG & Hsend & Hpool).
  apply bind_Ret in Hpool as ([] & sH & HH & Hpool). injection HH as <-.
  set (rs0 := map (fresh_remote st (curriculum_configs sC) delays) (seq 0 n)).
  match type of Hsend with
  | _ ?sF = _ =>
      assert (remotes sF = Some rs0) as Hrs0 by (destruct sC; reflexivity);
      unfold remote_send in Hsend;
      apply (remote_ops_Ret (conn_send CmdReset) n 0 sF sG rs0 Hrs0) in Hsend;
      [ | unfold rs0; rewrite length_map, length_seq; reflexivity ]
  end.
  rewrite drop_0, take_0 in Hsend. cbn [app] in Hsend.
  destruct Hsend as (-> & Hsent).
  set (rs1 := map (fun r => snd (conn_send CmdReset r)) rs0) in *.
  match type of Hpool with
  | _ ?sH = _ =>
      assert (remotes sH = Some rs1) as Hrs1 by (destruct sC; reflexivity);
      apply (init_collects_Ret n 0 sH sI rs1 Hrs1) in Hpool;
      [ | unfold rs1, rs0; rewrite !length_map, length_seq; reflexivity ]
  end.
  rewrite drop_0, take_0 in Hpool. cbn [app] in Hpool.
  destruct Hpool as (obs & Hobs & -> & Hrecv).
  set (rs2 := map (fun r => snd (conn_recv r)) rs1) in *.
  assert (length rs2 = n) as Hlen2
    by (unfold rs2, rs1, rs0; rewrite !length_map, length_seq; reflexivity).
  assert (forall j r, rs2 !! j = Some r -> remote_with [] r /\ sent r = [CmdReset])
    as Hhealthy.
  { intros j r Hj. unfold rs2 in Hj. rewrite list_lookup_fmap in Hj.
    destruct (rs1 !! j) as [r1 | ] eqn:Hr1; [ | discriminate].
    injection Hj as <-.
    rewrite Forall_lookup in Hrecv. destruct (Hrecv j r1 Hr1) as [o Ho].
    unfold rs1 in Hr1. rewrite list_lookup_fmap in Hr1.
    destruct (rs0 !! j) as [r0 | ] eqn:Hr0; [ | discriminate].
    injection Hr1 as <-.
    rewrite Forall_lookup in Hsent. pose proof (Hsent j r0 Hr0) as Hs.
    unfold rs0 in Hr0. rewrite list_lookup_fmap in Hr0.
    destruct (seq 0 n !! j) as [idx | ] eqn:Hidx; [ | discriminate].
    injection Hr0 as <-.
    exact (fresh_remote_answers st _ delays idx o Hs Ho). }
  clearbody rs2. clear Hrecv Hsent Hrs1 Hrs0. clearbody rs1 rs0.
  unfold beside_configs in Hside.
  destruct sC; simpl in *.
  injection Hside as -> -> -> -> -> -> -> -> -> -> -> -> -> -> -> -> ->.
  split; [lia | ]. split; [reflexivity | ].
  split.
  { unfold pool_ok. simpl. rewrite !repeat_length.
    repeat split; try reflexivity; try lia; try congruence. }
  split; [reflexivity | ]. split; [reflexivity | ].
  split; [lia | ]. split; [lia | ]. split; [lia | ].
  exists rs2. auto.
Qed.

(** X5.  Whenever construction returns in process mode, there is at least
    one slot, every per-slot list has [num_envs] entries, every done flag
    is False and every episode count 0, the two vectors are distinct list
    objects, and behind every channel a worker is in its loop with nothing
    unread, having been sent one command: [reset]. *)
Theorem init_process_pool n st mg delays (s : Coordinator) :
  __init__ n false st mg delays blank = (Ret tt, s) ->
  0 < n
  /\ mode s = Some multiprocess
  /\ pool_ok n (is_not_None mg) s
  /\ items (dones s) = repeat false n
  /\ items (episode_counts s) = repeat 0%Z n
  /\ oid (dones s) < next_oid s /\ oid (episode_counts s) < next_oid s
  /\ oid (dones s) <> oid (episode_counts s)
  /\ exists rs,
       remotes s = Some rs /\ length rs = n
       /\ forall j r, rs !! j = Some r -> remote_with [] r /\ sent r = [CmdReset].
Proof. exact (init_process_pool_Ret n st mg delays s). Qed.

Lemma init_ready n st mg delays (s : Coordinator) :
  __init__ n false st mg delays blank = (Ret tt, s) ->
  ready n (is_not_None mg) s.
Proof.
  intros H.
  destruct (init_process_pool_Ret n st mg delays s H)
    as (_ & Hmode & Hpool & _ & _ & _ & _ & _ & rs & Hrs & Hlen & Hhealthy).
  split; [exact Hmode | ]. split; [exact Hpool | ].
  exists rs. split; [exact Hrs | ]. split; [exact Hlen | ].
  intros j r Hj. apply (Hhealthy j r Hj).
Qed.

(** ** Construction returns when no simulation call raises *)

Lemma bind_assoc {S A B C} (c : Eff S A) (k1 : A -> Eff S B) (k2 : B -> Eff S C) s :
  bind (bind c k1) k2 s = bind c (fun a => bind (k1 a) k2) s.
Proof. unfold bind. destruct (c s) as [[a | e | ] s1]; reflexivity. Qed.

Lemma bind_modify {S B} (f : S -> S) (k : unit -> Eff S B) s :
  bind (modify f) k s = k tt (f s).
Proof. reflexivity. Qed.

Lemma bind_get {S B} (k : S -> Eff S B) s : bind get k s = k s s.
Proof. reflexivity. Qed.

Lemma bind_ret {S A B} (a : A) (k : A -> Eff S B) s : bind (ret a) k s = k a s.
Proof. reflexivity. Qed.

Lemma remote_ops_run (op : RemoteOf -> outcome unit * RemoteOf) :
  forall n a (s : Coordinator) rs,
    remotes s = Some rs -> a + n = length rs ->
    Forall (fun r => fst (op r) = Ret tt) (drop a rs) ->
    for_each (seq a n) (fun i => remote_op i op) s
    = (Ret tt,
       set_remotes
         (Some (take a rs ++ map (fun r => snd (op r)) (drop a rs))) s).
Proof.
  induction n as [ | n IH]; intros a s rs Hrs Hlen HF; simpl.
  - rewrite drop_ge by lia. rewrite take_ge by lia. simpl.
    rewrite app_nil_r. rewrite set_remotes_same by exact Hrs. reflexivity.
  - destruct (lookup_lt_is_Some_2 rs a ltac:(lia)) as [r Hr].
    rewrite (drop_S _ _ _ Hr) in HF |- *.
    apply Forall_cons in HF as [Hop HF].
    rewrite (bind_run _ _ _ _ _ (remote_op_run a op s rs r Hrs Hr)).
    rewrite Hop.
    rewrite (IH (S a) _ (<[a := snd (op r)]> rs)).
    + rewrite set_remotes_twice.
      rewrite (take_S_r _ _ (snd (op r))).
      2: { apply list_lookup_insert_eq. apply lookup_lt_Some in Hr. exact Hr. }
      rewrite take_insert_ge by lia. rewrite drop_insert_lt by lia.
      rewrite <- app_assoc. reflexivity.
    + apply remotes_set_remotes.
    + rewrite length_insert. lia.
    + rewrite drop_insert_lt by lia. exact HF.
Qed.

Lemma init_collect_run i (s : Coordinator) rs r o :
  remotes s = Some rs -> rs !! i = Some r ->
  fst (conn_recv r) = Ret (MsgObs o) ->
  init_collect i s
  = (Ret tt,
     set_obs_dicts (obs_dicts s ++ [o])
       (set_remotes (Some (<[i := snd (conn_recv r)]> rs)) s)).
Proof.
  intros Hrs Hr Ho. unfold init_collect. simpl.
  unfold bind at 1, getattr. rewrite Hrs.
  unfold bind at 1, lift, py_getitem. rewrite Hr.
  unfold remote_recv.
  rewrite (bind_run _ _ _ _ _ (remote_op_run i conn_recv s rs r Hrs Hr)).
  rewrite Ho. simpl. destruct s; reflexivity.
Qed.

Lemma init_collects_run : forall n a (s : Coordinator) rs,
  remotes s = Some rs -> a + n = length rs ->
  Forall (fun r => exists o, fst (conn_recv r) = Ret (MsgObs o)) (drop a rs) ->
  fst (for_each (seq a n) init_collect s) = Ret tt.
Proof.
  induction n as [ | n IH]; intros a s rs Hrs Hlen HF; simpl; [reflexivity | ].
  destruct (lookup_lt_is_Some_2 rs a ltac:(lia)) as [r Hr].
  rewrite (drop_S _ _ _ Hr) in HF.
  apply Forall_cons in HF as [[o Ho] HF].
  rewrite (bind_run _ _ _ _ _ (init_collect_run a s rs r o Hrs Hr Ho)).
  apply (IH (S a) _ (<[a := snd (conn_recv r)]> rs)).
  - destruct s; reflexivity.
  - rewrite length_insert. lia.
  - rewrite drop_insert_lt by lia. exact HF.
Qed.

Lemma init_configs_run (Hmgr : manager_configs_picklable) slots :
  forall s : Coordinator,
    exists s', for_each slots (init_config false) s = (Ret tt, s').
Proof.
  induction slots as [ | idx slots IH]; intros s; simpl; [eauto | ].
  assert (exists s1, init_config false idx s = (Ret tt, s1)) as (s1 & H1).
  { unfold init_config, bind, get, mgr_get_environment_config, modify, lift.
    cbn beta.
    destruct (curriculum_manager s) as [m | ] eqn:Hm; cbn [is_not_None negb].
    - rewrite Hm. destruct (Hmgr m) as (p & ->). eauto.
    - eauto. }
  rewrite (bind_run _ _ _ _ _ H1). apply IH.
Qed.

Lemma fresh_remote_ready (Hsim : sim_never_raises) st configs delays idx :
  remote_with [] (fresh_remote st configs delays idx).
Proof.
  destruct Hsim as (_ & _ & _ & Hget).
  unfold remote_with, worker_with, fresh_remote, worker_start. simpl.
  split; [reflexivity | ].
  destruct (Hget None (mjoin (configs !! idx))) as (e & ->).
  eexists. split; [reflexivity | ]. simpl. auto.
Qed.

Ltac run_head :=
  repeat (rewrite ?bind_assoc;
          first [rewrite bind_modify | rewrite bind_ret | rewrite bind_get];
          cbn beta);
  rewrite ?bind_assoc.

Lemma init_process_returns (Hsim : sim_never_raises)
    (Hmgr : manager_configs_picklable) n st mg delays :
  0 < n ->
  fst (__init__ n false st mg delays (blank : Coordinator)) = Ret tt.
Proof.
  intros Hn. unfold __init__.
  run_head.
  match goal with
  | |- fst (bind (for_each ?xs ?body) _ ?s0) = _ =>
      destruct (init_configs_run Hmgr xs s0) as (sC & HC)
  end.
  rewrite (bind_run _ _ _ _ _ HC). clear HC.
  destruct n as [ | n']; [lia | ]. set (n := S n') in *.
  change (Nat.eqb n 0) with false. cbn iota.
  run_head.
  set (rs0 := map (fresh_remote st (curriculum_configs sC) delays) (seq 0 n)).
  assert (Forall (remote_with []) rs0) as Hready.
  { apply Forall_forall. intros r Hr. unfold rs0 in Hr.
    apply list_elem_of_fmap in Hr as (idx & -> & _).
    apply fresh_remote_ready. exact Hsim. }
  unfold remote_send.
  match goal with
  | |- fst (bind _ _ ?sF) = _ =>
      assert (remotes sF = Some rs0) as Hrs0 by (destruct sC; reflexivity);
      rewrite (bind_run _ _ _ _ _
                 (remote_ops_run (conn_send CmdReset) n 0 sF rs0 Hrs0
                    ltac:(unfold rs0; rewrite length_map, length_seq; reflexivity)
                    ltac:(rewrite drop_0; eapply Forall_impl; [exact Hready | ];
                          intros r Hr;
                          apply (conn_send_answers CmdReset r Hsim); [discriminate | exact Hr])))
  end.
  rewrite drop_0, take_0. cbn [app].
  run_head.
  set (rs1 := map (fun r => snd (conn_send CmdReset r)) rs0).
  match goal with
  | |- fst (bind _ _ ?sH) = _ =>
      assert (fst (for_each (seq 0 n) init_collect sH) = Ret tt) as Hcollect
  end.
  { apply (init_collects_run n 0 _ rs1).
    - destruct sC; reflexivity.
    - unfold rs1, rs0. rewrite !length_map, length_seq. reflexivity.
    - rewrite drop_0. unfold rs1. apply Forall_fmap.
      eapply Forall_impl; [exact Hready | ]. intros r Hr. simpl.
      destruct (conn_send_answers CmdReset r Hsim ltac:(discriminate) Hr)
        as (_ & m & Hm & Hr1).
      destruct m as [out | o | ]; simpl in Hm; try contradiction.
      exists o. apply (conn_recv_answer _ _ Hr1). }
  match goal with
  | |- fst (bind ?c _ ?sH) = _ =>
      destruct (c sH) as [[[] | e | ] sI] eqn:Hrun; try discriminate Hcollect;
      rewrite (bind_run _ _ _ _ _ Hrun)
  end.
  reflexivity.
Qed.

(** ** Every call returns when no simulation call raises *)

Section Liveness.

Hypothesis Hsim : sim_never_raises.
Hypothesis Hmgr : manager_configs_picklable.

Lemma process_results_ready n b m : forall a (s : Coordinator),
  a + m <= n -> pool_ok n b s ->
  (forall j, a <= j < a + m ->
     exists r out, remote_at j s = Some r /\ remote_with [MsgStep out] r) ->
  exists res s',
    process_results (seq a m) s = (Ret res, s') /\ pool_ok n b s'
    /\ length res = m
    /\ (forall j, a <= j < a + m ->
          exists r, remote_at j s' = Some r /\ remote_with [] r)
    /\ (forall j, j < a \/ a + m <= j -> remote_at j s' = remote_at j s).
Proof.
  induction m as [ | m IH]; intros a s Hn Hpool Hawait.
  - exists [], s.
    split; [reflexivity | ]. split; [exact Hpool | ]. split; [reflexivity | ].
    split; [intros j Hj; lia | reflexivity].
  - cbn [seq process_results].
    destruct (Hawait a ltac:(lia)) as (r & out & Hat & Hr).
    assert (slot_inv n a b [MsgStep out] s) as Hinv.
    { apply slot_inv_pool. split; [lia | split; [exact Hpool | eauto]]. }
    destruct (total_process_result Hsim Hmgr n a b out s Hinv)
      as (x & s1 & Hrun & Hinv1).
    apply slot_inv_pool in Hinv1 as (_ & Hpool1 & r1 & Hat1 & Hr1).
    assert (forall j, j <> a -> remote_at j s1 = remote_at j s) as Hother.
    { intros j Hj. apply slot_view_remote_at.
      assert (a <> j) as Haj by auto.
      pose proof (same_slot_process_result j a Haj s) as Hf.
      rewrite Hrun in Hf. exact Hf. }
    destruct (IH (S a) s1) as (res & s' & Hrun' & Hpool' & Hlen & Hdone & Hsame).
    { lia. }
    { exact Hpool1. }
    { intros j Hj. rewrite Hother by lia. apply Hawait. lia. }
    exists (x :: res), s'. unfold bind. rewrite Hrun, Hrun'.
    split; [reflexivity | ]. split; [exact Hpool' | ].
    split; [simpl; lia | ]. split.
    + intros j Hj. destruct (decide (j = a)) as [-> | Hne].
      * exists r1. rewrite Hsame by lia. auto.
      * apply Hdone. lia.
    + intros j Hj. rewrite Hsame by lia. apply Hother. lia.
Qed.

Lemma mode_process_results slots :
  preserves (same_view mode) (process_results slots : Eff Coordinator _).
Proof.
  induction slots as [ | i slots IH]; simpl.
  - apply preserves_ret. apply _.
  - apply preserves_bind; [apply _ | | intros r].
    + unfold process_result. vframe. apply view_process_reset_loop; vfields.
    + apply preserves_bind; [apply _ | exact IH | intros rs].
      apply preserves_ret. apply _.
Qed.

Lemma step_keeps_ready n b acts (s : Coordinator) :
  ready n b s -> length acts = n ->
  exists res d c s',
    step acts s = (Ret (res, d, c), s') /\ length res = n /\ ready n b s'.
Proof.
  intros (Hmode & Hpool & rs & Hrs & Hlr & Hready) Hla.
  assert (forall j, 0 <= j < 0 + length acts ->
            exists r, remote_at j s = Some r /\ remote_with [] r) as Hready'.
  { intros j Hj. unfold remote_at. rewrite Hrs. simpl.
    destruct (rs !! j) as [r | ] eqn:Hr; [eauto | ].
    apply lookup_ge_None in Hr. lia. }
  destruct (total_sends Hsim n b acts 0 s ltac:(lia) Hpool Hready')
    as (s2 & Hsend & Hpool2 & Hawait & _).
  destruct (process_results_ready n b n 0 s2 ltac:(lia) Hpool2)
    as (res & s3 & Hres & Hpool3 & Hlen & Hdone & _).
  { intros j Hj. apply Hawait. lia. }
  assert (mode s3 = Some multiprocess) as Hmode3.
  { pose proof (mode_process_results (seq 0 n) s2) as Hf.
    rewrite Hres in Hf. unfold same_view in Hf. simpl in Hf. rewrite Hf.
    assert (preserves (same_view mode)
              (for_each (combine (seq 0 (length acts)) acts)
                 (fun job => remote_send (fst job) (CmdStep (snd job)))
               : Eff Coordinator unit)) as Hg by vframe.
    specialize (Hg s). rewrite Hsend in Hg. unfold same_view in Hg.
    simpl in Hg. congruence. }
  assert (step acts s
          = (Ret (res, {| oid := next_oid s3; items := items (dones s3) |},
                  {| oid := S (next_oid s3); items := items (episode_counts s3) |}),
             set_next_oid (S (S (next_oid s3))) s3)) as Hstep.
  { rewrite Hla, <- Hlr in Hsend. rewrite <- Hlr in Hres at 1.
    unfold step, step_multiprocess, bind, getattr.
    rewrite Hmode, Hrs. simpl. rewrite Hsend, Hres.
    unfold copy_list, ret. simpl. destruct s3; reflexivity. }
  do 4 eexists. split; [exact Hstep | ]. split; [exact Hlen | ].
  pose proof (shape_step acts s) as Hshape. rewrite Hstep in Hshape.
  unfold same_view, shape in Hshape. cbn [snd] in Hshape.
  assert (length <$> remotes s3 = Some n) as Hl3.
  { destruct s3; simpl in *. injection Hshape as _ _ _ _ _ _ _ _ ->.
    rewrite Hrs. simpl. congruence. }
  destruct (remotes s3) as [rs3 | ] eqn:Hrs3; [ | discriminate].
  injection Hl3 as Hl3.
  split; [destruct s3; exact Hmode3 | ].
  split; [destruct s3; exact Hpool3 | ].
  exists rs3. split; [destruct s3; exact Hrs3 | ]. split; [exact Hl3 | ].
  intros j r Hj.
  destruct (Hdone j) as (r' & Hat & Hr').
  { apply lookup_lt_Some in Hj. lia. }
  unfold remote_at in Hat. rewrite Hrs3 in Hat. simpl in Hat. congruence.
Qed.

Lemma run_steps_ready n b calls : forall s : Coordinator,
  ready n b s -> Forall (fun acts => length acts = n) calls ->
  ready n b (run_steps calls s).
Proof.
  induction calls as [ | acts calls IH]; intros s Hs HF; [exact Hs | ].
  apply Forall_cons in HF as [Ha HF]. simpl.
  destruct (step_keeps_ready n b acts s Hs Ha) as (res & d & c & s' & Hrun & _ & Hs').
  rewrite Hrun. apply IH; assumption.
Qed.

(** X7.  With a simulation whose calls never raise and a manager whose
    configurations can be made picklable, construction in process mode
    with at least one slot returns, and so does every later [step] call
    that is given one action mapping per slot, each with one result per
    slot. *)
Theorem pool_never_stalls n st mg delays (calls : list (list (PyDict Action))) :
  0 < n -> Forall (fun acts => length acts = n) calls ->
  exists s0 : Coordinator,
    __init__ n false st mg delays blank = (Ret tt, s0)
    /\ forall k acts,
         calls !! k = Some acts ->
         exists res d c,
           fst (step acts (run_steps (take k calls) s0)) = Ret (res, d, c)
           /\ length res = n.
Proof.
  intros Hn HF.
  pose proof (init_process_returns Hsim Hmgr n st mg delays Hn) as Hinit.
  destruct (__init__ n false st mg delays blank) as [o s0] eqn:Hrun.
  simpl in Hinit. subst o. exists s0. split; [reflexivity | ].
  pose proof (init_ready n st mg delays s0 Hrun) as Hready.
  intros k acts Hk.
  assert (ready n (is_not_None mg) (run_steps (take k calls) s0)) as Hk'.
  { apply run_steps_ready; [exact Hready | ]. apply Forall_take. exact HF. }
  rewrite Forall_lookup in HF.
  destruct (step_keeps_ready n _ acts _ Hk' (HF k acts Hk))
    as (res & d & c & s' & Hstep & Hl & _).
  exists res, d, c. rewrite Hstep. auto.
Qed.







End Liveness.

(** ** The pool of thread mode after construction *)

Lemma init_config_thread_Ret idx (s s' : Coordinator) :
  init_config true idx s = (Ret tt, s') ->
  is_not_None (curriculum_manager s') = is_not_None (curriculum_manager s)
  /\ exists c, curriculum_configs s' = curriculum_configs s ++ [c].
Proof.
  unfold init_config, bind, get, mgr_get_environment_config, modify, ret.
  cbn beta.
  destruct (curriculum_manager s) as [m | ] eqn:Hm; cbn [is_not_None negb].
  - rewrite Hm. intros [= <-]. destruct s; simpl in *. eauto.
  - intros [= <-]. destruct s; simpl in *. subst. eauto.
Qed.

Lemma init_configs_thread_Ret slots : forall (s s' : Coordinator),
  for_each slots (init_config true) s = (Ret tt, s') ->
  is_not_None (curriculum_manager s') = is_not_None (curriculum_manager s)
  /\ length (curriculum_configs s')
     = length (curriculum_configs s) + length slots.
Proof.
  induction slots as [ | idx slots IH]; intros s s' H.
  - injection H as <-. split; [reflexivity | simpl; lia].
  - apply for_each_Ret in H as (s1 & H1 & H).
    apply init_config_thread_Ret in H1 as (Hm1 & c & Hc1).
    apply IH in H as (Hm & Hc). split; [congruence | ].
    rewrite Hc, Hc1, length_app. simpl. lia.
Qed.

Lemma beside_envs_init_env i :
  preserves (same_view beside_envs) (init_env i : Eff Coordinator unit).
Proof. unfold init_env. env_frame. Qed.

Lemma beside_envs_env_call {A} i (op : Env -> sim_result A * Env) :
  preserves (same_view beside_envs) (env_call i op : Eff Coordinator A).
Proof. env_frame. Qed.

Lemma beside_envs_env_update i f :
  preserves (same_view beside_envs) (env_update i f : Eff Coordinator unit).
Proof. env_frame. Qed.

Lemma init_env_Ret i (s s' : Coordinator) :
  init_env i s = (Ret tt, s') ->
  exists e, s' = set_envs (Some (default [] (envs s) ++ [e])) s.
Proof.
  unfold init_env, bind, load, py_getitem, coord_get_env, lift, modify.
  destruct (curriculum_configs s !! i) as [cfg | ]; [ | discriminate].
  destruct (get_env _ cfg) as [e | msg]; [ | discriminate].
  intros [= <-]. eauto.
Qed.

Lemma init_envs_Ret slots : forall (s s' : Coordinator) k,
  for_each slots init_env s = (Ret tt, s') ->
  length <$> envs s = Some k ->
  beside_envs s' = beside_envs s
  /\ length <$> envs s' = Some (k + length slots).
Proof.
  induction slots as [ | i slots IH]; intros s s' k H Hk.
  - injection H as <-. split; [reflexivity | ]. rewrite Hk. f_equal. simpl. lia.
  - apply for_each_Ret in H as (s1 & H1 & H).
    apply init_env_Ret in H1 as (e & ->).
    apply (IH _ _ (S k)) in H as (Hb & Hc).
    + split; [rewrite Hb; destruct s; reflexivity | ].
      rewrite Hc. f_equal. simpl. lia.
    + rewrite envs_set_envs. simpl.
      destruct (envs s) as [es | ]; [ | discriminate].
      injection Hk as <-. simpl. rewrite length_app. simpl. f_equal. lia.
Qed.

Lemma shape_env_call {A} i (op : Env -> sim_result A * Env) :
  preserves (same_view shape) (env_call i op : Eff Coordinator A).
Proof. shframe. Qed.

Lemma shape_env_update i f :
  preserves (same_view shape) (env_update i f : Eff Coordinator unit).
Proof. shframe. Qed.

Lemma init_resets_Ret slots : forall (s s' : Coordinator) obs,
  init_resets slots s = (Ret obs, s') ->
  length obs = length slots
  /\ beside_envs s' = beside_envs s /\ shape s' = shape s.
Proof.
  induction slots as [ | i slots IH]; intros s s' obs H; simpl in H.
  - injection H as <- <-. auto.
  - apply bind_Ret in H as (o & s1 & H1 & H).
    apply bind_Ret in H as (more & s2 & H2 & H). injection H as <- <-.
    pose proof (beside_envs_env_call i env_reset s) as Hb.
    pose proof (shape_env_call i env_reset s) as Hc.
    rewrite H1 in Hb, Hc. unfold same_view in Hb, Hc. cbn [snd] in Hb, Hc.
    apply IH in H2 as (Hl & Hb2 & Hc2).
    split; [simpl; lia | ]. split; congruence.
Qed.

(** X6.  Whenever construction returns in thread mode, the pool has
    [num_envs] simulation objects and an executor that accepts tasks, no
    channel and no process, every per-slot list has [num_envs] entries,
    every done flag is False and every episode count 0. *)
Theorem init_thread_pool n st mg delays (s : Coordinator) :
  __init__ n true st mg delays blank = (Ret tt, s) ->
  mode s = Some thread
  /\ executor s = Some {| shut_down := false |}
  /\ remotes s = None /\ processes s = None
  /\ pool_ok n (is_not_None mg) s
  /\ (exists es, envs s = Some es /\ length es = n)
  /\ items (dones s) = repeat false n
  /\ items (episode_counts s) = repeat 0%Z n
  /\ oid (dones s) < next_oid s /\ oid (episode_counts s) < next_oid s
  /\ oid (dones s) <> oid (episode_counts s).
Proof.
  intros H. unfold __init__ in H.
  apply bind_Ret in H as ([] & sA & HA & H). injection HA as <-.
  apply bind_Ret in H as ([] & sB & HB & H). injection HB as <-.
  apply bind_Ret in H as ([] & sC & HC & H).
  match type of HC with
  | _ ?s0 = _ =>
      pose proof (beside_configs_init_configs true (seq 0 n) s0) as Hside
  end.
  rewrite HC in Hside. unfold same_view in Hside. cbn [snd] in Hside.
  apply init_configs_thread_Ret in HC as (Hmgr & Hcfgs).
  rewrite length_seq in Hcfgs. cbn [length Nat.add] in Hcfgs.
  apply bind_Ret in H as ([] & sI & Hpool & H).
  apply bind_Ret in H as (d & sJ & Hd & H).
  apply bind_Ret in H as ([] & sK & HK & H). injection HK as <-.
  apply bind_Ret in H as (c & sL & Hc & H).
  injection H as <-. injection Hd as <- <-. injection Hc as <- <-.
  apply bind_Ret in Hpool as ([] & sD & HD & Hpool). injection HD as <-.
  apply bind_Ret in Hpool as ([] & sE & HE & Hpool). injection HE as <-.
  apply bind_Ret in Hpool as ([] & sF & Henvs & Hpool).
  apply (init_envs_Ret _ _ _ 0) in Henvs as (HbF & HcF);
    [ | destruct sC; reflexivity].
  apply bind_Ret in Hpool as (obs & sG & Hobs & Hpool).
  apply init_resets_Ret in Hobs as (Hlo & HbG & HcG).
  apply bind_Ret in Hpool as ([] & sH & HH & Hpool). injection HH as <-.
  apply bind_Ret in Hpool as ([] & sR & Hrender & Hpool). injection Hpool as <-.
  assert (beside_envs sR = beside_envs (set_obs_dicts obs sG)
          /\ shape sR = shape (set_obs_dicts obs sG)) as (HbR & HcR).
  { destruct (Nat.ltb 0 n).
    - split.
      + pose proof (beside_envs_env_update 0 env_render (set_obs_dicts obs sG)) as Hf.
        rewrite Hrender in Hf. exact Hf.
      + pose proof (shape_env_update 0 env_render (set_obs_dicts obs sG)) as Hf.
        rewrite Hrender in Hf. exact Hf.
    - injection Hrender as <-. auto. }
  rewrite length_seq in HcF, Hlo.
  unfold beside_configs in Hside. unfold beside_envs in HbF, HbG, HbR.
  unfold shape in HcG, HcR.
  destruct sC, sF, sG; simpl in *.
  destruct sR as [? ? ? ? ? ? ? ? ? envsR ? ? ? ? ? ? ? ? ?]; simpl in *.
  injection Hside as -> -> -> -> -> -> -> -> -> -> -> -> -> -> -> -> ->.
  clear Hrender.
  injection HcR as _ _ _ _ _ _ _ HeR _.
  injection HcG as _ _ _ _ _ _ _ HeG _.
  injection HbR as -> -> -> -> -> -> -> -> -> -> -> -> -> -> -> -> -> ->.
  injection HbG as -> -> -> -> -> -> -> -> -> -> -> -> -> -> -> -> -> ->.
  injection HbF as -> -> -> -> -> -> -> -> -> -> -> -> -> -> -> -> -> ->.
  assert (length <$> envsR = Some n) as He by congruence.
  destruct envsR as [es | ]; [ | discriminate]. injection He as He.
  split; [reflexivity | ]. split; [reflexivity | ].
  split; [reflexivity | ]. split; [reflexivity | ].
  split.
  { unfold pool_ok. simpl. rewrite !repeat_length.
    repeat split; try reflexivity; try lia; try congruence. }
  split; [eauto | ].
  split; [reflexivity | ]. split; [reflexivity | ].
  split; [lia | ]. split; [lia | lia].
Qed.

End Properties.


(** ** The program on concrete inputs *)

Lemma slot_isolation_witness :
  0 <> 1
  /\ let s0 := snd (run_init one_step_env 2 false None None [0%Z; 0%Z]) in
     slot_view 1 (snd (run_process_result one_step_env 0 s0)) = slot_view 1 s0.
Proof.
  split; [discriminate | ].
  apply (slot_isolation (Sim := stub_sim one_step_env) (Stk := stub_stacker)
           (Mgr := stub_manager) 0 1).
  discriminate.
Defined.

Lemma force_env_reset_process_mode_witness :
  let s0 := snd (run_init quiet_env 2 false None None [0%Z; 0%Z]) in
  mode s0 = Some multiprocess
  /\ run_force_env_reset quiet_env 1 s0 = (Ret tt, s0).
Proof.
  split; [vm_compute; reflexivity | ].
  apply (force_env_reset_process_mode (Sim := stub_sim quiet_env)).
  vm_compute; reflexivity.
Defined.






(** C2 at its failing input.  The slot holds the 1v1 configuration
    (2 required agents); its episode ends, the manager hands out the 2v2
    configuration (4 required agents), and the rebuilt simulation resets
    to 2 agents.  The first reset attempt is accepted, because [required]
    was read from the configuration held before the update (lines
    488-492): after the call the retained mapping has 2 agent ids while
    the slot's current configuration requires 4. *)
Lemma step_validates_against_previous_config :
  let s0 := snd (run_init one_step_env 1 false None (Some growing_manager) [0%Z]) in
  let r := run_step one_step_env [one_action] s0 in
  (exists res d c, fst r = Ret (res, d, c) /\ items d = [true])
  /\ stdout (snd r) = []
  /\ dict_len <$> (obs_dicts (snd r) !! 0) = Some 2
  /\ curriculum_configs (snd r) !! 0 = Some (Some config_2v2)
  /\ config_2v2 !! "required_agents" = Some (VInt 4).
Proof.
  vm_compute. split; [do 3 eexists; split; reflexivity | repeat split].
Qed.

(** C4 at its failing input.  In thread mode with a Curriculum Manager,
    a slot whose episode ends is marked done, and then line 364 reads the
    unbound name [i]: the call raises before [update_progression_stats]
    is reached, and nothing is reported. *)
Lemma step_thread_reports_nothing :
  let s0 := snd (run_init one_step_env 1 true None (Some growing_manager) []) in
  let r := run_step one_step_env [one_action] s0 in
  mode s0 = Some thread
  /\ fst r = Raise (UnboundLocalError "i")
  /\ items (dones (snd r)) = [true]
  /\ reported (snd r) = [].
Proof. vm_compute. repeat split. Qed.

(** C6 at its failing input.  The first [close] of a process-mode
    Coordinator returns; the second one calls [send] on a handle the
    first one closed, which raises [OSError], a class the handler of
    line 593 does not catch. *)
Lemma close_twice_process_mode_raises :
  let s0 := snd (run_init quiet_env 1 false None None [0%Z]) in
  mode s0 = Some multiprocess
  /\ fst (run_close quiet_env s0) = Ret tt
  /\ fst (run_close quiet_env (snd (run_close quiet_env s0)))
     = Raise (OSError "handle is closed").
Proof. vm_compute. repeat split. Qed.

(** C7 at its failing input.  The guard of line 270 tests the triple
    returned by [select], which is never empty, so the timeout branch is
    never taken.  With a worker whose first answer takes 31 time units,
    construction waits in [recv] beyond the timeout, stores the answer
    (not an empty mapping) and sends no [close] command. *)
Lemma init_timeout_branch_never_taken :
  (forall i (r : @Remote StubEnv nat) t, py_truthy (select_select i r t) = true)
  /\ let r := run_init quiet_env 1 false None None [31%Z] in
     fst r = Ret tt
     /\ obs_dicts (snd r) = [[("blue-0", []); ("orange-0", [])]]
     /\ sent <$> (rs ← remotes (snd r); rs !! 0) = Some [CmdReset]
     /\ stdout (snd r) = [].
Proof.
  split; [reflexivity | ].
  vm_compute. repeat split.
Qed.

(** ** Further properties on concrete inputs *)


Lemma format_actions_keeps_agents_witness :
  NoDup (dict_keys two_actions)
  /\ fst (format_actions (Stk := stub_stacker) two_actions (Some 0))
     = [("blue-0", NdArray [1%Z]); ("orange-0", NdArray [2%Z])]
  /\ snd (format_actions (Stk := stub_stacker) two_actions (Some 0)) = Some 2.
Proof.
  assert (NoDup (dict_keys two_actions)) as Hnd.
  { apply (bool_decide_unpack _). vm_compute. exact I. }
  split; [exact Hnd | ].
  destruct (format_actions_keeps_agents (Stk := stub_stacker) two_actions (Some 0) Hnd)
    as (H1 & H2 & _).
  rewrite H1, H2. split; reflexivity.
Defined.

Lemma make_config_picklable_idempotent_witness :
  _make_config_picklable config_raw_2v2
  = Ret (<["required_agents" := VInt 4]> config_raw_2v2)
  /\ _make_config_picklable (<["required_agents" := VInt 4]> config_raw_2v2)
     = Ret (<["required_agents" := VInt 4]> config_raw_2v2).
Proof.
  assert (_make_config_picklable config_raw_2v2
          = Ret (<["required_agents" := VInt 4]> config_raw_2v2)) as H
    by (vm_compute; reflexivity).
  split; [exact H | ].
  exact (make_config_picklable_idempotent _ _ H).
Defined.

Lemma init_process_pool_witness :
  let r := run_init quiet_env 2 false None None [0%Z; 0%Z] in
  r = (Ret tt, snd r)
  /\ mode (snd r) = Some multiprocess
  /\ items (dones (snd r)) = [false; false]
  /\ exists rs,
       remotes (snd r) = Some rs /\ length rs = 2
       /\ forall j r0, rs !! j = Some r0 -> remote_with [] r0 /\ sent r0 = [CmdReset].
Proof.
  intros r.
  assert (r = (Ret tt, snd r)) as Hr by (vm_compute; reflexivity).
  split; [exact Hr | ].
  destruct (init_process_pool (Sim := stub_sim quiet_env) (Stk := stub_stacker)
              (Mgr := stub_manager) 2 None None [0%Z; 0%Z] (snd r) Hr)
    as (_ & Hm & _ & Hd & _ & _ & _ & _ & Hrs).
  auto.
Defined.

Lemma init_thread_pool_witness :
  let r := run_init quiet_env 2 true None None [] in
  r = (Ret tt, snd r)
  /\ mode (snd r) = Some thread
  /\ executor (snd r) = Some {| shut_down := false |}
  /\ exists es, envs (snd r) = Some es /\ length es = 2.
Proof.
  intros r.
  assert (r = (Ret tt, snd r)) as Hr by (vm_compute; reflexivity).
  split; [exact Hr | ].
  destruct (init_thread_pool (Sim := stub_sim quiet_env) (Stk := stub_stacker)
              (Mgr := stub_manager) 2 None None [] (snd r) Hr)
    as (Hm & Hex & _ & _ & _ & Hes & _).
  auto.
Defined.

Lemma pool_never_stalls_witness :
  sim_never_raises (Sim := steady_sim)
  /\ manager_configs_picklable (Mgr := steady_manager)
  /\ exists s0,
       steady_init 2 = (Ret tt, s0)
       /\ exists res d c,
            fst (steady_step [one_action; one_action]
                   (snd (steady_step [one_action; one_action] s0)))
            = Ret (res, d, c)
            /\ length res = 2.
Proof.
  assert (sim_never_raises (Sim := steady_sim)) as Hsim
    by (repeat split; intros; simpl; eauto).
  assert (manager_configs_picklable (Mgr := steady_manager)) as Hmgr
    by (intros m; eexists; vm_compute; reflexivity).
  split; [exact Hsim | ]. split; [exact Hmgr | ].
  destruct (pool_never_stalls (Sim := steady_sim) (Stk := steady_stacker)
              (Mgr := steady_manager) Hsim Hmgr 2 (Some tt) (Some tt)
              [0%Z; 0%Z]
              [[one_action; one_action]; [one_action; one_action]])
    as (s0 & Hinit & Hsteps).
  - lia.
  - repeat constructor.
  - exists s0. split; [exact Hinit | ].
    exact (Hsteps 1 [one_action; one_action] eq_refl).
Defined.


Lemma step_ignores_surplus_actions_witness :
  let s0 := snd (run_init quiet_env 1 false None None [0%Z]) in
  exists rs,
    mode s0 = Some multiprocess /\ remotes s0 = Some rs
    /\ length rs <= length [one_action]
    /\ run_step quiet_env ([one_action] ++ [two_actions]) s0
       = run_step quiet_env [one_action] s0.
Proof.
  intros s0.
  assert (mode s0 = Some multiprocess) as Hm by (vm_compute; reflexivity).
  assert (exists rs, remotes s0 = Some rs /\ length rs <= length [one_action])
    as (rs & Hrs & Hlen)
    by (eexists; split; [vm_compute; reflexivity | simpl; lia]).
  exists rs. split; [exact Hm | ]. split; [exact Hrs | ]. split; [exact Hlen | ].
  exact (proj2 (step_ignores_surplus_actions (Sim := stub_sim quiet_env)
                  (Stk := stub_stacker) (Mgr := stub_manager)
                  [one_action] [two_actions] s0) rs Hm Hrs Hlen).
Defined.

Lemma step_thread_mode_returns_nothing_witness :
  let s0 := snd (run_init quiet_env 1 true None None []) in
  mode s0 = Some thread
  /\ exists res d c s',
       run_step quiet_env [[]] s0 = (Ret (res, d, c), s')
       /\ res = []
       /\ s' = set_next_oid (S (S (next_oid s0))) s0.
Proof.
  intros s0.
  assert (mode s0 = Some thread) as Hm by (vm_compute; reflexivity).
  split; [exact Hm | ].
  assert (exists res d c s', run_step quiet_env [[]] s0 = (Ret (res, d, c), s'))
    as (res & d & c & s' & Hrun) by (vm_compute; eauto 10).
  exists res, d, c, s'. split; [exact Hrun | ].
  destruct (step_thread_mode_returns_nothing (Sim := stub_sim quiet_env)
              (Stk := stub_stacker) (Mgr := stub_manager)
              [[]] s0 res d c s' Hm Hrun) as (H1 & _ & H3).
  auto.
Defined.

Lemma step_without_manager_witness :
  let s0 := snd (run_init one_step_env 1 false None None [0%Z]) in
  curriculum_manager s0 = None
  /\ reported (snd (run_step one_step_env [one_action] s0)) = reported s0
  /\ curriculum_configs (snd (run_step one_step_env [one_action] s0))
     = curriculum_configs s0.
Proof.
  intros s0.
  assert (curriculum_manager s0 = None) as Hm by (vm_compute; reflexivity).
  split; [exact Hm | ].
  destruct (step_without_manager (Sim := stub_sim one_step_env)
              (Stk := stub_stacker) (Mgr := stub_manager)
              [one_action] s0 Hm) as (_ & H2 & H3).
  auto.
Defined.

Lemma step_process_bookkeeping_witness :
  let s0 := snd (run_init one_step_env 1 false None None [0%Z]) in
  mode s0 = Some multiprocess
  /\ exists res d c s',
       run_step one_step_env [one_action] s0 = (Ret (res, d, c), s')
       /\ items d = items (dones s')
       /\ forall i out, res !! i = Some out -> slot_settled i s0 out s'.
Proof.
  intros s0.
  assert (mode s0 = Some multiprocess) as Hm by (vm_compute; reflexivity).
  split; [exact Hm | ].
  assert (exists res d c s',
            run_step one_step_env [one_action] s0 = (Ret (res, d, c), s'))
    as (res & d & c & s' & Hrun) by (vm_compute; eauto 10).
  exists res, d, c, s'. split; [exact Hrun | ].
  destruct (step_process_bookkeeping (Sim := stub_sim one_step_env)
              (Stk := stub_stacker) (Mgr := stub_manager)
              [one_action] s0 res d c s' Hm Hrun) as (H1 & _ & H3).
  auto.
Defined.

Lemma process_result_reports_witness :
  let s0 := snd (run_init one_step_env 1 false None (Some growing_manager) [0%Z]) in
  let s1 := snd (run_remote_send one_step_env 0 (CmdStep one_action) s0) in
  is_not_None (curriculum_manager s1) = true
  /\ episode_rewards s1 !! 0 = Some []
  /\ exists out s',
       run_process_result one_step_env 0 s1 = (Ret out, s')
       /\ reported s'
          = reported s1 ++ [{| success := true; timeout := false;
                               episode_reward := mean_reward
                                 (track_rewards [] (snd (fst (fst out)))) |}]
       /\ episode_rewards s' !! 0 = Some [].
Proof.
  intros s0 s1.
  assert (is_not_None (curriculum_manager s1) = true) as Hm
    by (vm_compute; reflexivity).
  assert (episode_rewards s1 !! 0 = Some []) as Hacc by (vm_compute; reflexivity).
  split; [exact Hm | ]. split; [exact Hacc | ].
  assert (exists out s', run_process_result one_step_env 0 s1 = (Ret out, s')
                         /\ py_any (dict_values (snd (fst out))) = true
                         /\ py_any (dict_values (snd out)) = false)
    as (out & s' & Hrun & Ht & Hu) by (vm_compute; eauto 10).
  exists out, s'. split; [exact Hrun | ].
  pose proof (process_result_reports (Sim := stub_sim one_step_env)
                (Stk := stub_stacker) (Mgr := stub_manager)
                0 s1 out s' [] Hrun Hm Hacc) as H.
  cbv zeta in H. rewrite Ht, Hu in H. exact H.
Defined.


Lemma force_env_reset_thread_mode_witness :
  let s0 := snd (run_init quiet_env 2 true None None []) in
  mode s0 = Some thread
  /\ slot_view 0 (snd (run_force_env_reset quiet_env 1 s0)) = slot_view 0 s0
  /\ untouched_by_reset (snd (run_force_env_reset quiet_env 1 s0))
     = untouched_by_reset s0.
Proof.
  intros s0.
  assert (mode s0 = Some thread) as Hm by (vm_compute; reflexivity).
  split; [exact Hm | ].
  destruct (force_env_reset_thread_mode (Sim := stub_sim quiet_env) 1 s0 Hm)
    as (H1 & H2 & _).
  split; [apply H1; discriminate | exact H2].
Defined.

Lemma close_process_mode_witness :
  let s0 := snd (run_init quiet_env 2 false None None [0%Z; 0%Z]) in
  exists rs,
    mode s0 = Some multiprocess /\ remotes s0 = Some rs
    /\ Forall (fun r => handle_open r = true) rs
    /\ exists rs',
         run_close quiet_env s0 = (Ret tt, set_remotes (Some rs') s0)
         /\ Forall (fun r' => handle_open r' = false /\ idle r') rs'.
Proof.
  intros s0.
  assert (mode s0 = Some multiprocess) as Hm by (vm_compute; reflexivity).
  assert (exists rs, remotes s0 = Some rs
                     /\ Forall (fun r => handle_open r = true) rs)
    as (rs & Hrs & Hopen)
    by (eexists; split; [vm_compute; reflexivity | repeat constructor]).
  exists rs. split; [exact Hm | ]. split; [exact Hrs | ]. split; [exact Hopen | ].
  destruct (close_process_mode (Sim := stub_sim quiet_env) (Stk := stub_stacker)
 s0 rs Hm Hrs Hopen) as (rs' & Hrun & HF).
  exists rs'. split; [exact Hrun | ].
  apply Forall_lookup. intros i r' Hi.
  destruct (Forall2_lookup_r _ _ _ i r' HF Hi) as (r & _ & H1 & H2 & _).
  auto.
Defined.

Lemma closed_pool_raises_witness :
  let s0 := snd (run_init quiet_env 2 false None None [0%Z; 0%Z]) in
  exists rs,
    mode s0 = Some multiprocess /\ remotes s0 = Some rs
    /\ Forall (fun r => handle_open r = true) rs /\ rs <> []
    /\ fst (run_close quiet_env s0) = Ret tt
    /\ fst (run_step quiet_env [one_action; one_action]
              (snd (run_close quiet_env s0)))
       = Raise (OSError "handle is closed").
Proof.
  intros s0.
  assert (mode s0 = Some multiprocess) as Hm by (vm_compute; reflexivity).
  assert (exists rs, remotes s0 = Some rs
                     /\ Forall (fun r => handle_open r = true) rs /\ rs <> [])
    as (rs & Hrs & Hopen & Hne)
    by (eexists; split; [vm_compute; reflexivity
                        | split; [repeat constructor | discriminate]]).
  exists rs. split; [exact Hm | ]. split; [exact Hrs | ].
  split; [exact Hopen | ]. split; [exact Hne | ].
  destruct (closed_pool_raises (Sim := stub_sim quiet_env) (Stk := stub_stacker)
              (Mgr := stub_manager) [one_action; one_action] s0 rs
              Hm Hrs Hopen Hne) as (H1 & H2 & _).
  split; [exact H1 | ].
  unfold run_step, run_close. rewrite H2 by discriminate. reflexivity.
Defined.

Lemma close_thread_mode_witness :
  let s0 := snd (run_init quiet_env 2 true None None []) in
  exists ex es,
    mode s0 = Some thread /\ executor s0 = Some ex /\ envs s0 = Some es
    /\ fst (run_close quiet_env s0) = Ret tt
    /\ executor (snd (run_close quiet_env s0)) = Some {| shut_down := true |}.
Proof.
  intros s0.
  assert (mode s0 = Some thread) as Hm by (vm_compute; reflexivity).
  assert (exists ex, executor s0 = Some ex) as (ex & Hex)
    by (eexists; vm_compute; reflexivity).
  assert (exists es, envs s0 = Some es
                     /\ fst (close_in_order (Sim := stub_sim quiet_env) es) = None)
    as (es & Hes & Hok)
    by (eexists; split; [vm_compute; reflexivity | vm_compute; reflexivity]).
  exists ex, es. split; [exact Hm | ]. split; [exact Hex | ]. split; [exact Hes | ].
  destruct (close_thread_mode (Sim := stub_sim quiet_env) (Stk := stub_stacker)
 s0 ex es Hm Hex Hes) as (Hrun & _).
  unfold run_close. rewrite Hrun, Hok. split; [reflexivity | ].
  cbn [snd]. destruct s0; reflexivity.
Defined.

Lemma shut_pool_raises_witness :
  let s0 := snd (run_init quiet_env 2 true None None []) in
  exists ex es,
    mode s0 = Some thread /\ executor s0 = Some ex /\ envs s0 = Some es
    /\ 0 < length es /\ [one_action; []] !! 0 = Some one_action
    /\ one_action <> []
    /\ fst (run_step quiet_env [one_action; []] (snd (run_close quiet_env s0)))
       = Raise (RuntimeError "cannot schedule new futures after shutdown").
Proof.
  intros s0.
  assert (mode s0 = Some thread) as Hm by (vm_compute; reflexivity).
  assert (exists ex, executor s0 = Some ex) as (ex & Hex)
    by (eexists; vm_compute; reflexivity).
  assert (exists es, envs s0 = Some es /\ 0 < length es) as (es & Hes & Hlen)
    by (eexists; split; [vm_compute; reflexivity | simpl; lia]).
  exists ex, es. split; [exact Hm | ]. split; [exact Hex | ]. split; [exact Hes | ].
  split; [exact Hlen | ]. split; [reflexivity | ]. split; [discriminate | ].
  unfold run_step, run_close.
  rewrite (shut_pool_raises (Sim := stub_sim quiet_env) (Stk := stub_stacker)
             (Mgr := stub_manager) [one_action; []] s0 ex es 0 one_action
             Hm Hex Hes Hlen eq_refl ltac:(discriminate)).
  reflexivity.
Defined.
